(** * Block cellular automaton (Margolus neighbourhood): model of [Block_CA.py]

    The simulation core of the program is the pair of classes [Board] and
    [GameManager] together with the small class [Cell].  This file embeds
    them and proves properties of the block partition, of the per-block
    transition rule, of generation stepping and of board construction.

    Python values are modelled as follows.
    - Integers are [Z]; [//] is [Z.div] and [%] is [Z.modulo] (both floor,
      sign of the divisor, as in Python).
    - Every [Cell] is a mutable object.  The store of cell objects is a list
      of states indexed by the object's address; the numpy object array
      [Board.grid] holds addresses, so that swapping two entries of the
      array and flipping a cell through an older reference behave as in the
      source.
    - Exceptions are an error result.
    - A Python float is given by its value, a rational number; the result
      of an operation on floats is the exact result rounded to the nearest
      double ([float64]).  The probability [p] is such a float.
    - The global numpy random generator is an entropy stream [nat -> Z]
      read in order. *)

From Stdlib Require Import ZArith QArith Lia Lqa List Bool String.
From stdpp Require Import base tactics option list.

Local Open Scope Z_scope.

(** ** Python runtime *)

Inductive exn : Set :=
  ValueError | IndexError | ZeroDivisionError | AttributeError.

Inductive result (A : Type) : Type :=
| Ok (a : A)
| Raise (e : exn).
Arguments Ok {A} a.
Arguments Raise {A} e.

#[global] Instance result_ret : MRet result := fun A a => Ok a.
#[global] Instance result_bind : MBind result := fun A B f m =>
  match m with
  | Ok a => f a
  | Raise e => Raise e
  end.

Definition is_Ok {A} (r : result A) : bool :=
  match r with Ok _ => true | Raise _ => false end.

(** [for x in l: body], with the loop state passed along and an exception
    leaving the loop. *)
Fixpoint for_each {A S : Type} (l : list A) (body : A -> S -> result S) (s : S)
  : result S :=
  match l with
  | [] => Ok s
  | x :: l' => s' ← body x s; for_each l' body s'
  end.

(** [range(start, stop, step)] for a positive [step]. *)
Definition py_range (start stop step : Z) : list Z :=
  map (fun k => start + step * Z.of_nat k)
      (seq 0 (Z.to_nat ((stop - start + step - 1) / step))).

(** [enumerate(l)]. *)
Definition enumerate {A} (l : list A) : list (Z * A) :=
  imap (fun k x => (Z.of_nat k, x)) l.

(** Index normalisation of a sequence of length [len]: indices from
    [-len] to [-1] count from the end, anything else out of [0, len)
    raises [IndexError]. *)
Definition py_index (len : nat) (x : Z) : result nat :=
  if (0 <=? x) && (x <? Z.of_nat len) then Ok (Z.to_nat x)
  else if (- Z.of_nat len <=? x) && (x <? 0) then Ok (Z.to_nat (x + Z.of_nat len))
  else Raise IndexError.

(** ** Floats *)

(** The integer nearest to [n / d], for [d > 0] and [n >= 0]; a tie goes
    to the even one. *)
Definition round_half_even (n d : Z) : Z :=
  let f := n / d in
  let r := n mod d in
  if 2 * r <? d then f
  else if d <? 2 * r then f + 1
  else if Z.even f then f else f + 1.

(** IEEE 754 binary64, round to nearest, ties to even: the double that
    Python and numpy give for an operation whose exact result is [q], of
    magnitude below [2^1024].  The result is [m * 2^e] for an integer [m]
    of at most 53 bits and the least [e >= -1074] that allows it. *)
Definition float64 (q : Q) : Q :=
  let n := Z.abs (Qnum q) in
  let d := Zpos (Qden q) in
  if n =? 0 then 0%Q
  else
    let l := Z.log2 n - Z.log2 d in
    let l := if n * 2 ^ Z.max 0 (- l) <? d * 2 ^ Z.max 0 l then l - 1 else l in
    let e := Z.max (l - 52) (-1074) in
    let m := if 0 <=? e then round_half_even n (d * 2 ^ e)
             else round_half_even (n * 2 ^ (- e)) d in
    let v := if 0 <=? e then inject_Z (m * 2 ^ e)
             else Qred (Qmake m (Z.to_pos (2 ^ (- e)))) in
    if Qnum q <? 0 then (- v)%Q else v.

(** ** The numpy random generator *)

(** A uniform double in [[0, 1)]: 53 random bits over [2^53]. *)
Definition random_sample (raw : Z) : Q :=
  Qmake (raw mod 2 ^ 53) (2 ^ 53).

(** The first entry of the cumulative distribution that
    [np.random.choice] computes for [p=[1 - p, p]], in doubles: [1 - p] is
    rounded by Python, [cdf = p.cumsum()] adds [p] to it, and
    [cdf /= cdf[-1]] divides by that sum.  The second entry is [1]. *)
Definition cdf0 (p : Q) : Q :=
  let q := float64 (1 - p) in
  let total := float64 (q + p) in
  float64 (q / total).

(** [np.random.choice([0, 1], p=[1 - p, p])]: a negative probability is
    rejected, otherwise the draw is
    [cdf.searchsorted(uniform_sample, side='right')], the number of entries
    of the cumulative distribution [[cdf0, 1]] that are at most the uniform
    sample. *)
Definition random_choice01 (p : Q) (raw : Z) : result Z :=
  if negb (Qle_bool 0 (1 - p)) || negb (Qle_bool 0 p) then Raise ValueError
  else if Qle_bool (cdf0 p) (random_sample raw) then Ok 1 else Ok 0.

(** [np.random.randint(low, high)]: an empty range is rejected. *)
Definition random_randint (low high : Z) (raw : Z) : result Z :=
  if high <=? low then Raise ValueError
  else Ok (low + raw mod (high - low)).

(** ** Cells *)

Abbreviation loc := nat (only parsing).
(** The store of [Cell] objects: the state of the object at each address. *)
Abbreviation heap := (list Z) (only parsing).

Module Cell.

(** [Cell(p)]: a new object whose state is drawn at random. *)
Definition __init__ (p : Q) (raw : Z) (h : heap) : result (loc * heap) :=
  s ← random_choice01 p raw;
  Ok (length h, h ++ [s]).

(** [cell.state] *)
Definition state (c : loc) (h : heap) : Z := h !!! c.

(** [cell.state = v] *)
Definition set_state (c : loc) (v : Z) (h : heap) : heap := <[c := v]> h.

(** [self.state ^= 1] *)
Definition flip (c : loc) (h : heap) : heap :=
  alter (fun s => Z.lxor s 1) c h.

End Cell.

(** ** The object array [grid] *)

(** [grid[x][y]] *)
Definition getitem2 (g : list (list loc)) (x y : Z) : result loc :=
  r ← py_index (length g) x;
  match g !! r with
  | None => Raise IndexError
  | Some row =>
      c ← py_index (length row) y;
      match row !! c with
      | None => Raise IndexError
      | Some l => Ok l
      end
  end.

(** [grid[x][y] = v] *)
Definition setitem2 (g : list (list loc)) (x y : Z) (v : loc)
  : result (list (list loc)) :=
  r ← py_index (length g) x;
  match g !! r with
  | None => Raise IndexError
  | Some row =>
      c ← py_index (length row) y;
      Ok (<[r := <[c := v]> row]> g)
  end.

(** ** class Board *)

Module Board.

Record t : Type := mk {
  N : Z;
  wraparound : bool;
  blocks_even : list (Z * Z);
  blocks_odd : list (Z * Z);
  grid : list (list loc)
}.

Definition with_grid (b : t) (g : list (list loc)) : t :=
  mk (N b) (wraparound b) (blocks_even b) (blocks_odd b) g.

(** [_create_blocks(self, start)] reads only [self.N] and
    [self.wraparound], which are set before it is called. *)
Definition _create_blocks (N : Z) (wraparound : bool) (start : Z)
  : list (Z * Z) :=
  i ← py_range start N 2;
  j ← py_range start N 2;
  if wraparound || ((i + 1 <? N) && (j + 1 <? N)) then [(i, j)] else [].

(** The list [indices] of [apply_block_rules]. *)
Definition indices (N i j : Z) : list (Z * Z) :=
  [ (i, j); (i, (j + 1) mod N);
    ((i + 1) mod N, j); ((i + 1) mod N, (j + 1) mod N) ].

(** [sum(cell.state for cell in cells)].  The states of a board are the
    numpy integers 0 and 1 of the draws and the Python integers that an
    initialisation mode or a pattern assigned; the sum is exact for states
    0 and 1.  What Python and numpy do when a stamped integer beyond the
    range of a numpy integer is added to a numpy integer is not
    modelled. *)
Definition density (cells : list loc) (h : heap) : Z :=
  foldr Z.add 0 (map (fun c => Cell.state c h) cells).

Definition flip_all (cells : list loc) (h : heap) : heap :=
  foldl (fun h c => Cell.flip c h) h cells.

(** [a[x1][y1], a[x2][y2] = a[x2][y2], a[x1][y1]]: both right-hand sides
    are read, then the two targets are assigned from left to right. *)
Definition swap_items (g : list (list loc)) (x1 y1 x2 y2 : Z)
  : result (list (list loc)) :=
  v1 ← getitem2 g x2 y2;
  v2 ← getitem2 g x1 y1;
  g' ← setitem2 g x1 y1 v1;
  setitem2 g' x2 y2 v2.

(** The guard of [apply_block_rules]:
    [not self.wraparound and (i + 1 >= N or j + 1 >= N)]. *)
Definition past_edge (N : Z) (wraparound : bool) (i j : Z) : bool :=
  negb wraparound && ((N <=? i + 1) || (N <=? j + 1)).

Definition apply_block_rules (b : t) (i j : Z) (h : heap)
  : result (t * heap) :=
  let N := N b in
  if past_edge N (wraparound b) i j then Ok (b, h)
  else if N =? 0 then Raise ZeroDivisionError
  else
    cells ← mapM (fun xy => getitem2 (grid b) xy.1 xy.2) (indices N i j);
    let density := density cells h in
    if density =? 2 then Ok (b, h)
    else if (density =? 0) || (density =? 1) || (density =? 4) then
      Ok (b, flip_all cells h)
    else if density =? 3 then
      g1 ← swap_items (grid b) i j ((i + 1) mod N) ((j + 1) mod N);
      g2 ← swap_items g1 i ((j + 1) mod N) ((i + 1) mod N) j;
      Ok (with_grid b g2, flip_all cells h)
    else Ok (b, h).

Definition step (b : t) (even : bool) (h : heap) : result (t * heap) :=
  let blocks := if even then blocks_even b else blocks_odd b in
  for_each blocks (fun ij s => apply_block_rules s.1 ij.1 ij.2 s.2) (b, h).

(** [get_state_array]: the states, row by row. *)
Definition get_state_array (b : t) (h : heap) : list (list Z) :=
  map (map (fun c => Cell.state c h)) (grid b).

(** The comprehension [[Cell(p) for _ in range(n)]]: the cells are
    created from left to right, each consuming one draw.  The loop state
    is the store and the number of draws made so far. *)
Fixpoint new_row (p : Q) (rnd : nat -> Z) (n : nat) (s : heap * nat)
  : result (list loc * (heap * nat)) :=
  match n with
  | O => Ok ([], s)
  | S n' =>
      '(c, h') ← Cell.__init__ p (rnd s.2) s.1;
      '(row, s') ← new_row p rnd n' (h', S s.2);
      Ok (c :: row, s')
  end.

(** [[[Cell(p) for _ in range(N)] for _ in range(N)]] *)
Fixpoint new_rows (p : Q) (rnd : nat -> Z) (n : nat) (rows : nat)
  (s : heap * nat) : result (list (list loc) * (heap * nat)) :=
  match rows with
  | O => Ok ([], s)
  | S rows' =>
      '(row, s1) ← new_row p rnd n s;
      '(g, s2) ← new_rows p rnd n rows' s1;
      Ok (row :: g, s2)
  end.

(** The two loops shared by the deterministic initialisations: every
    cell [(i, j)] gets the state [f i j]. *)
Definition initialize_with (f : Z -> Z -> Z) (b : t) (h : heap)
  : result heap :=
  for_each (py_range 0 (N b) 1) (fun i h =>
    for_each (py_range 0 (N b) 1) (fun j h =>
      c ← getitem2 (grid b) i j;
      Ok (Cell.set_state c (f i j) h)) h) h.

Definition _initialize_odd_columns : t -> heap -> result heap :=
  initialize_with (fun i j => if j mod 2 =? 1 then 1 else 0).

Definition _initialize_diagonal_pattern : t -> heap -> result heap :=
  initialize_with (fun i j => if (i + j) mod 2 =? 1 then 1 else 0).

(** The copying loops of [_place_pattern]: the inner loop over one
    enumerated row, and the outer loop over the enumerated pattern. *)
Definition stamp_row (b : t) (top left : Z) (irow : Z * list Z) (h : heap)
  : result heap :=
  for_each (enumerate irow.2) (fun jval h =>
    let i := irow.1 in
    let j := jval.1 in
    if (0 <=? top + i) && (top + i <? N b)
       && (0 <=? left + j) && (left + j <? N b)
    then c ← getitem2 (grid b) (top + i) (left + j);
         Ok (Cell.set_state c jval.2 h)
    else Ok h) h.

Definition stamp (b : t) (pattern : list (list Z)) (top left : Z) (h : heap)
  : result heap :=
  for_each (enumerate pattern) (stamp_row b top left) h.

(** The origin drawn by [_place_pattern]; [len(pattern[0])] needs a
    first row. *)
Definition draw_origin (N : Z) (pattern : list (list Z)) (raw1 raw2 : Z)
  : result (Z * Z) :=
  let height := Z.of_nat (length pattern) in
  match pattern with
  | [] => Raise IndexError
  | row0 :: _ =>
      let width := Z.of_nat (length row0) in
      let max_top := N - height in
      let max_left := N - width in
      t ← random_randint 0 ((max_top + 1) / 2) raw1;
      l ← random_randint 0 ((max_left + 1) / 2) raw2;
      Ok (t * 2 + 1, l * 2 + 1)
  end.

Definition _place_pattern (b : t) (pattern : list (list Z))
  (raw1 raw2 : Z) (h : heap) : result heap :=
  origin ← draw_origin (N b) pattern raw1 raw2;
  stamp b pattern origin.1 origin.2 h.

(** [Board(N, p, wraparound, glider, init_mode)].  The cells live in a
    store of their own; the two [print] calls of the glider branch are
    left out. *)
Definition __init__ (N : Z) (p : Q) (wraparound : bool)
  (glider : option (list (list Z))) (init_mode : string) (rnd : nat -> Z)
  : result (t * heap) :=
  let blocks_even := _create_blocks N wraparound 1 in
  let blocks_odd := _create_blocks N wraparound 0 in
  '(g, s) ← new_rows p rnd (Z.to_nat N) (Z.to_nat N) ([], O);
  let b := mk N wraparound blocks_even blocks_odd g in
  match glider with
  | Some pattern =>
      h ← _place_pattern b pattern (rnd s.2) (rnd (S s.2)) s.1;
      Ok (b, h)
  | None =>
      if String.eqb init_mode "Odd Columns Alive" then
        h ← _initialize_odd_columns b s.1; Ok (b, h)
      else if String.eqb init_mode "Odd Diagonals Alive" then
        h ← _initialize_diagonal_pattern b s.1; Ok (b, h)
      else Ok (b, s.1)
  end.

End Board.

(** ** class GameManager *)

Module GameManager.

Record t : Type := mk {
  N : Z;
  p : Q;
  max_steps : Z;
  wraparound : bool;
  board : Board.t;
  current_step : Z
}.

Definition __init__ (N : Z) (p : Q) (max_steps : Z) (wraparound : bool)
  (glider : option (list (list Z))) (init_mode : string) (rnd : nat -> Z)
  : result (t * heap) :=
  '(b, h) ← Board.__init__ N p wraparound glider init_mode rnd;
  Ok (mk N p max_steps wraparound b 0, h).

Definition step (g : t) (h : heap) : result (t * heap) :=
  let even := current_step g mod 2 =? 0 in
  '(b, h') ← Board.step (board g) even h;
  Ok (mk (N g) (p g) (max_steps g) (wraparound g) b (current_step g + 1), h').

(** [draw(self, surface, offset_x)]: the squares drawn on the surface, in
    the order of the calls of [pygame.draw.rect], each as its colour and its
    rectangle [(x, y, width, height)]. *)
Definition draw (g : t) (h : heap) (offset_x : Z)
  : result (list ((Z * Z * Z) * (Z * Z * Z * Z))) :=
  let board_area_size := 560 in
  if N g =? 0 then Raise ZeroDivisionError
  else
    let cell_size := board_area_size / N g in
    for_each (py_range 0 (N g) 1) (fun i out =>
      for_each (py_range 0 (N g) 1) (fun j out =>
        c ← getitem2 (Board.grid (board g)) i j;
        let color :=
          if Cell.state c h =? 1 then (0, 0, 0) else (255, 255, 255) in
        let x := offset_x + j * cell_size in
        let y := i * cell_size in
        Ok (out ++ [(color, (x, y, cell_size, cell_size))])) out) [].

End GameManager.

(** The positions of the [N * N] cells of a board, row by row. *)
Definition all_cells (N : Z) : list (Z * Z) :=
  x ← py_range 0 N 1; y ← py_range 0 N 1; [(x, y)].

(** The glider of the simulator, [[[0,1],[1,0],[1,0],[0,1]]]. *)
Definition glider : list (list Z) := [[0; 1]; [1; 0]; [1; 0]; [0; 1]].

(** ** class Simulator *)

Module Simulator.

(** [start_simulation], up to the construction of the engine: the values
    of the three sliders are taken after [int(...)], the selection of the
    dropdown as a string; the updates of the widgets and the call of
    [run_simulation] are left out.  The probability [int(...) / 100] is a
    float, the double nearest to the quotient. *)
Definition start_simulation (generations_value probability_value size_value : Z)
  (wraparound : bool) (selected_option : string) (rnd : nat -> Z)
  : result (GameManager.t * heap) :=
  let generations := generations_value in
  let probability := float64 (Qmake probability_value 100) in
  let size := size_value in
  let size := if size mod 2 =? 0 then size else size + 1 in
  let init_mode := selected_option in
  let probability :=
    if String.eqb init_mode "Glider" then 1%Q else probability in
  GameManager.__init__ size probability generations wraparound
    (if String.eqb init_mode "Glider" then Some glider else None)
    init_mode rnd.

(** An event of [pygame.event.get()], by what [run_simulation] reads of
    it: [event.type], told apart as [pygame.QUIT], [pygame.USEREVENT] and
    any other type; [event.user_type], which an event has or not, told
    apart as [pygame_gui.UI_BUTTON_PRESSED] and any other value; and
    [event.ui_element], which an event has or not, told apart as the
    play/pause button, the reset button and any other element.  Reading
    an attribute that the event does not have raises [AttributeError].
    [entropy] is what the generator yields if the event makes the loop
    build a board. *)
Inductive event_type : Type := QUIT | USEREVENT | OTHER_TYPE.

Inductive user_type_value : Type := UI_BUTTON_PRESSED | OTHER_USER_TYPE.

Inductive element : Type := play_pause_button | reset_button | other_element.

Record event : Type := mk_event {
  type : event_type;
  user_type : option user_type_value;
  ui_element : option element;
  entropy : nat -> Z
}.

(** How a part of the loop ends: it goes on with a state, the program is
    left by [exit()], or an exception escapes. *)
Inductive flow (A : Type) : Type :=
| Go (a : A)
| Exit
| Escapes (e : exn).

Arguments Go {A} a.
Arguments Exit {A}.
Arguments Escapes {A} e.

(** The variables of [run_simulation]: the engine and the store of its
    cells, the two flags of the loop, and the squares of the last call of
    [draw], if any.  The widgets are left out. *)
Record loop : Type := mk_loop {
  game_manager : GameManager.t;
  store : heap;
  paused : bool;
  running : bool;
  screen : option (list ((Z * Z * Z) * (Z * Z * Z * Z)))
}.

(** The body of [for event in pygame.event.get()]: [event.user_type] is
    read for every event of type [USEREVENT], [event.ui_element] for every
    button press.  A reset sets the counter to 0 and replaces the board by
    a new one, whose cells live in a new store: nothing refers to the old
    board any more.  The calls that only update the widgets
    ([set_text], [self.manager.process_events(event)]) are left out. *)
Definition on_event (init_mode : string) (ev : event) (s : loop) : flow loop :=
  match type ev with
  | QUIT => Exit
  | USEREVENT =>
      match user_type ev with
      | None => Escapes AttributeError
      | Some UI_BUTTON_PRESSED =>
          match ui_element ev with
          | None => Escapes AttributeError
          | Some play_pause_button =>
              Go (mk_loop (game_manager s) (store s) (negb (paused s))
                    (running s) (screen s))
          | Some reset_button =>
              let g := game_manager s in
              match Board.__init__ (GameManager.N g) (GameManager.p g)
                      (GameManager.wraparound g)
                      (if String.eqb init_mode "Glider" then Some glider
                       else None)
                      init_mode (entropy ev) with
              | Ok (b, h) =>
                  Go (mk_loop
                        (GameManager.mk (GameManager.N g) (GameManager.p g)
                           (GameManager.max_steps g) (GameManager.wraparound g)
                           b 0)
                        h true (running s) (screen s))
              | Raise e => Escapes e
              end
          | Some other_element => Go s
          end
      | Some OTHER_USER_TYPE => Go s
      end
  | OTHER_TYPE => Go s
  end.

Fixpoint on_events (init_mode : string) (evs : list event) (s : loop)
  : flow loop :=
  match evs with
  | [] => Go s
  | ev :: evs' =>
      match on_event init_mode ev s with
      | Go s' => on_events init_mode evs' s'
      | Exit => Exit
      | Escapes e => Escapes e
      end
  end.

(** What follows the events in one round of the loop: a generation and a
    drawing, a drawing only, or the end of the loop.  The board is drawn
    to the right of the control panel, which is 240 wide. *)
Definition advance (s : loop) : flow loop :=
  let g := game_manager s in
  if (GameManager.current_step g <? GameManager.max_steps g)
     && negb (paused s) then
    match GameManager.step g (store s) with
    | Ok (g', h') =>
        match GameManager.draw g' h' 240 with
        | Ok squares => Go (mk_loop g' h' (paused s) (running s) (Some squares))
        | Raise e => Escapes e
        end
    | Raise e => Escapes e
    end
  else if (GameManager.current_step g <? GameManager.max_steps g)
          && paused s then
    match GameManager.draw g (store s) 240 with
    | Ok squares =>
        Go (mk_loop g (store s) (paused s) (running s) (Some squares))
    | Raise e => Escapes e
    end
  else Go (mk_loop g (store s) (paused s) false (screen s)).

Definition round (init_mode : string) (evs : list event) (s : loop)
  : flow loop :=
  match on_events init_mode evs s with
  | Go s' => advance s'
  | Exit => Exit
  | Escapes e => Escapes e
  end.

(** [run_simulation] over the events of the rounds to come, one list per
    round: the state in which the loop is left ([running] is then off), or
    the state reached when the given rounds are over. *)
Fixpoint rounds (init_mode : string) (frames : list (list event)) (s : loop)
  : flow loop :=
  match frames with
  | [] => Go s
  | evs :: frames' =>
      if running s then
        match round init_mode evs s with
        | Go s' => rounds init_mode frames' s'
        | Exit => Exit
        | Escapes e => Escapes e
        end
      else Go s
  end.

Definition run_simulation (init_mode : string) (g : GameManager.t) (h : heap)
  (frames : list (list event)) : flow loop :=
  rounds init_mode frames (mk_loop g h false true None).

End Simulator.

(** ** Vocabulary of the properties *)

(** The cell object held at a position of the array, and the array after an
    assignment to a position, for positions inside the array. *)
Definition ref (g : list (list loc)) (x y : Z) : loc :=
  (g !!! Z.to_nat x) !!! Z.to_nat y.

Definition upd (g : list (list loc)) (x y : Z) (v : loc) : list (list loc) :=
  <[Z.to_nat x := <[Z.to_nat y := v]> (g !!! Z.to_nat x)]> g.

(** The state read at a position: [grid[x][y].state]. *)
Definition state_at (b : Board.t) (h : heap) (x y : Z) : result Z :=
  c ← getitem2 (Board.grid b) x y; Ok (Cell.state c h).

(** The density that [apply_block_rules] computes for the block at
    [(i, j)]. *)
Definition block_density (b : Board.t) (h : heap) (i j : Z) : result Z :=
  cells ← mapM (fun xy => getitem2 (Board.grid b) xy.1 xy.2)
               (Board.indices (Board.N b) i j);
  Ok (Board.density cells h).

Fixpoint distinct (l : list loc) : bool :=
  match l with
  | [] => true
  | x :: l' => negb (existsb (Nat.eqb x) l') && distinct l'
  end.

(** A board as the constructor builds it and the rule keeps it: an
    [N] by [N] array whose entries are pairwise different cell objects of
    the store. *)
Definition well_formed (b : Board.t) (h : heap) : bool :=
  let n := Z.to_nat (Board.N b) in
  Nat.eqb (length (Board.grid b)) n
  && forallb (fun row => Nat.eqb (length row) n) (Board.grid b)
  && distinct (concat (Board.grid b))
  && forallb (fun c => Nat.ltb c (length h)) (concat (Board.grid b)).

(** Every cell state is 0 or 1. *)
Definition binary (h : heap) : bool :=
  forallb (fun s => (s =? 0) || (s =? 1)) h.

(** [(i, j)] is the origin of a 2x2 block of the board: four different
    cells of the grid, reached by wrapping only when wraparound is on. *)
Definition is_block (b : Board.t) (i j : Z) : bool :=
  (0 <=? i) && (i <? Board.N b) && (0 <=? j) && (j <? Board.N b)
  && (2 <=? Board.N b)
  && (Board.wraparound b || ((i + 1 <? Board.N b) && (j + 1 <? Board.N b))).

(** The complement of a binary state. *)
Definition complement (s : Z) : Z := 1 - s.

#[global] Instance result_fmap : FMap result := fun A B f m =>
  match m with
  | Ok a => Ok (f a)
  | Raise e => Raise e
  end.

(** The same array shape. *)
Definition dims (n : nat) (g : list (list loc)) : Prop :=
  length g = n /\ forall row, row ∈ g -> length row = n.

(** The invariant behind [well_formed], by positions. *)
Record WF (b : Board.t) (h : heap) : Prop := {
  wf_dims : dims (Z.to_nat (Board.N b)) (Board.grid b);
  wf_inj : forall x y x' y',
    0 <= x < Board.N b -> 0 <= y < Board.N b ->
    0 <= x' < Board.N b -> 0 <= y' < Board.N b ->
    ref (Board.grid b) x y = ref (Board.grid b) x' y' -> x = x' /\ y = y';
  wf_alloc : forall x y,
    0 <= x < Board.N b -> 0 <= y < Board.N b ->
    (ref (Board.grid b) x y < length h)%nat
}.

(** The array after the two swaps of the density-3 case. *)
Definition swap (g : list (list loc)) (x1 y1 x2 y2 : Z) : list (list loc) :=
  upd (upd g x1 y1 (ref g x2 y2)) x2 y2 (ref g x1 y1).

Definition rotate (g : list (list loc)) (N i j : Z) : list (list loc) :=
  swap (swap g i j ((i + 1) mod N) ((j + 1) mod N))
       i ((j + 1) mod N) ((i + 1) mod N) j.

(** The position whose cell a position holds after the two swaps. *)
Definition rot (N i j : Z) (z : Z * Z) : Z * Z :=
  let i1 := (i + 1) mod N in
  let j1 := (j + 1) mod N in
  if decide (z = (i, j)) then (i1, j1)
  else if decide (z = (i1, j1)) then (i, j)
  else if decide (z = (i, j1)) then (i1, j)
  else if decide (z = (i1, j)) then (i, j1)
  else z.

(** The cells of the block at [(i, j)], in the order of [indices]. *)
Definition block_refs (g : list (list loc)) (N i j : Z) : list loc :=
  [ ref g i j; ref g i ((j + 1) mod N);
    ref g ((i + 1) mod N) j; ref g ((i + 1) mod N) ((j + 1) mod N) ].

(** [p] lies in [[0, 1]]. *)
Definition valid_p (p : Q) : bool := Qle_bool 0 p && Qle_bool p 1.

(** [p] is the value of a double. *)
Definition is_float64 (p : Q) : bool := Qeq_bool (float64 p) p.

(** The state drawn by [Cell(p)] from one word of entropy, for a valid
    [p]: alive exactly when the uniform sample has reached [cdf0 p], the
    double that numpy computes from [1 - p]. *)
Definition draw (p : Q) (raw : Z) : Z :=
  if Qle_bool (cdf0 p) (random_sample raw) then 1 else 0.

(** The states drawn by [n] cells created in a row, the first one from
    draw number [k]. *)
Definition draws (p : Q) (rnd : nat -> Z) (k n : nat) : list Z :=
  map (fun t => draw p (rnd t)) (seq k n).

(** The array of a fresh board of [n] rows: the cells are created row by
    row in an empty store. *)
Definition fresh_grid (n : nat) : list (list loc) :=
  map (fun r => seq (r * n) n) (seq 0 n).

(** The board that the constructor builds before any initialisation mode
    runs. *)
Definition fresh_board (N : Z) (wraparound : bool) : Board.t :=
  Board.mk N wraparound (Board._create_blocks N wraparound 1)
    (Board._create_blocks N wraparound 0) (fresh_grid (Z.to_nat N)).

(** An entropy stream for examples: every word is [0]. *)
Definition zeros : nat -> Z := fun _ => 0.

(** [len(pattern[0])], for a pattern with a first row. *)
Definition pattern_width (pattern : list (list Z)) : Z :=
  match pattern with
  | [] => 0
  | row0 :: _ => Z.of_nat (length row0)
  end.

(** [(top, left)] is an odd-aligned origin at which the pattern, of height
    [len(pattern)] and width [len(pattern[0])], lies inside the grid. *)
Definition odd_origin_fits (N : Z) (pattern : list (list Z)) (top left : Z)
  : Prop :=
  Z.odd top = true /\ Z.odd left = true /\ 0 <= top /\ 0 <= left /\
  top + Z.of_nat (length pattern) <= N /\ left + pattern_width pattern <= N.

(** The value that a pattern stamped at [(top, left)] puts on position
    [(x, y)], if any. *)
Definition pattern_at (pattern : list (list Z)) (top left x y : Z) : option Z :=
  if (top <=? x) && (left <=? y) then
    row ← pattern !! Z.to_nat (x - top); row !! Z.to_nat (y - left)
  else None.

(** A generation of the engine over a given list of block origins:
    [GameManager.step] with the list made explicit. *)
Definition step_over (g : GameManager.t) (blocks : list (Z * Z)) (h : heap)
  : result (GameManager.t * heap) :=
  '(b, h') ← for_each blocks
     (fun ij s => Board.apply_block_rules s.1 ij.1 ij.2 s.2)
     (GameManager.board g, h);
  Ok (GameManager.mk (GameManager.N g) (GameManager.p g)
        (GameManager.max_steps g) (GameManager.wraparound g) b
        (GameManager.current_step g + 1), h').

(** The engines of the program: built by the constructor, then stepped. *)
Inductive reachable : GameManager.t -> heap -> Prop :=
| reach_init N p max_steps w gl mode rnd g h :
    GameManager.__init__ N p max_steps w gl mode rnd = Ok (g, h) ->
    reachable g h
| reach_step g h g' h' :
    reachable g h -> GameManager.step g h = Ok (g', h') -> reachable g' h'.

(** The two lists of a board are those that its constructor computed. *)
Definition lists_as_built (b : Board.t) : Prop :=
  Board.blocks_even b = Board._create_blocks (Board.N b) (Board.wraparound b) 1 /\
  Board.blocks_odd b = Board._create_blocks (Board.N b) (Board.wraparound b) 0.

(** The states shown after a call that returns an engine. *)
Definition shown (r : result (GameManager.t * heap)) : result (list (list Z)) :=
  '(g, h) ← r; Ok (Board.get_state_array (GameManager.board g) h).

(** A store of 16 alive cells. *)
Definition states_alive : heap := repeat 1 16.

(** Index normalisation as a position: the position that an index of a
    sequence of length [n] stands for, if any. *)
Definition norm (n : nat) (x : Z) : option Z :=
  if (0 <=? x) && (x <? Z.of_nat n) then Some x
  else if (- Z.of_nat n <=? x) && (x <? 0) then Some (x + Z.of_nat n)
  else None.

(** A 4x4 board with wraparound, as the constructor builds it: the cell
    object of position [(x, y)] has address [4 * x + y]. *)
Definition board4 : Board.t :=
  Board.mk 4 true (Board._create_blocks 4 true 1) (Board._create_blocks 4 true 0)
    [[0; 1; 2; 3]; [4; 5; 6; 7]; [8; 9; 10; 11]; [12; 13; 14; 15]]%nat.

(** Stores for [board4], given by the states of the cells row by row. *)
Definition states_1110 : heap :=
  concat [[1; 1; 0; 0]; [1; 0; 0; 0]; [0; 0; 0; 0]; [0; 0; 0; 0]].

Definition states_0110 : heap :=
  concat [[0; 1; 0; 0]; [1; 0; 0; 0]; [0; 0; 0; 0]; [0; 0; 0; 0]].

Definition states_1000 : heap :=
  concat [[1; 0; 0; 0]; [0; 0; 0; 0]; [0; 0; 0; 0]; [0; 0; 0; 0]].

(** Every value of a pattern is 0 or 1. *)
Definition binary_pattern (pattern : list (list Z)) : bool :=
  forallb binary pattern.

(** [apply_block_rules] called [n] times in a row on the same origin. *)
Fixpoint apply_times (n : nat) (b : Board.t) (i j : Z) (h : heap)
  : result (Board.t * heap) :=
  match n with
  | O => Ok (b, h)
  | S n' => s ← Board.apply_block_rules b i j h; apply_times n' s.1 i j s.2
  end.

(** The states shown at the four corners of a block: top-left, top-right,
    bottom-left, bottom-right. *)
Definition corners (b : Board.t) (h : heap) (i j : Z) : Z * Z * Z * Z :=
  let g := Board.grid b in
  let i1 := (i + 1) mod Board.N b in
  let j1 := (j + 1) mod Board.N b in
  (Cell.state (ref g i j) h, Cell.state (ref g i j1) h,
   Cell.state (ref g i1 j) h, Cell.state (ref g i1 j1) h).

(** What the rule does to the four states shown by a block. *)
Definition block_rule (t : Z * Z * Z * Z) : Z * Z * Z * Z :=
  let '(tl, tr, bl, br) := t in
  let d := tl + tr + bl + br in
  if d =? 2 then t
  else if (d =? 0) || (d =? 1) || (d =? 4) then
    (Z.lxor tl 1, Z.lxor tr 1, Z.lxor bl 1, Z.lxor br 1)
  else if d =? 3 then
    (Z.lxor br 1, Z.lxor bl 1, Z.lxor tr 1, Z.lxor tl 1)
  else t.

(** The square that [draw] makes for the cell at a position. *)
Definition square (g : GameManager.t) (h : heap) (offset_x : Z) (ij : Z * Z)
  : (Z * Z * Z) * (Z * Z * Z * Z) :=
  let cell_size := 560 / GameManager.N g in
  (if Cell.state (ref (Board.grid (GameManager.board g)) ij.1 ij.2) h =? 1
   then (0, 0, 0) else (255, 255, 255),
   (offset_x + ij.2 * cell_size, ij.1 * cell_size, cell_size, cell_size)).

(** The board and the store that [apply_block_rules] returns for a 2x2
    block: the array is rotated for density 3 only, and the four cells are
    flipped for every density but 2. *)
Definition rule_board (b : Board.t) (i j : Z) (h : heap) : Board.t :=
  if Board.density (block_refs (Board.grid b) (Board.N b) i j) h =? 3
  then Board.with_grid b (rotate (Board.grid b) (Board.N b) i j)
  else b.

Definition rule_heap (b : Board.t) (i j : Z) (h : heap) : heap :=
  let d := Board.density (block_refs (Board.grid b) (Board.N b) i j) h in
  if (d =? 0) || (d =? 1) || (d =? 3) || (d =? 4)
  then Board.flip_all (block_refs (Board.grid b) (Board.N b) i j) h
  else h.

(** The blocks of two origins share no cell. *)
Definition apart (N : Z) (o1 o2 : Z * Z) : Prop :=
  forall z, z ∈ Board.indices N o1.1 o1.2 -> z ∉ Board.indices N o2.1 o2.2.

(** [n] calls of [step()] in a row. *)
Fixpoint generations (n : nat) (g : GameManager.t) (h : heap)
  : result (GameManager.t * heap) :=
  match n with
  | O => Ok (g, h)
  | S n' => '(g', h') ← GameManager.step g h; generations n' g' h'
  end.

(** What [run_simulation] keeps true of its variables, for an engine of
    size [N], probability [p], step limit [limit] and wraparound flag
    [w]. *)
Definition in_limits (N : Z) (p : Q) (limit : Z) (w : bool)
  (s : Simulator.loop) : Prop :=
  let g := Simulator.game_manager s in
  reachable g (Simulator.store s) /\
  GameManager.N g = N /\ GameManager.p g = p /\
  GameManager.max_steps g = limit /\ GameManager.wraparound g = w /\
  0 <= GameManager.current_step g <= limit /\
  binary (Simulator.store s) = true /\
  (Simulator.running s = false -> GameManager.current_step g = limit).

(** An event that lacks an attribute that the loop reads of it. *)
Definition lacks_attribute (ev : Simulator.event) : Prop :=
  Simulator.type ev = Simulator.USEREVENT /\
  (Simulator.user_type ev = None \/
   (Simulator.user_type ev = Some Simulator.UI_BUTTON_PRESSED /\
    Simulator.ui_element ev = None)).

(** Presses of the play/pause button and of the reset button, as
    [pygame_gui] posts them. *)
Definition press_play_pause : Simulator.event :=
  Simulator.mk_event Simulator.USEREVENT (Some Simulator.UI_BUTTON_PRESSED)
    (Some Simulator.play_pause_button) zeros.

Definition press_reset (rnd : nat -> Z) : Simulator.event :=
  Simulator.mk_event Simulator.USEREVENT (Some Simulator.UI_BUTTON_PRESSED)
    (Some Simulator.reset_button) rnd.

(** An event of another type, a mouse motion for instance. *)
Definition other_event : Simulator.event :=
  Simulator.mk_event Simulator.OTHER_TYPE None None zeros.

(** The number of alive cells that a snapshot shows: the sum of the
    entries of [get_state_array]. *)
Definition population (b : Board.t) (h : heap) : Z :=
  foldr Z.add 0 (concat (Board.get_state_array b h)).

Arguments Board.flip_all : simpl never.
Arguments block_refs : simpl never.
Arguments rotate : simpl never.

(** * Properties *)

(** ** The runtime *)

Lemma bind_Ok {A B} (m : result A) (f : A -> result B) (y : B) :
  m ≫= f = Ok y <-> exists x, m = Ok x /\ f x = Ok y.
Proof.
  destruct m as [a|e]; simpl; split.
  - intros H. exists a. auto.
  - intros (x & [= <-] & H). exact H.
  - discriminate.
  - intros (x & [=] & _).
Qed.

Lemma py_index_in_range (len : nat) (x : Z) :
  0 <= x < Z.of_nat len -> py_index len x = Ok (Z.to_nat x).
Proof.
  intros H. unfold py_index.
  destruct (Z.leb_spec 0 x), (Z.ltb_spec x (Z.of_nat len)); simpl; auto; lia.
Qed.

Lemma elem_of_py_range (start stop step x : Z) :
  0 < step ->
  x ∈ py_range start stop step <->
  start <= x < stop /\ (x - start) mod step = 0.
Proof.
  intros Hstep. unfold py_range. rewrite list_elem_of_fmap. split.
  - intros (k & -> & Hk). apply list_elem_of_In, in_seq in Hk.
    assert (Hk' : Z.of_nat k < (stop - start + step - 1) / step) by lia.
    assert (step * Z.of_nat k < stop - start).
    { pose proof (Z.mul_div_le (stop - start + step - 1) step Hstep). nia. }
    split; [nia|].
    replace (start + step * Z.of_nat k - start) with (Z.of_nat k * step) by lia.
    apply Z.mod_mul. lia.
  - intros [Hx Hm]. apply Z.mod_divide in Hm; [|lia].
    destruct Hm as [q Hq]. exists (Z.to_nat q).
    assert (0 <= q) by nia.
    split; [rewrite Z2Nat.id by lia; lia|].
    apply list_elem_of_In, in_seq.
    assert (q + 1 <= (stop - start + step - 1) / step); [|lia].
    apply Z.div_le_lower_bound; nia.
Qed.

Lemma NoDup_py_range (start stop step : Z) :
  0 < step -> NoDup (py_range start stop step).
Proof.
  intros Hstep. unfold py_range. apply NoDup_fmap_2.
  - intros a b Hab. nia.
  - apply NoDup_ListNoDup, seq_NoDup.
Qed.

Lemma for_each_app {A S} (l1 l2 : list A) (body : A -> S -> result S) (s : S) :
  for_each (l1 ++ l2) body s = s' ← for_each l1 body s; for_each l2 body s'.
Proof.
  revert s. induction l1 as [|x l1 IH]; intros s; simpl; [reflexivity|].
  destruct (body x s); simpl; auto.
Qed.

(** A loop whose body keeps an invariant and never raises runs to its end
    and keeps the invariant. *)
Lemma for_each_invariant {A S} (P : S -> Prop) (Q : A -> Prop)
  (l : list A) (body : A -> S -> result S) (s : S) :
  (forall x s, x ∈ l -> Q x -> P s -> exists s', body x s = Ok s' /\ P s') ->
  Forall Q l -> P s ->
  exists s', for_each l body s = Ok s' /\ P s'.
Proof.
  revert s. induction l as [|x l IH]; intros s Hbody HQ HP; simpl.
  - eauto.
  - inversion HQ; subst.
    destruct (Hbody x s) as (s1 & -> & HP1); [left|assumption..|]. simpl.
    apply IH; auto. intros y t Hy. apply Hbody. right. exact Hy.
Qed.

(** ** The block partition *)

Lemma elem_of_create_blocks (N : Z) (w : bool) (start i j : Z) :
  (i, j) ∈ Board._create_blocks N w start <->
  i ∈ py_range start N 2 /\ j ∈ py_range start N 2 /\
  (w = true \/ (i + 1 < N /\ j + 1 < N)).
Proof.
  unfold Board._create_blocks. rewrite list_elem_of_bind. split.
  - intros (i' & Hin & Hi'). apply list_elem_of_bind in Hin.
    destruct Hin as (j' & Hin & Hj').
    destruct w; simpl in Hin.
    + apply list_elem_of_singleton in Hin. injection Hin as -> ->.
      repeat split; auto.
    + destruct (Z.ltb_spec (i' + 1) N), (Z.ltb_spec (j' + 1) N); simpl in Hin;
        try solve [inversion Hin].
      apply list_elem_of_singleton in Hin. injection Hin as -> ->.
      repeat split; auto.
  - intros (Hi & Hj & Hw). exists i. split; [|exact Hi].
    apply list_elem_of_bind. exists j. split; [|exact Hj].
    destruct Hw as [->|[Hi1 Hj1]]; simpl; [apply list_elem_of_singleton; auto|].
    destruct w; simpl; [apply list_elem_of_singleton; auto|].
    destruct (Z.ltb_spec (i + 1) N), (Z.ltb_spec (j + 1) N); simpl; try lia.
    apply list_elem_of_singleton; auto.
Qed.

Lemma NoDup_create_blocks (N : Z) (w : bool) (start : Z) :
  NoDup (Board._create_blocks N w start).
Proof.
  unfold Board._create_blocks.
  assert (Hsub : forall (c : bool) (x y : Z) (o : Z * Z),
             o ∈ (if c then [(x, y)] else []) -> o = (x, y)).
  { intros [] x y o Ho; [apply list_elem_of_singleton in Ho; auto|].
    inversion Ho. }
  apply NoDup_bind; [| |apply NoDup_py_range; lia].
  - intros i1 i2 o _ _ H1 H2.
    apply list_elem_of_bind in H1, H2.
    destruct H1 as (j1 & H1 & _), H2 as (j2 & H2 & _).
    apply Hsub in H1, H2. congruence.
  - intros i _. apply NoDup_bind; [| |apply NoDup_py_range; lia].
    + intros j1 j2 o _ _ H1 H2. apply Hsub in H1, H2. congruence.
    + intros j _. destruct (_ || _); [apply NoDup_singleton|apply NoDup_nil_2].
Qed.

Lemma succ_mod (N i : Z) :
  0 <= i < N -> (i + 1) mod N = if i + 1 <? N then i + 1 else 0.
Proof.
  intros H. destruct (Z.ltb_spec (i + 1) N).
  - apply Z.mod_small. lia.
  - replace (i + 1) with N by lia. apply Z.mod_same. lia.
Qed.

Lemma elem_of_indices (N i j x y : Z) :
  (x, y) ∈ Board.indices N i j <->
  (x = i \/ x = (i + 1) mod N) /\ (y = j \/ y = (j + 1) mod N).
Proof.
  unfold Board.indices. rewrite !elem_of_cons, elem_of_nil.
  split.
  - intros [H|[H|[H|[H|[]]]]]; injection H as -> ->; auto.
  - intros [[->| ->] [->| ->]]; auto.
Qed.

(** One dimension of the tiling: with [N] even, every coordinate lies in
    the two-cell strip of exactly one origin of [range(start, N, 2)]. *)
Lemma strip_unique (N start x : Z) :
  Z.even N = true -> start = 0 \/ start = 1 -> 0 <= x < N ->
  exists i, (i ∈ py_range start N 2 /\ (x = i \/ x = (i + 1) mod N)) /\
    forall i', i' ∈ py_range start N 2 -> x = i' \/ x = (i' + 1) mod N -> i' = i.
Proof.
  intros HN Hs Hx.
  apply Z.even_spec in HN. destruct HN as [k Hk].
  set (i := if (x - start) mod 2 =? 0 then x
            else if x =? 0 then N - 1 else x - 1).
  assert (Hi : i ∈ py_range start N 2 /\ (x = i \/ x = (i + 1) mod N)).
  { subst i. rewrite elem_of_py_range by lia.
    destruct (Z.eqb_spec ((x - start) mod 2) 0) as [E|E].
    - split; [|auto]. destruct Hs as [-> | ->]; [lia|].
      split; [|exact E]. destruct (Z.eq_dec x 0) as [->|]; [discriminate E|lia].
    - destruct (Z.eqb_spec x 0) as [->|Hx0].
      + destruct Hs as [-> | ->]; [exfalso; apply E; reflexivity|].
        split; [|right; replace (N - 1 + 1) with N by lia;
                 symmetry; apply Z.mod_same; lia].
        split; [lia|]. replace (N - 1 - 1) with ((k - 1) * 2) by lia.
        apply Z.mod_mul. lia.
      + assert (Hm : (x - start) mod 2 = 1).
        { pose proof (Z.mod_pos_bound (x - start) 2). lia. }
        split; [|right; rewrite Z.mod_small; lia].
        assert ((x - 1 - start) mod 2 = 0).
        { replace (x - 1 - start) with ((x - start) - 1) by lia.
          rewrite Zminus_mod, Hm. reflexivity. }
        split; [|assumption]. destruct Hs as [-> | ->]; [lia|].
        split; [|lia]. destruct (Z.eq_dec x 1) as [->|]; [|lia].
        exfalso. apply E. reflexivity. }
  exists i. split; [exact Hi|].
  intros i' Hi' Hx'. destruct Hi as [Hi Hxi].
  apply elem_of_py_range in Hi, Hi'; try lia.
  destruct Hi as [Hri Hmi], Hi' as [Hri' Hmi'].
  rewrite succ_mod in Hxi, Hx' by lia.
  apply Z.mod_divide in Hmi, Hmi'; try lia.
  destruct Hmi as [q Hq], Hmi' as [q' Hq'].
  destruct (Z.ltb_spec (i + 1) N), (Z.ltb_spec (i' + 1) N); lia.
Qed.

Lemma elem_of_all_cells (N x y : Z) :
  (x, y) ∈ all_cells N <-> 0 <= x < N /\ 0 <= y < N.
Proof.
  unfold all_cells. rewrite list_elem_of_bind. split.
  - intros (x' & H & Hx'). apply list_elem_of_bind in H.
    destruct H as (y' & H & Hy'). apply list_elem_of_singleton in H.
    injection H as -> ->.
    apply elem_of_py_range in Hx', Hy'; lia.
  - intros [Hx Hy]. exists x. split.
    + apply list_elem_of_bind. exists y. split; [apply list_elem_of_singleton; auto|].
      apply elem_of_py_range; [lia|]. rewrite Z.mod_1_r. lia.
    + apply elem_of_py_range; [lia|]. rewrite Z.mod_1_r. lia.
Qed.

Lemma NoDup_all_cells (N : Z) : NoDup (all_cells N).
Proof.
  unfold all_cells. apply NoDup_bind; [| |apply NoDup_py_range; lia].
  - intros x1 x2 o _ _ H1 H2. apply list_elem_of_bind in H1, H2.
    destruct H1 as (y1 & H1 & _), H2 as (y2 & H2 & _).
    apply list_elem_of_singleton in H1, H2. congruence.
  - intros x _. apply NoDup_bind; [| |apply NoDup_py_range; lia].
    + intros y1 y2 o _ _ H1 H2. apply list_elem_of_singleton in H1, H2.
      congruence.
    + intros y _. apply NoDup_singleton.
Qed.

(** The four cells of a block of a grid with at least two rows are in the
    grid and pairwise distinct. *)
Lemma indices_in_grid (N i j x y : Z) :
  0 <= i < N -> 0 <= j < N -> (x, y) ∈ Board.indices N i j ->
  0 <= x < N /\ 0 <= y < N.
Proof.
  intros Hi Hj H. apply elem_of_indices in H.
  pose proof (Z.mod_pos_bound (i + 1) N).
  pose proof (Z.mod_pos_bound (j + 1) N).
  destruct H as [[->| ->] [->| ->]]; lia.
Qed.

Lemma succ_mod_neq (N i : Z) : 2 <= N -> 0 <= i < N -> (i + 1) mod N <> i.
Proof.
  intros HN Hi. rewrite succ_mod by lia.
  destruct (Z.ltb_spec (i + 1) N); lia.
Qed.

Lemma NoDup_indices (N i j : Z) :
  2 <= N -> 0 <= i < N -> 0 <= j < N -> NoDup (Board.indices N i j).
Proof.
  intros HN Hi Hj.
  pose proof (succ_mod_neq N i HN Hi). pose proof (succ_mod_neq N j HN Hj).
  unfold Board.indices.
  repeat (apply NoDup_cons; split;
          [rewrite ?elem_of_cons, elem_of_nil; intros H';
           repeat (destruct H' as [H'|H']; [congruence|]); exact H'|]).
  apply NoDup_nil_2.
Qed.

(** C5.  With [N] even and wraparound on, each of the two lists of block
    origins (built with [start = 0] and with [start = 1]) is a tiling of the
    grid: the list has no repeated origin, every cell of the grid lies in
    the block of exactly one origin, and the cells of all the blocks, taken
    together, are the [N * N] cells of the grid, each once. *)
Theorem tiling_partitions_grid (N start : Z) :
  Z.even N = true -> start = 0 \/ start = 1 ->
  let blocks := Board._create_blocks N true start in
  NoDup blocks /\
  (forall x y, 0 <= x < N -> 0 <= y < N ->
     exists o, (o ∈ blocks /\ (x, y) ∈ Board.indices N o.1 o.2) /\
       forall o', o' ∈ blocks -> (x, y) ∈ Board.indices N o'.1 o'.2 -> o' = o) /\
  (blocks ≫= (fun o => Board.indices N o.1 o.2)) ≡ₚ all_cells N.
Proof.
  intros HN Hs blocks.
  assert (Hone : forall x y, 0 <= x < N -> 0 <= y < N ->
     exists o, (o ∈ blocks /\ (x, y) ∈ Board.indices N o.1 o.2) /\
       forall o', o' ∈ blocks -> (x, y) ∈ Board.indices N o'.1 o'.2 -> o' = o).
  { intros x y Hx Hy.
    destruct (strip_unique N start x HN Hs Hx) as (i & [Hi Hxi] & Hui).
    destruct (strip_unique N start y HN Hs Hy) as (j & [Hj Hyj] & Huj).
    exists (i, j). split.
    - split; [apply elem_of_create_blocks; auto|].
      apply elem_of_indices. auto.
    - intros [i' j'] Ho' Hc. apply elem_of_create_blocks in Ho'.
      destruct Ho' as (Hi' & Hj' & _). apply elem_of_indices in Hc.
      destruct Hc as [Hxi' Hyj']. simpl in *.
      rewrite (Hui i' Hi' Hxi'), (Huj j' Hj' Hyj'). reflexivity. }
  assert (Hrange : forall o, o ∈ blocks -> 2 <= N /\ 0 <= o.1 < N /\ 0 <= o.2 < N).
  { intros [i j] Ho. apply elem_of_create_blocks in Ho.
    destruct Ho as (Hi & Hj & _).
    apply elem_of_py_range in Hi, Hj; try lia.
    apply Z.even_spec in HN. destruct HN as [k Hk]. simpl. lia. }
  split; [apply NoDup_create_blocks|]. split; [exact Hone|].
  apply NoDup_Permutation.
  - apply NoDup_bind; [| |apply NoDup_create_blocks].
    + intros o1 o2 [x y] Ho1 Ho2 H1 H2.
      destruct (Hrange o1 Ho1) as (_ & Hi & Hj).
      destruct (indices_in_grid _ _ _ _ _ Hi Hj H1) as [Hx Hy].
      destruct (Hone x y Hx Hy) as (o & _ & Hu).
      rewrite (Hu o1 Ho1 H1), (Hu o2 Ho2 H2). reflexivity.
    + intros o Ho. destruct (Hrange o Ho) as (? & ? & ?).
      apply NoDup_indices; assumption.
  - apply NoDup_all_cells.
  - intros [x y]. rewrite list_elem_of_bind, elem_of_all_cells. split.
    + intros (o & Hc & Ho). destruct (Hrange o Ho) as (_ & Hi & Hj).
      exact (indices_in_grid _ _ _ _ _ Hi Hj Hc).
    + intros [Hx Hy]. destruct (Hone x y Hx Hy) as (o & [Ho Hc] & _).
      exists o. auto.
Qed.

Lemma tiling_partitions_grid_witness :
  let blocks := Board._create_blocks 4 true 1 in
  NoDup blocks /\
  (forall x y, 0 <= x < 4 -> 0 <= y < 4 ->
     exists o, (o ∈ blocks /\ (x, y) ∈ Board.indices 4 o.1 o.2) /\
       forall o', o' ∈ blocks -> (x, y) ∈ Board.indices 4 o'.1 o'.2 -> o' = o) /\
  (blocks ≫= (fun o => Board.indices 4 o.1 o.2)) ≡ₚ all_cells 4.
Proof. apply (tiling_partitions_grid 4 1); [reflexivity | right; reflexivity]. Defined.

(** C6.  Without wraparound, every origin of a list of block origins has
    its whole block inside the grid, so the guard of [apply_block_rules] is
    false for it. *)
Theorem origins_inside_without_wraparound (N start i j : Z) :
  (i, j) ∈ Board._create_blocks N false start ->
  i + 1 < N /\ j + 1 < N /\ Board.past_edge N false i j = false.
Proof.
  intros H. apply elem_of_create_blocks in H.
  destruct H as (_ & _ & [H|[Hi Hj]]); [discriminate H|].
  split; [exact Hi|]. split; [exact Hj|].
  unfold Board.past_edge. simpl.
  destruct (Z.leb_spec N (i + 1)), (Z.leb_spec N (j + 1)); simpl; lia.
Qed.

Lemma origins_inside_without_wraparound_witness :
  (1, 3) ∈ Board._create_blocks 6 false 1 /\
  (1 + 1 < 6 /\ 3 + 1 < 6 /\ Board.past_edge 6 false 1 3 = false).
Proof.
  assert (H : (1, 3) ∈ Board._create_blocks 6 false 1).
  { vm_compute. right. left. }
  split; [exact H|]. apply (origins_inside_without_wraparound 6 1 1 3 H).
Defined.

(** ** The object array *)

Section Grid.
Context (n : nat) (g : list (list loc)) (Hd : dims n g).

Lemma dims_row (x : Z) :
  0 <= x < Z.of_nat n ->
  g !! Z.to_nat x = Some (g !!! Z.to_nat x) /\
  length (g !!! Z.to_nat x) = n.
Proof.
  intros Hx. destruct Hd as [Hlen Hrows].
  assert (Hsome : g !! Z.to_nat x = Some (g !!! Z.to_nat x)).
  { apply list_lookup_lookup_total_lt. lia. }
  split; [exact Hsome|]. apply Hrows.
  apply list_elem_of_lookup. eauto.
Qed.

Lemma getitem2_ref (x y : Z) :
  0 <= x < Z.of_nat n -> 0 <= y < Z.of_nat n ->
  getitem2 g x y = Ok (ref g x y).
Proof.
  intros Hx Hy. destruct (dims_row x Hx) as [Hrow Hlen].
  unfold getitem2, ref. destruct Hd as [Hg _].
  rewrite py_index_in_range by lia. simpl. rewrite Hrow.
  rewrite py_index_in_range by lia. simpl.
  rewrite list_lookup_lookup_total_lt by lia. reflexivity.
Qed.

Lemma setitem2_upd (x y : Z) (v : loc) :
  0 <= x < Z.of_nat n -> 0 <= y < Z.of_nat n ->
  setitem2 g x y v = Ok (upd g x y v).
Proof.
  intros Hx Hy. destruct (dims_row x Hx) as [Hrow Hlen].
  unfold setitem2, upd. destruct Hd as [Hg _].
  rewrite py_index_in_range by lia. simpl. rewrite Hrow.
  rewrite py_index_in_range by lia. reflexivity.
Qed.

Lemma dims_upd (x y : Z) (v : loc) : dims n (upd g x y v).
Proof.
  destruct Hd as [Hg Hrows]. unfold upd. split.
  - rewrite length_insert. exact Hg.
  - intros row Hin. apply list_elem_of_lookup in Hin. destruct Hin as [k Hk].
    destruct (decide (Z.to_nat x = k)) as [<-|Hne].
    + destruct (decide (Z.to_nat x < length g)%nat) as [Hlt|Hge].
      * rewrite list_lookup_insert_eq in Hk by exact Hlt.
        injection Hk as <-. rewrite length_insert.
        apply Hrows. apply list_elem_of_lookup. exists (Z.to_nat x).
        apply list_lookup_lookup_total_lt. exact Hlt.
      * rewrite list_insert_ge in Hk by lia.
        apply Hrows. apply list_elem_of_lookup. eauto.
    + rewrite list_lookup_insert_ne in Hk by exact Hne.
      apply Hrows. apply list_elem_of_lookup. eauto.
Qed.

Lemma ref_upd_eq (x y : Z) (v : loc) :
  0 <= x < Z.of_nat n -> 0 <= y < Z.of_nat n -> ref (upd g x y v) x y = v.
Proof.
  intros Hx Hy. destruct (dims_row x Hx) as [Hrow Hlen].
  destruct Hd as [Hg _]. unfold ref, upd.
  rewrite list_lookup_total_insert_eq by lia.
  rewrite list_lookup_total_insert_eq by lia. reflexivity.
Qed.

Lemma ref_upd_ne (x y x' y' : Z) (v : loc) :
  0 <= x -> 0 <= y -> 0 <= x' -> 0 <= y' ->
  (x, y) <> (x', y') -> ref (upd g x y v) x' y' = ref g x' y'.
Proof.
  intros Hx Hy Hx' Hy' Hne. unfold ref, upd.
  destruct (decide (Z.to_nat x = Z.to_nat x')) as [E|E].
  - assert (x = x') by lia. subst x'.
    assert (Z.to_nat y <> Z.to_nat y') by (intros E'; apply Hne; f_equal; lia).
    rewrite list_lookup_total_insert.
    destruct (decide _); [|reflexivity].
    rewrite list_lookup_total_insert_ne by assumption. reflexivity.
  - rewrite list_lookup_total_insert_ne by exact E. reflexivity.
Qed.

End Grid.

Lemma swap_items_swap (n : nat) (g : list (list loc)) (x1 y1 x2 y2 : Z) :
  dims n g ->
  0 <= x1 < Z.of_nat n -> 0 <= y1 < Z.of_nat n ->
  0 <= x2 < Z.of_nat n -> 0 <= y2 < Z.of_nat n ->
  Board.swap_items g x1 y1 x2 y2 = Ok (swap g x1 y1 x2 y2).
Proof.
  intros Hd H1 H2 H3 H4. unfold Board.swap_items, swap.
  rewrite !(getitem2_ref n g Hd) by assumption. simpl.
  rewrite (setitem2_upd n g Hd) by assumption. simpl.
  apply (setitem2_upd n); [apply dims_upd; exact Hd|assumption..].
Qed.

Lemma dims_swap (n : nat) (g : list (list loc)) (x1 y1 x2 y2 : Z) :
  dims n g -> dims n (swap g x1 y1 x2 y2).
Proof. intros Hd. unfold swap. do 2 apply dims_upd. exact Hd. Qed.

Lemma ref_swap (n : nat) (g : list (list loc)) (x1 y1 x2 y2 x y : Z) :
  dims n g ->
  0 <= x1 < Z.of_nat n -> 0 <= y1 < Z.of_nat n ->
  0 <= x2 < Z.of_nat n -> 0 <= y2 < Z.of_nat n ->
  0 <= x -> 0 <= y ->
  ref (swap g x1 y1 x2 y2) x y =
    if decide ((x, y) = (x2, y2)) then ref g x1 y1
    else if decide ((x, y) = (x1, y1)) then ref g x2 y2
    else ref g x y.
Proof.
  intros Hd H1 H2 H3 H4 Hx Hy. unfold swap.
  destruct (decide ((x, y) = (x2, y2))) as [E|E].
  - injection E as -> ->.
    apply (ref_upd_eq n); [apply dims_upd; exact Hd|assumption..].
  - rewrite ref_upd_ne by (try lia; congruence).
    destruct (decide ((x, y) = (x1, y1))) as [E'|E'].
    + injection E' as -> ->. apply (ref_upd_eq n); assumption.
    + apply ref_upd_ne; try lia; congruence.
Qed.

(** ** The block rule *)

Lemma is_block_spec (b : Board.t) (i j : Z) :
  is_block b i j = true <->
  0 <= i < Board.N b /\ 0 <= j < Board.N b /\ 2 <= Board.N b /\
  (Board.wraparound b = true \/ (i + 1 < Board.N b /\ j + 1 < Board.N b)).
Proof.
  unfold is_block.
  rewrite !andb_true_iff, orb_true_iff, andb_true_iff,
    !Z.leb_le, !Z.ltb_lt. tauto.
Qed.

Lemma is_block_not_past_edge (b : Board.t) (i j : Z) :
  is_block b i j = true ->
  Board.past_edge (Board.N b) (Board.wraparound b) i j = false.
Proof.
  intros H. apply is_block_spec in H. destruct H as (_ & _ & _ & H).
  unfold Board.past_edge. destruct H as [-> | [Hi Hj]]; [reflexivity|].
  destruct (Z.leb_spec (Board.N b) (i + 1)), (Z.leb_spec (Board.N b) (j + 1));
    try lia; apply andb_false_r.
Qed.

(** The corners of a block are four different positions of the grid. *)
Lemma block_corners (b : Board.t) (i j : Z) :
  is_block b i j = true ->
  let i1 := (i + 1) mod Board.N b in
  let j1 := (j + 1) mod Board.N b in
  0 <= i < Board.N b /\ 0 <= j < Board.N b /\
  0 <= i1 < Board.N b /\ 0 <= j1 < Board.N b /\ i1 <> i /\ j1 <> j.
Proof.
  intros H i1 j1. apply is_block_spec in H. destruct H as (Hi & Hj & HN & _).
  pose proof (Z.mod_pos_bound (i + 1) (Board.N b)).
  pose proof (Z.mod_pos_bound (j + 1) (Board.N b)).
  pose proof (succ_mod_neq _ _ HN Hi). pose proof (succ_mod_neq _ _ HN Hj).
  subst i1 j1. repeat split; try lia; assumption.
Qed.

Lemma block_density_refs (b : Board.t) (h : heap) (i j : Z) :
  WF b h -> is_block b i j = true ->
  block_density b h i j =
    Ok (Board.density (block_refs (Board.grid b) (Board.N b) i j) h).
Proof.
  intros [Hd _ _] Hb.
  destruct (block_corners b i j Hb) as (Hi & Hj & Hi1 & Hj1 & _).
  unfold block_density, Board.indices. simpl.
  rewrite !(getitem2_ref _ _ Hd) by lia. reflexivity.
Qed.

(** What [apply_block_rules] returns for a block, case by case. *)
Lemma apply_block_rules_block (b : Board.t) (h : heap) (i j : Z) :
  WF b h -> is_block b i j = true ->
  let cells := block_refs (Board.grid b) (Board.N b) i j in
  let d := Board.density cells h in
  Board.apply_block_rules b i j h =
    Ok (if d =? 2 then (b, h)
        else if (d =? 0) || (d =? 1) || (d =? 4) then
          (b, Board.flip_all cells h)
        else if d =? 3 then
          (Board.with_grid b (rotate (Board.grid b) (Board.N b) i j),
           Board.flip_all cells h)
        else (b, h)).
Proof.
  intros [Hd _ _] Hb cells d.
  destruct (block_corners b i j Hb) as (Hi & Hj & Hi1 & Hj1 & _).
  unfold Board.apply_block_rules.
  rewrite (is_block_not_past_edge b i j Hb).
  destruct (Z.eqb_spec (Board.N b) 0) as [E|_]; [lia|].
  unfold Board.indices. simpl.
  rewrite !(getitem2_ref _ _ Hd) by lia. simpl.
  fold (block_refs (Board.grid b) (Board.N b) i j). fold cells. fold d.
  destruct (d =? 2); [reflexivity|].
  destruct ((d =? 0) || (d =? 1) || (d =? 4)); [reflexivity|].
  destruct (d =? 3); [|reflexivity].
  rewrite (swap_items_swap _ _ _ _ _ _ Hd) by lia. simpl.
  rewrite (swap_items_swap (Z.to_nat (Board.N b))) by (try apply dims_swap; try lia; exact Hd).
  reflexivity.
Qed.

Lemma ref_rotate (b : Board.t) (i j x y : Z) :
  dims (Z.to_nat (Board.N b)) (Board.grid b) -> is_block b i j = true ->
  0 <= x -> 0 <= y ->
  ref (rotate (Board.grid b) (Board.N b) i j) x y =
    ref (Board.grid b) (rot (Board.N b) i j (x, y)).1
                       (rot (Board.N b) i j (x, y)).2.
Proof.
  intros Hd Hb Hx Hy.
  destruct (block_corners b i j Hb) as (Hi & Hj & Hi1 & Hj1 & Hni & Hnj).
  unfold rotate, rot.
  rewrite (ref_swap (Z.to_nat (Board.N b))) by (try apply dims_swap; try lia; exact Hd).
  rewrite !(ref_swap (Z.to_nat (Board.N b))) by (try lia; exact Hd).
  repeat case_decide; simplify_eq; simpl; try reflexivity; congruence.
Qed.

Lemma rot_involutive (N i j : Z) (z : Z * Z) :
  (i + 1) mod N <> i -> (j + 1) mod N <> j ->
  rot N i j (rot N i j z) = z.
Proof.
  intros Hi Hj. unfold rot.
  repeat case_decide; simplify_eq; try reflexivity; congruence.
Qed.

Lemma rot_in_grid (b : Board.t) (i j x y : Z) :
  is_block b i j = true ->
  0 <= x < Board.N b -> 0 <= y < Board.N b ->
  0 <= (rot (Board.N b) i j (x, y)).1 < Board.N b /\
  0 <= (rot (Board.N b) i j (x, y)).2 < Board.N b.
Proof.
  intros Hb Hx Hy.
  destruct (block_corners b i j Hb) as (Hi & Hj & Hi1 & Hj1 & _).
  unfold rot. repeat case_decide; simpl; lia.
Qed.

Lemma rot_outside (N i j x y : Z) :
  (x, y) ∉ Board.indices N i j -> rot N i j (x, y) = (x, y).
Proof.
  intros Hout. unfold rot.
  repeat case_decide; try reflexivity; exfalso; apply Hout;
    apply elem_of_indices; simplify_eq; auto.
Qed.

(** ** Flipping the cells of a block *)

Lemma flip_all_cons (c : loc) (cells : list loc) (h : heap) :
  Board.flip_all (c :: cells) h = Board.flip_all cells (Cell.flip c h).
Proof. reflexivity. Qed.

Lemma length_flip_all (cells : list loc) (h : heap) :
  length (Board.flip_all cells h) = length h.
Proof.
  revert h. induction cells as [|c cells IH]; intros h; [reflexivity|].
  rewrite flip_all_cons, IH. apply length_alter.
Qed.

Lemma state_flip_all (cells : list loc) (h : heap) (c : loc) :
  NoDup cells -> (forall c', c' ∈ cells -> (c' < length h)%nat) ->
  Cell.state c (Board.flip_all cells h) =
    if decide (c ∈ cells) then Z.lxor (Cell.state c h) 1 else Cell.state c h.
Proof.
  revert h. induction cells as [|c0 cells IH]; intros h Hnd Hlt.
  - reflexivity.
  - apply NoDup_cons in Hnd. destruct Hnd as [Hc0 Hnd].
    rewrite flip_all_cons, IH; [|exact Hnd|].
    2:{ intros c' Hc'. unfold Cell.flip. rewrite length_alter.
        apply Hlt. right. exact Hc'. }
    unfold Cell.state, Cell.flip.
    destruct (decide (c = c0)) as [->|Hne].
    + rewrite decide_False by exact Hc0.
      rewrite decide_True by left.
      apply (list_lookup_total_alter_eq (fun s => Z.lxor s 1)). apply Hlt. left.
    + rewrite list_lookup_total_alter_ne by congruence.
      destruct (decide (c ∈ cells)) as [Hin|Hout].
      * rewrite decide_True by (right; exact Hin). reflexivity.
      * rewrite decide_False; [reflexivity|].
        intros H. apply elem_of_cons in H. tauto.
Qed.

Lemma binary_state (h : heap) (c : loc) :
  binary h = true -> (c < length h)%nat ->
  Cell.state c h = 0 \/ Cell.state c h = 1.
Proof.
  intros Hb Hc. unfold binary in Hb. rewrite forallb_forall in Hb.
  assert (Hin : In (Cell.state c h) h).
  { apply list_elem_of_In. unfold Cell.state.
    apply list_elem_of_lookup_total. eauto. }
  specialize (Hb _ Hin). apply orb_true_iff in Hb.
  rewrite !Z.eqb_eq in Hb. exact Hb.
Qed.

Lemma lxor_complement (s : Z) : s = 0 \/ s = 1 -> Z.lxor s 1 = complement s.
Proof. intros [-> | ->]; reflexivity. Qed.

(** ** The board invariant *)

Lemma distinct_NoDup (l : list loc) : distinct l = true -> NoDup l.
Proof.
  induction l as [|x l IH]; simpl; intros H; [apply NoDup_nil_2|].
  apply andb_true_iff in H. destruct H as [Hx Hl].
  apply NoDup_cons. split; [|apply IH; exact Hl].
  intros Hin. apply negb_true_iff in Hx.
  assert (existsb (Nat.eqb x) l = true); [|congruence].
  apply existsb_exists. exists x. split; [apply list_elem_of_In; exact Hin|].
  apply Nat.eqb_refl.
Qed.

Lemma lookup_concat_grid (n : nat) (g : list (list loc)) (X Y : nat) :
  (forall row, row ∈ g -> length row = n) ->
  (X < length g)%nat -> (Y < n)%nat ->
  concat g !! (X * n + Y)%nat = Some ((g !!! X) !!! Y).
Proof.
  revert X. induction g as [|row g IH]; intros X Hrows HX HY; simpl in *; [lia|].
  assert (Hrow : length row = n) by (apply Hrows; left).
  destruct X as [|X]; simpl.
  - rewrite lookup_app_l by lia. apply list_lookup_lookup_total_lt. lia.
  - rewrite lookup_app_r by lia.
    replace (n + X * n + Y - length row)%nat with (X * n + Y)%nat by lia.
    apply IH; [|lia|exact HY]. intros r Hr. apply Hrows. right. exact Hr.
Qed.

Lemma row_major_inj (n a c a' c' : nat) :
  (c < n)%nat -> (c' < n)%nat -> (a * n + c = a' * n + c')%nat ->
  a = a' /\ c = c'.
Proof.
  intros Hc Hc' E.
  destruct (Nat.lt_trichotomy a a') as [H|[H|H]].
  - exfalso. assert (a * n + n <= a' * n)%nat by nia. lia.
  - subst a'. lia.
  - exfalso. assert (a' * n + n <= a * n)%nat by nia. lia.
Qed.

Lemma well_formed_WF (b : Board.t) (h : heap) :
  well_formed b h = true -> WF b h.
Proof.
  unfold well_formed. rewrite !andb_true_iff.
  intros [[[Hlen Hrows] Hdis] Hall].
  apply Nat.eqb_eq in Hlen. rewrite forallb_forall in Hrows, Hall.
  apply distinct_NoDup in Hdis.
  assert (Hrows' : forall row, row ∈ Board.grid b ->
                     length row = Z.to_nat (Board.N b)).
  { intros row Hin. apply Nat.eqb_eq, Hrows, list_elem_of_In, Hin. }
  assert (Hlook : forall x y, 0 <= x < Board.N b -> 0 <= y < Board.N b ->
    concat (Board.grid b) !! (Z.to_nat x * Z.to_nat (Board.N b) + Z.to_nat y)%nat
    = Some (ref (Board.grid b) x y)).
  { intros x y Hx Hy. apply lookup_concat_grid; [exact Hrows'|lia..]. }
  split.
  - split; assumption.
  - intros x y x' y' Hx Hy Hx' Hy' E.
    pose proof (Hlook x y Hx Hy) as H1. pose proof (Hlook x' y' Hx' Hy') as H2.
    rewrite <- E in H2.
    pose proof (NoDup_lookup _ _ _ _ Hdis H1 H2) as Heq.
    apply row_major_inj in Heq; lia.
  - intros x y Hx Hy. apply Nat.ltb_lt, Hall, list_elem_of_In.
    apply list_elem_of_lookup. eexists. apply Hlook; assumption.
Qed.

Section Block.
Context (b : Board.t) (h : heap) (i j : Z).
Context (Hwf : WF b h) (Hb : is_block b i j = true).

Local Abbreviation g := (Board.grid b) (only parsing).
Local Abbreviation N := (Board.N b) (only parsing).

Lemma ref_in_block_refs (x y : Z) :
  0 <= x < N -> 0 <= y < N ->
  ref g x y ∈ block_refs g N i j <-> (x, y) ∈ Board.indices N i j.
Proof.
  intros Hx Hy. destruct Hwf as [_ Hinj _].
  destruct (block_corners b i j Hb) as (Hi & Hj & Hi1 & Hj1 & _).
  unfold block_refs, Board.indices.
  rewrite !elem_of_cons, !elem_of_nil.
  split; intros [H|[H|[H|[H|[]]]]].
  1-4: apply Hinj in H; try lia; destruct H as [-> ->]; auto.
  all: injection H as -> ->; auto.
Qed.

Lemma NoDup_block_refs : NoDup (block_refs g N i j).
Proof.
  destruct Hwf as [_ Hinj _].
  destruct (block_corners b i j Hb) as (Hi & Hj & Hi1 & Hj1 & Hni & Hnj).
  unfold block_refs.
  repeat (apply NoDup_cons; split;
          [rewrite ?elem_of_cons, elem_of_nil; intros H';
           repeat (destruct H' as [H'|H'];
                   [apply Hinj in H'; try lia; destruct H'; congruence|]);
           exact H'|]).
  apply NoDup_nil_2.
Qed.

Lemma block_refs_alloc (c : loc) :
  c ∈ block_refs g N i j -> (c < length h)%nat.
Proof.
  destruct Hwf as [_ _ Hal].
  destruct (block_corners b i j Hb) as (Hi & Hj & Hi1 & Hj1 & _).
  unfold block_refs. rewrite !elem_of_cons, elem_of_nil.
  intros [->|[->|[->|[->|[]]]]]; apply Hal; lia.
Qed.

(** The state of the cell at a position after the four flips. *)
Lemma state_flip_block (x y : Z) :
  0 <= x < N -> 0 <= y < N ->
  Cell.state (ref g x y) (Board.flip_all (block_refs g N i j) h) =
    if decide ((x, y) ∈ Board.indices N i j)
    then Z.lxor (Cell.state (ref g x y) h) 1
    else Cell.state (ref g x y) h.
Proof.
  intros Hx Hy.
  rewrite state_flip_all; [|apply NoDup_block_refs|apply block_refs_alloc].
  pose proof (ref_in_block_refs x y Hx Hy).
  repeat case_decide; tauto.
Qed.

Lemma WF_flip : WF b (Board.flip_all (block_refs g N i j) h).
Proof.
  destruct Hwf as [Hd Hinj Hal]. split; [assumption..|].
  intros x y Hx Hy. rewrite length_flip_all. apply Hal; assumption.
Qed.

Lemma WF_rotate :
  WF (Board.with_grid b (rotate g N i j))
     (Board.flip_all (block_refs g N i j) h).
Proof.
  destruct Hwf as [Hd Hinj Hal].
  destruct (block_corners b i j Hb) as (Hi & Hj & Hi1 & Hj1 & Hni & Hnj).
  split; simpl.
  - unfold rotate. do 2 apply dims_swap. exact Hd.
  - intros x y x' y' Hx Hy Hx' Hy'.
    rewrite !ref_rotate by (try lia; assumption).
    pose proof (rot_in_grid b i j x y Hb Hx Hy) as [? ?].
    pose proof (rot_in_grid b i j x' y' Hb Hx' Hy') as [? ?].
    intros E. apply Hinj in E; try assumption.
    assert (E' : rot (Board.N b) i j (x, y) = rot (Board.N b) i j (x', y')).
    { destruct E as [E1 E2].
      destruct (rot (Board.N b) i j (x, y)), (rot (Board.N b) i j (x', y')).
      simpl in *. congruence. }
    apply (f_equal (rot (Board.N b) i j)) in E'.
    rewrite !rot_involutive in E' by assumption.
    injection E' as -> ->. auto.
  - intros x y Hx Hy.
    rewrite ref_rotate by (try lia; assumption).
    rewrite length_flip_all.
    pose proof (rot_in_grid b i j x y Hb Hx Hy) as [? ?].
    apply Hal; assumption.
Qed.

End Block.

Lemma state_at_ref (b : Board.t) (h h' : heap) (x y : Z) :
  WF b h -> 0 <= x < Board.N b -> 0 <= y < Board.N b ->
  getitem2 (Board.grid b) x y = Ok (ref (Board.grid b) x y) /\
  state_at b h' x y = Ok (Cell.state (ref (Board.grid b) x y) h').
Proof.
  intros [Hd _ _] Hx Hy. unfold state_at.
  rewrite (getitem2_ref _ _ Hd) by lia. auto.
Qed.

Lemma rot_corners (N i j : Z) :
  (i + 1) mod N <> i -> (j + 1) mod N <> j ->
  rot N i j (i, j) = ((i + 1) mod N, (j + 1) mod N) /\
  rot N i j ((i + 1) mod N, (j + 1) mod N) = (i, j) /\
  rot N i j (i, (j + 1) mod N) = ((i + 1) mod N, j) /\
  rot N i j ((i + 1) mod N, j) = (i, (j + 1) mod N).
Proof.
  intros Hi Hj. unfold rot.
  repeat split; repeat case_decide; simplify_eq; try reflexivity; congruence.
Qed.

Section Rule.
Context (b : Board.t) (h : heap) (i j : Z).
Context (Hwf : WF b h) (Hb : is_block b i j = true).

Local Abbreviation g := (Board.grid b) (only parsing).
Local Abbreviation N := (Board.N b) (only parsing).
Local Abbreviation cells := (block_refs g N i j) (only parsing).

Lemma apply_density_2 :
  Board.density cells h = 2 -> Board.apply_block_rules b i j h = Ok (b, h).
Proof.
  intros Hd. rewrite (apply_block_rules_block b h i j Hwf Hb).
  rewrite Hd. reflexivity.
Qed.

Lemma apply_density_014 :
  Board.density cells h = 0 \/ Board.density cells h = 1 \/
  Board.density cells h = 4 ->
  Board.apply_block_rules b i j h = Ok (b, Board.flip_all cells h).
Proof.
  intros Hd. rewrite (apply_block_rules_block b h i j Hwf Hb).
  destruct Hd as [-> |[-> | ->]]; reflexivity.
Qed.

Lemma apply_density_3 :
  Board.density cells h = 3 ->
  Board.apply_block_rules b i j h =
    Ok (Board.with_grid b (rotate g N i j), Board.flip_all cells h).
Proof.
  intros Hd. rewrite (apply_block_rules_block b h i j Hwf Hb).
  rewrite Hd. reflexivity.
Qed.

Lemma apply_density_other :
  Board.density cells h < 0 \/ 4 < Board.density cells h ->
  Board.apply_block_rules b i j h = Ok (b, h).
Proof.
  intros Hd. rewrite (apply_block_rules_block b h i j Hwf Hb).
  destruct (Z.eqb_spec (Board.density cells h) 2); [lia|].
  destruct (Z.eqb_spec (Board.density cells h) 0); [lia|].
  destruct (Z.eqb_spec (Board.density cells h) 1); [lia|].
  destruct (Z.eqb_spec (Board.density cells h) 4); [lia|].
  destruct (Z.eqb_spec (Board.density cells h) 3); [lia|].
  reflexivity.
Qed.

(** The state read at a position after the flips of the block, the
    array unchanged. *)
Lemma state_at_flip (x y : Z) :
  0 <= x < N -> 0 <= y < N ->
  state_at b (Board.flip_all cells h) x y =
    Ok (if decide ((x, y) ∈ Board.indices N i j)
        then Z.lxor (Cell.state (ref g x y) h) 1
        else Cell.state (ref g x y) h).
Proof.
  intros Hx Hy.
  destruct (state_at_ref b h (Board.flip_all
    (block_refs (Board.grid b) (Board.N b) i j) h) x y Hwf Hx Hy) as [_ ->].
  f_equal. apply state_flip_block; assumption.
Qed.

(** The state read at a position after the two swaps and the flips. *)
Lemma state_at_rotate (x y : Z) :
  0 <= x < N -> 0 <= y < N ->
  state_at (Board.with_grid b (rotate g N i j)) (Board.flip_all cells h) x y =
    Ok (let z := rot N i j (x, y) in
        if decide (z ∈ Board.indices N i j)
        then Z.lxor (Cell.state (ref g z.1 z.2) h) 1
        else Cell.state (ref g z.1 z.2) h).
Proof.
  intros Hx Hy. pose proof (WF_rotate b h i j Hwf Hb) as Hwf'.
  destruct (state_at_ref _ _ (Board.flip_all
    (block_refs (Board.grid b) (Board.N b) i j) h) x y Hwf' Hx Hy) as [_ ->].
  f_equal. simpl. destruct Hwf as [Hd _ _].
  rewrite ref_rotate by (try lia; assumption).
  pose proof (rot_in_grid b i j x y Hb Hx Hy) as [? ?].
  destruct (rot (Board.N b) i j (x, y)) as [x' y'] eqn:E. simpl in *.
  apply state_flip_block; assumption.
Qed.

End Rule.

Lemma density_four (c0 c1 c2 c3 : loc) (h : heap) :
  Board.density [c0; c1; c2; c3] h =
    Cell.state c0 h + Cell.state c1 h + Cell.state c2 h + Cell.state c3 h.
Proof. unfold Board.density. simpl. lia. Qed.

(** The density-3 case, corner by corner: the array holds the cells of the
    block rotated by a half turn, and each of them has been flipped. *)
Lemma rotate_block (b : Board.t) (h : heap) (i j : Z) :
  WF b h -> is_block b i j = true ->
  let g := Board.grid b in
  let N := Board.N b in
  let i1 := (i + 1) mod N in
  let j1 := (j + 1) mod N in
  let b' := Board.with_grid b (rotate g N i j) in
  let h' := Board.flip_all (block_refs g N i j) h in
  WF b' h' /\
  block_refs (Board.grid b') N i j =
    [ref g i1 j1; ref g i1 j; ref g i j1; ref g i j] /\
  (forall c, c ∈ block_refs g N i j ->
     Cell.state c h' = Z.lxor (Cell.state c h) 1) /\
  state_at b' h' i j = Ok (Z.lxor (Cell.state (ref g i1 j1) h) 1) /\
  state_at b' h' i j1 = Ok (Z.lxor (Cell.state (ref g i1 j) h) 1) /\
  state_at b' h' i1 j = Ok (Z.lxor (Cell.state (ref g i j1) h) 1) /\
  state_at b' h' i1 j1 = Ok (Z.lxor (Cell.state (ref g i j) h) 1).
Proof.
  intros Hwf Hb g N i1 j1 b' h'.
  destruct (block_corners b i j Hb) as (Hi & Hj & Hi1 & Hj1 & Hni & Hnj).
  destruct (rot_corners N i j Hni Hnj) as (R1 & R2 & R3 & R4).
  pose proof (wf_dims _ _ Hwf) as Hd.
  split; [apply WF_rotate; assumption|].
  split.
  { unfold block_refs. subst b' g N i1 j1. simpl.
    rewrite !ref_rotate by (try lia; assumption).
    rewrite R1, R2, R3, R4. reflexivity. }
  split.
  { intros c Hc. subst h'.
    rewrite state_flip_all;
      [|exact (NoDup_block_refs b h i j Hwf Hb)
       |exact (block_refs_alloc b h i j Hwf Hb)].
    rewrite decide_True by exact Hc. reflexivity. }
  subst b' h' g N i1 j1.
  rewrite !state_at_rotate by (try lia; assumption).
  rewrite R1, R2, R3, R4. simpl.
  rewrite !decide_True by (apply elem_of_indices; auto).
  repeat split; reflexivity.
Qed.

(** The flip case, read by positions. *)
Lemma flip_block (b : Board.t) (h : heap) (i j x y : Z) :
  WF b h -> is_block b i j = true ->
  (x, y) ∈ Board.indices (Board.N b) i j ->
  exists s, state_at b h x y = Ok s /\
    state_at b (Board.flip_all (block_refs (Board.grid b) (Board.N b) i j) h) x y
    = Ok (Z.lxor s 1) /\
    (binary h = true -> s = 0 \/ s = 1).
Proof.
  intros Hwf Hb Hin.
  destruct (block_corners b i j Hb) as (Hi & Hj & _).
  destruct (indices_in_grid _ _ _ _ _ Hi Hj Hin) as [Hx Hy].
  exists (Cell.state (ref (Board.grid b) x y) h).
  split; [apply (state_at_ref b h h x y Hwf Hx Hy)|].
  split.
  - rewrite state_at_flip by assumption.
    rewrite decide_True by exact Hin. reflexivity.
  - intros Hbin. apply binary_state; [exact Hbin|].
    apply (wf_alloc _ _ Hwf); assumption.
Qed.

Lemma is_block_with_grid (b : Board.t) (g : list (list loc)) (i j : Z) :
  is_block (Board.with_grid b g) i j = is_block b i j.
Proof. reflexivity. Qed.

Lemma block_density_rotate (b : Board.t) (h : heap) (i j : Z) :
  WF b h -> is_block b i j = true ->
  let g := Board.grid b in
  let N := Board.N b in
  let i1 := (i + 1) mod N in
  let j1 := (j + 1) mod N in
  block_density (Board.with_grid b (rotate g N i j))
                (Board.flip_all (block_refs g N i j) h) i j =
    Ok (Z.lxor (Cell.state (ref g i1 j1) h) 1
        + Z.lxor (Cell.state (ref g i1 j) h) 1
        + Z.lxor (Cell.state (ref g i j1) h) 1
        + Z.lxor (Cell.state (ref g i j) h) 1).
Proof.
  intros Hwf Hb g N i1 j1.
  destruct (rotate_block b h i j Hwf Hb) as (Hwf' & Hrefs & Hflip & _).
  rewrite block_density_refs by (try rewrite is_block_with_grid; assumption).
  change (Board.N (Board.with_grid b (rotate g N i j))) with N.
  subst g N i1 j1. rewrite Hrefs, density_four.
  rewrite !Hflip by (unfold block_refs; rewrite !elem_of_cons; auto).
  reflexivity.
Qed.

(** C2.  For a 2x2 block of density 3, [apply_block_rules] exchanges the
    cell objects of the two diagonals (top-left with bottom-right, top-right
    with bottom-left) and complements the state of each of the four cells;
    read by positions, every corner then shows the complement of what the
    opposite corner showed, and the block has exactly one alive cell. *)
Theorem density_3_swaps_then_complements (b : Board.t) (h : heap) (i j : Z) :
  well_formed b h = true -> binary h = true -> is_block b i j = true ->
  block_density b h i j = Ok 3 ->
  let g := Board.grid b in
  let i1 := (i + 1) mod Board.N b in
  let j1 := (j + 1) mod Board.N b in
  exists b' h' tl tr bl br,
    Board.apply_block_rules b i j h = Ok (b', h') /\
    (getitem2 g i j = Ok tl /\ getitem2 g i j1 = Ok tr /\
     getitem2 g i1 j = Ok bl /\ getitem2 g i1 j1 = Ok br) /\
    (getitem2 (Board.grid b') i j = Ok br /\
     getitem2 (Board.grid b') i1 j1 = Ok tl /\
     getitem2 (Board.grid b') i j1 = Ok bl /\
     getitem2 (Board.grid b') i1 j = Ok tr) /\
    (forall c, c ∈ [tl; tr; bl; br] ->
       Cell.state c h' = complement (Cell.state c h)) /\
    (state_at b' h' i j = complement <$> state_at b h i1 j1 /\
     state_at b' h' i1 j1 = complement <$> state_at b h i j /\
     state_at b' h' i j1 = complement <$> state_at b h i1 j /\
     state_at b' h' i1 j = complement <$> state_at b h i j1) /\
    block_density b' h' i j = Ok 1.
Proof.
  intros Hwf%well_formed_WF Hbin Hb Hdens g i1 j1.
  rewrite block_density_refs in Hdens by assumption. injection Hdens as Hdens.
  destruct (block_corners b i j Hb) as (Hi & Hj & Hi1 & Hj1 & _).
  destruct (rotate_block b h i j Hwf Hb) as (Hwf' & Hrefs & Hflip & S1 & S2 & S3 & S4).
  pose proof (block_density_rotate b h i j Hwf Hb) as Hd'.
  simpl in Hd'. subst g i1 j1.
  assert (Hs : forall x y, 0 <= x < Board.N b -> 0 <= y < Board.N b ->
            Z.lxor (Cell.state (ref (Board.grid b) x y) h) 1
            = complement (Cell.state (ref (Board.grid b) x y) h)).
  { intros x y Hx Hy. apply lxor_complement, binary_state; [exact Hbin|].
    apply (wf_alloc _ _ Hwf); assumption. }
  injection Hrefs as R1 R2 R3 R4.
  eexists _, _, _, _, _, _.
  split; [apply apply_density_3; assumption|].
  split.
  { repeat split; apply (state_at_ref b h h); assumption. }
  split.
  { rewrite <- R1, <- R2, <- R3, <- R4.
    repeat split; apply (state_at_ref _ _ h _ _ Hwf'); assumption. }
  split.
  { intros c Hc. rewrite Hflip by exact Hc.
    rewrite !elem_of_cons, elem_of_nil in Hc.
    destruct Hc as [->|[->|[->|[->|[]]]]]; apply Hs; assumption. }
  split.
  { rewrite S1, S2, S3, S4.
    repeat split;
      match goal with
      | |- _ = complement <$> state_at b h ?x ?y =>
          destruct (state_at_ref b h h x y Hwf) as [_ ->]; try assumption
      end; simpl; f_equal; apply Hs; assumption. }
  rewrite Hd'. f_equal.
  rewrite !Hs by assumption. unfold complement.
  unfold block_refs in Hdens. rewrite density_four in Hdens. lia.
Qed.

Lemma density_3_swaps_then_complements_witness :
  exists b' h',
    Board.apply_block_rules board4 0 0 states_1110 = Ok (b', h') /\
    state_at b' h' 0 0 = complement <$> state_at board4 states_1110 1 1 /\
    block_density b' h' 0 0 = Ok 1.
Proof.
  destruct (density_3_swaps_then_complements board4 states_1110 0 0)
    as (b' & h' & tl & tr & bl & br & Happ & _ & _ & _ & (S1 & _) & Hd);
    [vm_compute; reflexivity..|].
  exists b', h'. split; [exact Happ|]. split; [exact S1|exact Hd].
Defined.

(** C3, as amended.  A block that shows top-left 1, top-right 1,
    bottom-left 1 and bottom-right 0 shows, after [apply_block_rules],
    top-left 1 and the three other corners 0: exactly one cell is alive,
    and it is the top-left one. *)
Theorem block_1110_becomes_1000 (b : Board.t) (h : heap) (i j : Z) :
  well_formed b h = true -> is_block b i j = true ->
  let i1 := (i + 1) mod Board.N b in
  let j1 := (j + 1) mod Board.N b in
  state_at b h i j = Ok 1 -> state_at b h i j1 = Ok 1 ->
  state_at b h i1 j = Ok 1 -> state_at b h i1 j1 = Ok 0 ->
  exists b' h',
    Board.apply_block_rules b i j h = Ok (b', h') /\
    state_at b' h' i j = Ok 1 /\ state_at b' h' i j1 = Ok 0 /\
    state_at b' h' i1 j = Ok 0 /\ state_at b' h' i1 j1 = Ok 0 /\
    block_density b' h' i j = Ok 1.
Proof.
  intros Hwf%well_formed_WF Hb i1 j1 Htl Htr Hbl Hbr.
  destruct (block_corners b i j Hb) as (Hi & Hj & Hi1 & Hj1 & _).
  destruct (rotate_block b h i j Hwf Hb) as (_ & _ & _ & S1 & S2 & S3 & S4).
  pose proof (block_density_rotate b h i j Hwf Hb) as Hd'.
  simpl in Hd'. subst i1 j1.
  destruct (state_at_ref b h h i j Hwf) as [_ E1]; try assumption.
  destruct (state_at_ref b h h i ((j + 1) mod Board.N b) Hwf) as [_ E2];
    try assumption.
  destruct (state_at_ref b h h ((i + 1) mod Board.N b) j Hwf) as [_ E3];
    try assumption.
  destruct (state_at_ref b h h ((i + 1) mod Board.N b)
              ((j + 1) mod Board.N b) Hwf) as [_ E4]; try assumption.
  rewrite E1 in Htl. rewrite E2 in Htr. rewrite E3 in Hbl. rewrite E4 in Hbr.
  injection Htl as Htl. injection Htr as Htr.
  injection Hbl as Hbl. injection Hbr as Hbr.
  eexists _, _. split.
  { apply apply_density_3; [assumption..|].
    unfold block_refs. rewrite density_four, Htl, Htr, Hbl, Hbr. reflexivity. }
  rewrite S1, S2, S3, S4, Hd', Htl, Htr, Hbl, Hbr. repeat split; reflexivity.
Qed.

Lemma block_1110_becomes_1000_witness :
  exists b' h',
    Board.apply_block_rules board4 0 0 states_1110 = Ok (b', h') /\
    state_at b' h' 0 0 = Ok 1 /\ state_at b' h' 0 1 = Ok 0 /\
    state_at b' h' 1 0 = Ok 0 /\ state_at b' h' 1 1 = Ok 0 /\
    block_density b' h' 0 0 = Ok 1.
Proof.
  apply (block_1110_becomes_1000 board4 states_1110 0 0); vm_compute; reflexivity.
Defined.

(** C3, as stated, fails: on the 4x4 board whose block at the origin shows
    1, 1, 1, 0, the top-left cell is alive after the rule, not dead, so the
    four corners are not all 0. *)
Lemma block_1110_top_left_stays_alive :
  (r ← Board.apply_block_rules board4 0 0 states_1110;
   Ok (Board.get_state_array r.1 r.2))
  = Ok [[1; 0; 0; 0]; [0; 0; 0; 0]; [0; 0; 0; 0]; [0; 0; 0; 0]] /\
  (r ← Board.apply_block_rules board4 0 0 states_1110; state_at r.1 r.2 0 0)
  <> Ok 0.
Proof. split; [vm_compute; reflexivity|vm_compute; discriminate]. Qed.

(** C4.  Let a 2x2 block show the states [s00], [s01] (top row) and
    [s10], [s11] (bottom row) at its four positions [(i, j)], [(i, j1)],
    [(i1, j)], [(i1, j1)]; its density is their sum [d].  For [d] equal to
    0, 1 or 4, [apply_block_rules] returns the board as it is, so that no
    cell object changes position, and each of the four positions then shows
    the complement of its former state, which makes the density [4 - d];
    for [d = 2] the board and the store are returned unchanged. *)
Theorem density_014_complements_density_2_idle
  (b : Board.t) (h : heap) (i j s00 s01 s10 s11 : Z) :
  well_formed b h = true -> binary h = true -> is_block b i j = true ->
  let i1 := (i + 1) mod Board.N b in
  let j1 := (j + 1) mod Board.N b in
  state_at b h i j = Ok s00 -> state_at b h i j1 = Ok s01 ->
  state_at b h i1 j = Ok s10 -> state_at b h i1 j1 = Ok s11 ->
  let d := s00 + s01 + s10 + s11 in
  block_density b h i j = Ok d /\
  (d = 0 \/ d = 1 \/ d = 4 ->
   exists h',
     Board.apply_block_rules b i j h = Ok (b, h') /\
     state_at b h' i j = Ok (complement s00) /\
     state_at b h' i j1 = Ok (complement s01) /\
     state_at b h' i1 j = Ok (complement s10) /\
     state_at b h' i1 j1 = Ok (complement s11) /\
     block_density b h' i j = Ok (4 - d)) /\
  (d = 2 -> Board.apply_block_rules b i j h = Ok (b, h)).
Proof.
  intros Hwf%well_formed_WF Hbin Hb i1 j1 H00 H01 H10 H11 d.
  destruct (block_corners b i j Hb) as (Hi & Hj & Hi1 & Hj1 & _).
  fold i1 j1 in Hi1, Hj1.
  assert (Hat : forall h0 x y, 0 <= x < Board.N b -> 0 <= y < Board.N b ->
            state_at b h0 x y = Ok (Cell.state (ref (Board.grid b) x y) h0)).
  { intros h0 x y Hx Hy. apply (state_at_ref b h h0 x y Hwf Hx Hy). }
  rewrite Hat in H00, H01, H10, H11 by assumption.
  injection H00 as H00. injection H01 as H01. injection H10 as H10.
  injection H11 as H11.
  assert (Hdens : Board.density
                    (block_refs (Board.grid b) (Board.N b) i j) h = d).
  { unfold block_refs. rewrite density_four. fold i1 j1. subst d. lia. }
  split; [rewrite block_density_refs by assumption; rewrite Hdens; reflexivity|].
  split; [|intros Hd; apply apply_density_2; [assumption..|congruence]].
  intros Hd.
  set (h' := Board.flip_all (block_refs (Board.grid b) (Board.N b) i j) h).
  assert (Hwf' : WF b h') by exact (WF_flip b h i j Hwf).
  assert (Hflip : forall x y, 0 <= x < Board.N b -> 0 <= y < Board.N b ->
            (x, y) ∈ Board.indices (Board.N b) i j ->
            Cell.state (ref (Board.grid b) x y) h'
            = complement (Cell.state (ref (Board.grid b) x y) h)).
  { intros x y Hx Hy Hin.
    destruct (flip_block b h i j x y Hwf Hb Hin) as (s & Hs & Hs' & Hs01).
    fold h' in Hs'. rewrite Hat in Hs, Hs' by assumption.
    injection Hs as <-. injection Hs' as ->.
    apply lxor_complement, Hs01, Hbin. }
  assert (F00 := Hflip i j Hi Hj ltac:(apply elem_of_indices; auto)).
  assert (F01 := Hflip i j1 Hi Hj1 ltac:(apply elem_of_indices; auto)).
  assert (F10 := Hflip i1 j Hi1 Hj ltac:(apply elem_of_indices; auto)).
  assert (F11 := Hflip i1 j1 Hi1 Hj1 ltac:(apply elem_of_indices; auto)).
  exists h'. split.
  { apply apply_density_014; [assumption..|]. rewrite Hdens. exact Hd. }
  rewrite !Hat by assumption. rewrite F00, F01, F10, F11, H00, H01, H10, H11.
  do 4 (split; [reflexivity|]).
  rewrite block_density_refs by assumption.
  unfold block_refs. rewrite density_four. fold i1 j1 h'.
  rewrite F00, F01, F10, F11, H00, H01, H10, H11.
  unfold complement. f_equal. subst d. lia.
Qed.

Lemma density_014_complements_density_2_idle_witness :
  (exists h',
     Board.apply_block_rules board4 0 0 states_1000 = Ok (board4, h') /\
     state_at board4 h' 0 0 = Ok (complement 1) /\
     state_at board4 h' 0 1 = Ok (complement 0) /\
     state_at board4 h' 1 0 = Ok (complement 0) /\
     state_at board4 h' 1 1 = Ok (complement 0) /\
     block_density board4 h' 0 0 = Ok (4 - 1))
  /\ Board.apply_block_rules board4 0 0 states_0110 = Ok (board4, states_0110).
Proof.
  split.
  - apply (density_014_complements_density_2_idle board4 states_1000 0 0
             1 0 0 0); try (vm_compute; reflexivity).
    right; left; reflexivity.
  - apply (density_014_complements_density_2_idle board4 states_0110 0 0
             0 1 1 0); vm_compute; reflexivity.
Defined.

(** ** Construction *)

Lemma valid_p_choice (p : Q) (raw : Z) :
  random_choice01 p raw =
    if valid_p p then Ok (draw p raw) else Raise ValueError.
Proof.
  unfold random_choice01, valid_p, draw.
  assert (E : Qle_bool 0 (1 - p) = Qle_bool p 1).
  { apply eq_true_iff_eq. rewrite !Qle_bool_iff. split; intros H; lra. }
  rewrite E. clear E.
  destruct (Qle_bool 0 p), (Qle_bool p 1); simpl; try reflexivity.
  destruct (Qle_bool (cdf0 p) (random_sample raw)); reflexivity.
Qed.

Lemma float64_zero (q : Q) : q == 0 -> float64 q = 0%Q.
Proof.
  intros Hq. unfold Qeq in Hq. simpl in Hq.
  unfold float64. replace (Qnum q) with 0 by lia. reflexivity.
Qed.

Lemma float64_one (q : Q) : q == 1 -> float64 q = 1%Q.
Proof.
  intros Hq. unfold Qeq in Hq. simpl in Hq. destruct q as [n d]. simpl in Hq.
  assert (Hn : n = Z.pos d) by lia. subst n.
  unfold float64. cbn [Qnum Qden]. rewrite Z.abs_eq by lia.
  change (Z.pos d =? 0) with false. cbv iota.
  rewrite Z.sub_diag.
  change (Z.max 0 (- 0)) with 0. change (Z.max 0 0) with 0.
  rewrite Z.ltb_irrefl. cbv iota.
  change (Z.max (0 - 52) (-1074)) with (-52).
  change (0 <=? -52) with false. cbv iota.
  change (- -52) with 52. change (Z.pos d <? 0) with false. cbv iota.
  unfold round_half_even.
  rewrite (Z.mul_comm (Z.pos d) (2 ^ 52)), Z.div_mul, Z.mod_mul by lia.
  change (2 * 0 <? Z.pos d) with true. cbv iota.
  vm_compute. reflexivity.
Qed.

(** For [p = 1] the distribution starts at 0, for [p = 0] at 1. *)
Lemma cdf0_sure (p : Q) : p == 1 -> cdf0 p = 0%Q.
Proof.
  intros Hp. unfold cdf0.
  rewrite (float64_zero (1 - p)) by lra.
  apply float64_zero. unfold Qdiv. lra.
Qed.

Lemma cdf0_never (p : Q) : p == 0 -> cdf0 p = 1%Q.
Proof.
  intros Hp. unfold cdf0.
  rewrite (float64_one (1 - p)) by lra.
  rewrite (float64_one (1 + p)) by lra.
  reflexivity.
Qed.

Lemma draw_binary (p : Q) (raw : Z) : draw p raw = 0 \/ draw p raw = 1.
Proof. unfold draw. destruct (Qle_bool _ _); auto. Qed.

(** With [p = 1] every cell is created alive. *)
Lemma draw_sure (raw : Z) : draw 1 raw = 1.
Proof.
  unfold draw. rewrite cdf0_sure by reflexivity.
  assert (H : Qle_bool 0 (random_sample raw) = true); [|rewrite H; reflexivity].
  apply Qle_bool_iff. unfold random_sample, Qle. simpl.
  pose proof (Z.mod_pos_bound raw (2 ^ 53)). lia.
Qed.

Lemma draws_S (p : Q) (rnd : nat -> Z) (k n : nat) :
  draws p rnd k (S n) = draw p (rnd k) :: draws p rnd (S k) n.
Proof. reflexivity. Qed.

Lemma draws_app (p : Q) (rnd : nat -> Z) (k n m : nat) :
  draws p rnd k (n + m) = draws p rnd k n ++ draws p rnd (k + n) m.
Proof. unfold draws. rewrite seq_app, map_app. reflexivity. Qed.

Lemma length_draws (p : Q) (rnd : nat -> Z) (k n : nat) :
  length (draws p rnd k n) = n.
Proof. unfold draws. rewrite length_map, length_seq. reflexivity. Qed.

Lemma new_row_valid (p : Q) (rnd : nat -> Z) (n : nat) (h : heap) (k : nat) :
  valid_p p = true ->
  Board.new_row p rnd n (h, k) =
    Ok (seq (length h) n, (h ++ draws p rnd k n, (k + n)%nat)).
Proof.
  intros Hp. revert h k. induction n as [|n IH]; intros h k; simpl.
  - rewrite app_nil_r, Nat.add_0_r. reflexivity.
  - unfold Cell.__init__. rewrite valid_p_choice, Hp. simpl.
    rewrite IH. simpl. rewrite length_app. simpl.
    rewrite Nat.add_1_r, <- app_assoc, Nat.add_succ_r. reflexivity.
Qed.

Lemma new_rows_valid (p : Q) (rnd : nat -> Z) (n rows : nat) (h : heap) (k : nat) :
  valid_p p = true ->
  Board.new_rows p rnd n rows (h, k) =
    Ok (map (fun r => seq (length h + r * n) n) (seq 0 rows),
        (h ++ draws p rnd k (rows * n), (k + rows * n)%nat)).
Proof.
  intros Hp. revert h k. induction rows as [|rows IH]; intros h k; simpl.
  - rewrite app_nil_r, Nat.add_0_r. reflexivity.
  - rewrite new_row_valid by exact Hp. simpl. rewrite IH. simpl.
    rewrite length_app, length_draws, draws_app, <- app_assoc.
    rewrite Nat.add_0_r, Nat.add_assoc. f_equal. f_equal. f_equal.
    rewrite <- seq_shift, map_map. apply map_ext. intros r. f_equal. lia.
Qed.

Lemma new_rows_invalid (p : Q) (rnd : nat -> Z) (n rows : nat) (s : heap * nat) :
  valid_p p = false -> (0 < n)%nat -> (0 < rows)%nat ->
  Board.new_rows p rnd n rows s = Raise ValueError.
Proof.
  intros Hp Hn Hr. destruct rows as [|rows]; [lia|].
  destruct n as [|n]; [lia|]. simpl. unfold Cell.__init__.
  rewrite valid_p_choice, Hp. reflexivity.
Qed.

Lemma init_valid (N : Z) (p : Q) (w : bool) (gl : option (list (list Z)))
  (mode : string) (rnd : nat -> Z) :
  valid_p p = true ->
  let n := Z.to_nat N in
  let b := fresh_board N w in
  let h := draws p rnd 0 (n * n) in
  Board.__init__ N p w gl mode rnd =
    match gl with
    | Some pattern =>
        h' ← Board._place_pattern b pattern (rnd (n * n)%nat) (rnd (S (n * n))) h;
        Ok (b, h')
    | None =>
        if String.eqb mode "Odd Columns Alive" then
          h' ← Board._initialize_odd_columns b h; Ok (b, h')
        else if String.eqb mode "Odd Diagonals Alive" then
          h' ← Board._initialize_diagonal_pattern b h; Ok (b, h')
        else Ok (b, h)
    end.
Proof.
  intros Hp n b h. unfold Board.__init__.
  rewrite new_rows_valid by exact Hp. reflexivity.
Qed.

Lemma init_invalid (N : Z) (p : Q) (w : bool) (gl : option (list (list Z)))
  (mode : string) (rnd : nat -> Z) :
  valid_p p = false -> 1 <= N ->
  Board.__init__ N p w gl mode rnd = Raise ValueError.
Proof.
  intros Hp HN. unfold Board.__init__.
  rewrite new_rows_invalid by (try exact Hp; lia). reflexivity.
Qed.

Lemma init_fields (N : Z) (p : Q) (w : bool) (gl : option (list (list Z)))
  (mode : string) (rnd : nat -> Z) (b : Board.t) (h : heap) :
  Board.__init__ N p w gl mode rnd = Ok (b, h) ->
  Board.N b = N /\ Board.wraparound b = w /\
  Board.blocks_even b = Board._create_blocks N w 1 /\
  Board.blocks_odd b = Board._create_blocks N w 0.
Proof.
  unfold Board.__init__. intros H.
  apply bind_Ok in H. destruct H as ([g s] & _ & H).
  destruct gl as [pattern|].
  - apply bind_Ok in H. destruct H as (h' & _ & [= <- <-]). auto.
  - repeat case_match; try (apply bind_Ok in H; destruct H as (h' & _ & H));
      injection H as <- <-; auto.
Qed.

Lemma ref_fresh_grid (n : nat) (x y : Z) :
  0 <= x < Z.of_nat n -> 0 <= y < Z.of_nat n ->
  ref (fresh_grid n) x y = (Z.to_nat x * n + Z.to_nat y)%nat.
Proof.
  intros Hx Hy. unfold ref, fresh_grid.
  change (map ?f ?l) with (f <$> l).
  erewrite (list_lookup_total_correct _ (Z.to_nat x));
    [|rewrite list_lookup_fmap, lookup_seq_lt by lia; reflexivity].
  rewrite lookup_total_seq_lt by lia. reflexivity.
Qed.

Lemma dims_fresh_grid (n : nat) : dims n (fresh_grid n).
Proof.
  unfold fresh_grid. split.
  - rewrite length_map, length_seq. reflexivity.
  - intros row Hin. apply list_elem_of_In, in_map_iff in Hin.
    destruct Hin as (r & <- & _). apply length_seq.
Qed.

Lemma WF_fresh_board (N : Z) (w : bool) (h : heap) :
  length h = (Z.to_nat N * Z.to_nat N)%nat -> WF (fresh_board N w) h.
Proof.
  intros Hlen. split; simpl.
  - apply dims_fresh_grid.
  - intros x y x' y' Hx Hy Hx' Hy'. rewrite !ref_fresh_grid by lia.
    intros E. apply row_major_inj in E; lia.
  - intros x y Hx Hy. rewrite ref_fresh_grid by lia. rewrite Hlen. nia.
Qed.

(** The deterministic initialisations run to their end on any board of
    the right shape. *)
Lemma initialize_with_Ok (f : Z -> Z -> Z) (b : Board.t) (h : heap) :
  dims (Z.to_nat (Board.N b)) (Board.grid b) ->
  exists h', Board.initialize_with f b h = Ok h'.
Proof.
  intros Hd. unfold Board.initialize_with.
  assert (Hr : Forall (fun i => 0 <= i < Board.N b) (py_range 0 (Board.N b) 1)).
  { apply Forall_forall. intros i Hi. apply elem_of_py_range in Hi; lia. }
  destruct (for_each_invariant (fun _ => True) (fun i => 0 <= i < Board.N b)
              (py_range 0 (Board.N b) 1)
              (fun i h => for_each (py_range 0 (Board.N b) 1) (fun j h =>
                 c ← getitem2 (Board.grid b) i j;
                 Ok (Cell.set_state c (f i j) h)) h) h) as (h' & Hh' & _);
    [|exact Hr|exact I|eauto].
  intros i h1 _ Hi _.
  destruct (for_each_invariant (fun _ => True) (fun j => 0 <= j < Board.N b)
              (py_range 0 (Board.N b) 1)
              (fun j h => c ← getitem2 (Board.grid b) i j;
                          Ok (Cell.set_state c (f i j) h)) h1) as (h2 & Hh2 & _);
    [|exact Hr|exact I|eauto].
  intros j h2 _ Hj _. rewrite (getitem2_ref _ _ Hd) by lia. simpl. eauto.
Qed.

(** C7, as amended.  Construction fails, when it is called, with the
    [ValueError] of the random draw of the first cell if [p] lies outside
    [[0, 1]] and [N >= 1].  The size is not checked: with [p] in [[0, 1]] and
    no pattern to stamp, construction succeeds for every [N], whether odd or
    non-positive, and gives the board of [N] rows (none when [N <= 0]) at
    step 0. *)
Theorem construction_rejects_only_bad_p (N : Z) (p : Q) (max_steps : Z)
  (w : bool) (gl : option (list (list Z))) (mode : string) (rnd : nat -> Z) :
  (valid_p p = false -> 1 <= N ->
   GameManager.__init__ N p max_steps w gl mode rnd = Raise ValueError) /\
  (valid_p p = true ->
   exists g h,
     GameManager.__init__ N p max_steps w None mode rnd = Ok (g, h) /\
     GameManager.N g = N /\ GameManager.current_step g = 0 /\
     GameManager.board g = fresh_board N w /\
     length (Board.grid (GameManager.board g)) = Z.to_nat N).
Proof.
  split.
  - intros Hp HN. unfold GameManager.__init__.
    rewrite init_invalid by assumption. reflexivity.
  - intros Hp. unfold GameManager.__init__.
    rewrite (init_valid N p w None mode rnd Hp).
    assert (Hlen : length (Board.grid (fresh_board N w)) = Z.to_nat N).
    { apply dims_fresh_grid. }
    destruct (String.eqb mode "Odd Columns Alive");
      [|destruct (String.eqb mode "Odd Diagonals Alive")].
    + destruct (initialize_with_Ok (fun i j => if j mod 2 =? 1 then 1 else 0)
                  (fresh_board N w)
                  (draws p rnd 0 (Z.to_nat N * Z.to_nat N)))
        as (h' & Hh'); [apply dims_fresh_grid|].
      unfold Board._initialize_odd_columns. rewrite Hh'. simpl.
      eexists _, _. repeat split. exact Hlen.
    + destruct (initialize_with_Ok (fun i j => if (i + j) mod 2 =? 1 then 1 else 0)
                  (fresh_board N w)
                  (draws p rnd 0 (Z.to_nat N * Z.to_nat N)))
        as (h' & Hh'); [apply dims_fresh_grid|].
      unfold Board._initialize_diagonal_pattern. rewrite Hh'. simpl.
      eexists _, _. repeat split. exact Hlen.
    + simpl. eexists _, _. repeat split. exact Hlen.
Qed.

Lemma construction_rejects_only_bad_p_witness :
  GameManager.__init__ 4 (3 # 2) 250 true None "Random" zeros = Raise ValueError /\
  exists g h,
    GameManager.__init__ 3 (1 # 2) 250 true None "Random" zeros = Ok (g, h) /\
    GameManager.N g = 3 /\ GameManager.current_step g = 0 /\
    GameManager.board g = fresh_board 3 true /\
    length (Board.grid (GameManager.board g)) = Z.to_nat 3.
Proof.
  split.
  - apply (construction_rejects_only_bad_p 4 (3 # 2) 250 true None "Random" zeros);
      [reflexivity|lia].
  - apply (construction_rejects_only_bad_p 3 (1 # 2) 250 true None "Random" zeros).
    reflexivity.
Defined.

(** C7, as stated, fails: an odd size, the size 0 and a negative size are
    all accepted, and the engine is built. *)
Lemma odd_and_non_positive_sizes_are_accepted :
  is_Ok (GameManager.__init__ 3 (1 # 2) 250 true None "Random" zeros) = true /\
  is_Ok (GameManager.__init__ 0 (1 # 2) 250 true None "Random" zeros) = true /\
  is_Ok (GameManager.__init__ (-4) (1 # 2) 250 true None "Random" zeros) = true.
Proof. repeat split; vm_compute; reflexivity. Qed.

(** ** Placing a pattern *)

Lemma randint_empty (high raw : Z) :
  high <= 0 -> random_randint 0 high raw = Raise ValueError.
Proof.
  intros H. unfold random_randint.
  destruct (Z.leb_spec high 0); [reflexivity|lia].
Qed.

Lemma randint_in_range (high raw : Z) :
  0 < high ->
  exists t, random_randint 0 high raw = Ok t /\ 0 <= t < high.
Proof.
  intros H. unfold random_randint.
  destruct (Z.leb_spec high 0); [lia|].
  eexists. split; [reflexivity|].
  pose proof (Z.mod_pos_bound raw (high - 0)). lia.
Qed.

Lemma half_non_positive (m : Z) : (m + 1) / 2 <= 0 <-> m < 1.
Proof.
  split; intros H.
  - destruct (Z.lt_ge_cases m 1) as [|Hge]; [assumption|].
    assert (1 <= (m + 1) / 2) by (apply Z.div_le_lower_bound; lia). lia.
  - assert ((m + 1) / 2 < 1) by (apply Z.div_lt_upper_bound; lia). lia.
Qed.

(** The origin that is drawn, when one can be: odd, and such that the
    pattern lies inside the grid. *)
Lemma draw_origin_fits (N : Z) (row0 : list Z) (rest : list (list Z))
  (raw1 raw2 : Z) :
  1 <= N - Z.of_nat (length (row0 :: rest)) ->
  1 <= N - Z.of_nat (length row0) ->
  exists top left,
    Board.draw_origin N (row0 :: rest) raw1 raw2 = Ok (top, left) /\
    odd_origin_fits N (row0 :: rest) top left /\ 1 <= top /\ 1 <= left.
Proof.
  intros Hh Hw. unfold Board.draw_origin.
  set (mt := N - Z.of_nat (length (row0 :: rest))) in *.
  set (ml := N - Z.of_nat (length row0)) in *.
  destruct (randint_in_range ((mt + 1) / 2) raw1) as (t & -> & Ht).
  { pose proof (half_non_positive mt). lia. }
  destruct (randint_in_range ((ml + 1) / 2) raw2) as (l & -> & Hl).
  { pose proof (half_non_positive ml). lia. }
  simpl. eexists _, _. split; [reflexivity|].
  assert (2 * ((mt + 1) / 2) <= mt + 1) by (apply Z.mul_div_le; lia).
  assert (2 * ((ml + 1) / 2) <= ml + 1) by (apply Z.mul_div_le; lia).
  assert (Hodd : forall k, Z.odd (k * 2 + 1) = true).
  { intros k. rewrite Z.add_comm, Z.mul_comm, Z.odd_add_mul_2. reflexivity. }
  unfold odd_origin_fits, pattern_width.
  repeat split; try apply Hodd; subst mt ml; lia.
Qed.

Lemma draw_origin_degenerate (N : Z) (row0 : list Z) (rest : list (list Z))
  (raw1 raw2 : Z) :
  (forall top left, ~ odd_origin_fits N (row0 :: rest) top left) ->
  Board.draw_origin N (row0 :: rest) raw1 raw2 = Raise ValueError.
Proof.
  intros Hnone. unfold Board.draw_origin.
  set (mt := N - Z.of_nat (length (row0 :: rest))) in *.
  set (ml := N - Z.of_nat (length row0)) in *.
  assert (Hdeg : mt < 1 \/ ml < 1).
  { destruct (Z.lt_ge_cases mt 1) as [|Ht]; [auto|].
    destruct (Z.lt_ge_cases ml 1) as [|Hl]; [auto|].
    exfalso. apply (Hnone 1 1). unfold odd_origin_fits, pattern_width.
    repeat split; try reflexivity; subst mt ml; lia. }
  destruct (Z.lt_ge_cases mt 1) as [Ht|Ht].
  - rewrite (randint_empty ((mt + 1) / 2))
      by (apply half_non_positive; exact Ht). reflexivity.
  - destruct (randint_in_range ((mt + 1) / 2) raw1) as (t & -> & _).
    { pose proof (half_non_positive mt). lia. }
    simpl. rewrite randint_empty; [reflexivity|].
    apply half_non_positive. lia.
Qed.

Lemma new_rows_ValueError (p : Q) (rnd : nat -> Z) (n rows : nat) (s : heap * nat) :
  Board.new_rows p rnd n rows s = Raise ValueError \/
  exists r, Board.new_rows p rnd n rows s = Ok r.
Proof.
  destruct (valid_p p) eqn:Hp.
  - right. destruct s as [h k]. rewrite new_rows_valid by exact Hp. eauto.
  - destruct n as [|n].
    + right. revert s. induction rows as [|rows IH]; intros s; simpl; [eauto|].
      destruct (IH s) as [r ->]. destruct r. simpl. eauto.
    + destruct rows as [|rows]; [right; simpl; eauto|].
      left. apply new_rows_invalid; [exact Hp|lia..].
Qed.

(** C8, as amended.  When no odd-aligned origin lets the pattern lie
    inside the grid, [_place_pattern] makes no check of its own: one of the
    two ranges that it gives to [np.random.randint] is empty
    ([(N - h + 1) // 2 <= 0] or [(N - w + 1) // 2 <= 0]), the first draw
    raises its [ValueError], or it returns and the second draw raises it,
    and this is the exception of [_place_pattern], which returns no store,
    so that nothing is stamped, and of the construction of a board with
    this pattern. *)
Theorem degenerate_placement_raises (N : Z) (row0 : list Z)
  (rest : list (list Z)) :
  (forall top left, ~ odd_origin_fits N (row0 :: rest) top left) ->
  let high_top := (N - Z.of_nat (length (row0 :: rest)) + 1) / 2 in
  let high_left := (N - Z.of_nat (length row0) + 1) / 2 in
  (high_top <= 0 \/ high_left <= 0) /\
  (forall raw1 raw2,
     random_randint 0 high_top raw1 = Raise ValueError \/
     ((exists t, random_randint 0 high_top raw1 = Ok t) /\
      random_randint 0 high_left raw2 = Raise ValueError)) /\
  (forall b raw1 raw2 h, Board.N b = N ->
     Board._place_pattern b (row0 :: rest) raw1 raw2 h = Raise ValueError) /\
  (forall p w mode rnd,
     Board.__init__ N p w (Some (row0 :: rest)) mode rnd = Raise ValueError).
Proof.
  intros Hnone high_top high_left.
  assert (Hdeg : high_top <= 0 \/ high_left <= 0).
  { subst high_top high_left. rewrite !half_non_positive.
    destruct (Z.lt_ge_cases (N - Z.of_nat (length (row0 :: rest))) 1) as [|Ht];
      [auto|].
    destruct (Z.lt_ge_cases (N - Z.of_nat (length row0)) 1) as [|Hl]; [auto|].
    exfalso. apply (Hnone 1 1). unfold odd_origin_fits, pattern_width.
    repeat split; try reflexivity; lia. }
  split; [exact Hdeg|]. split; [|split].
  - intros raw1 raw2.
    destruct (Z.le_gt_cases high_top 0) as [Ht|Ht].
    + left. apply randint_empty, Ht.
    + right. destruct (randint_in_range high_top raw1 Ht) as (t & Et & _).
      split; [eauto|]. apply randint_empty. lia.
  - intros b raw1 raw2 h <-. unfold Board._place_pattern.
    rewrite draw_origin_degenerate by exact Hnone. reflexivity.
  - intros p w mode rnd. unfold Board.__init__.
    destruct (new_rows_ValueError p rnd (Z.to_nat N) (Z.to_nat N) ([], O))
      as [-> | [[g s] ->]]; [reflexivity|].
    simpl. unfold Board._place_pattern. simpl Board.N.
    rewrite draw_origin_degenerate by exact Hnone. reflexivity.
Qed.

Lemma degenerate_placement_raises_witness :
  ((4 - 4 + 1) / 2 <= 0 \/ (4 - 2 + 1) / 2 <= 0) /\
  (forall raw1 raw2,
     random_randint 0 ((4 - 4 + 1) / 2) raw1 = Raise ValueError \/
     ((exists t, random_randint 0 ((4 - 4 + 1) / 2) raw1 = Ok t) /\
      random_randint 0 ((4 - 2 + 1) / 2) raw2 = Raise ValueError)) /\
  (forall b raw1 raw2 h, Board.N b = 4 ->
     Board._place_pattern b glider raw1 raw2 h = Raise ValueError) /\
  (forall p w mode rnd,
     Board.__init__ 4 p w (Some glider) mode rnd = Raise ValueError).
Proof.
  apply (degenerate_placement_raises 4 [0; 1] [[1; 0]; [1; 0]; [0; 1]]).
  intros top left (Ho & _ & Ht & _ & Hfit & _). simpl in Hfit.
  assert (top = 0) by lia. subst top. discriminate Ho.
Defined.

(** C8, as stated, fails: on a 4x4 grid the 4x2 glider has no odd-aligned
    origin, and no error of its own is raised for it.  The constructor
    goes on to the draw [np.random.randint(0, 0)] and raises what that
    call raises, the [ValueError] that a probability outside [[0, 1]]
    raises as well. *)
Lemma degenerate_placement_is_the_error_of_the_draw :
  (forall top left, ~ odd_origin_fits 4 glider top left) /\
  (4 - Z.of_nat (length glider) + 1) / 2 = 0 /\
  random_randint 0 0 (zeros 16) = Raise ValueError /\
  (forall e,
     Board.__init__ 4 1 true (Some glider) "Glider" zeros = Raise e ->
     random_randint 0 ((4 - Z.of_nat (length glider) + 1) / 2) (zeros 16)
     = Raise e) /\
  Board.__init__ 4 1 true (Some glider) "Glider" zeros
  = Board.__init__ 4 2 true None "Random" zeros.
Proof.
  split.
  { intros top left (Ho & _ & Ht & _ & Hfit & _). simpl in Hfit.
    assert (top = 0) by lia. subst top. discriminate Ho. }
  split; [reflexivity|]. split; [reflexivity|]. split.
  - intros e He. vm_compute in He. injection He as <-. reflexivity.
  - vm_compute. reflexivity.
Qed.

Lemma WF_length (b : Board.t) (h h' : heap) :
  WF b h -> length h' = length h -> WF b h'.
Proof.
  intros [Hd Hinj Hal] Hlen. split; [assumption..|].
  intros x y Hx Hy. rewrite Hlen. apply Hal; assumption.
Qed.

Lemma lookup_snoc_ne {A} (l : list A) (v : A) (k : nat) :
  k <> length l -> (l ++ [v]) !! k = l !! k.
Proof.
  intros Hk. destruct (decide (k < length l)%nat) as [Hlt|Hge].
  - apply lookup_app_l. exact Hlt.
  - rewrite !lookup_ge_None_2; [reflexivity|lia|].
    rewrite length_app. simpl. lia.
Qed.

Lemma lookup_snoc_eq {A} (l : list A) (v : A) :
  (l ++ [v]) !! length l = Some v.
Proof. rewrite lookup_app_r by lia. rewrite Nat.sub_diag. reflexivity. Qed.

Lemma enumerate_snoc {A} (l : list A) (v : A) :
  enumerate (l ++ [v]) = enumerate l ++ [(Z.of_nat (length l), v)].
Proof.
  unfold enumerate. rewrite imap_app. simpl. rewrite Nat.add_0_r. reflexivity.
Qed.

(** The state of the cell at a position after an assignment to the state
    of the cell at another. *)
Lemma state_set_state (b : Board.t) (h : heap) (X Y x y v : Z) :
  WF b h ->
  0 <= X < Board.N b -> 0 <= Y < Board.N b ->
  0 <= x < Board.N b -> 0 <= y < Board.N b ->
  Cell.state (ref (Board.grid b) x y)
    (Cell.set_state (ref (Board.grid b) X Y) v h) =
    if decide (x = X /\ y = Y) then v else Cell.state (ref (Board.grid b) x y) h.
Proof.
  intros [_ Hinj Hal] HX HY Hx Hy. unfold Cell.state, Cell.set_state.
  case_decide as E.
  - destruct E as [-> ->]. apply list_lookup_total_insert_eq, Hal; assumption.
  - apply list_lookup_total_insert_ne. intros E'. apply Hinj in E'; try assumption.
    apply E. destruct E'. auto.
Qed.

Lemma stamp_row_spec (b : Board.t) (h : heap) (top left i : Z) (row : list Z) :
  WF b h -> 0 <= top + i < Board.N b ->
  0 <= left -> left + Z.of_nat (length row) <= Board.N b ->
  exists h',
    Board.stamp_row b top left (i, row) h = Ok h' /\ length h' = length h /\
    forall x y, 0 <= x < Board.N b -> 0 <= y < Board.N b ->
      Cell.state (ref (Board.grid b) x y) h' =
        default (Cell.state (ref (Board.grid b) x y) h)
          (if decide (x = top + i /\ left <= y)
           then row !! Z.to_nat (y - left) else None).
Proof.
  intros Hwf HX Hleft. unfold Board.stamp_row. simpl.
  induction row as [|v row IH] using rev_ind; intros Hfit.
  - exists h. split; [reflexivity|]. split; [reflexivity|].
    intros x y _ _. case_decide; reflexivity.
  - rewrite length_app in Hfit. simpl in Hfit.
    destruct IH as (h1 & Hrun & Hlen & Hst); [lia|].
    rewrite enumerate_snoc, for_each_app, Hrun. simpl.
    assert (HY : 0 <= left + Z.of_nat (length row) < Board.N b) by lia.
    destruct (Z.leb_spec 0 (top + i)), (Z.ltb_spec (top + i) (Board.N b)),
      (Z.leb_spec 0 (left + Z.of_nat (length row))),
      (Z.ltb_spec (left + Z.of_nat (length row)) (Board.N b)); try lia.
    simpl. rewrite (getitem2_ref _ _ (wf_dims _ _ Hwf)) by lia. simpl.
    eexists. split; [reflexivity|].
    split; [unfold Cell.set_state; rewrite length_insert; exact Hlen|].
    intros x y Hx Hy.
    rewrite (state_set_state b h1) by (try assumption; apply (WF_length b h); assumption).
    rewrite Hst by assumption.
    case_decide as E1.
    + destruct E1 as [-> ->]. rewrite decide_True by lia.
      replace (Z.to_nat (left + Z.of_nat (length row) - left))
        with (length row) by lia.
      rewrite lookup_snoc_eq. reflexivity.
    + case_decide as E2; [|reflexivity].
      rewrite lookup_snoc_ne; [reflexivity|]. intros E3. apply E1. lia.
Qed.

Lemma stamp_spec (b : Board.t) (h : heap) (top left : Z)
  (pattern : list (list Z)) :
  WF b h -> 0 <= top -> 0 <= left ->
  top + Z.of_nat (length pattern) <= Board.N b ->
  (forall row, row ∈ pattern -> left + Z.of_nat (length row) <= Board.N b) ->
  exists h',
    Board.stamp b pattern top left h = Ok h' /\ length h' = length h /\
    forall x y, 0 <= x < Board.N b -> 0 <= y < Board.N b ->
      Cell.state (ref (Board.grid b) x y) h' =
        default (Cell.state (ref (Board.grid b) x y) h)
                (pattern_at pattern top left x y).
Proof.
  intros Hwf Htop Hleft. unfold Board.stamp.
  induction pattern as [|row pattern IH] using rev_ind; intros Hfit Hrows.
  - exists h. split; [reflexivity|]. split; [reflexivity|].
    intros x y _ _. unfold pattern_at. destruct (_ && _); reflexivity.
  - rewrite length_app in Hfit. simpl in Hfit.
    destruct IH as (h1 & Hrun & Hlen & Hst); [lia| |].
    { intros r Hr. apply Hrows, elem_of_app. left. exact Hr. }
    rewrite enumerate_snoc, for_each_app, Hrun. simpl.
    destruct (stamp_row_spec b h1 top left (Z.of_nat (length pattern)) row)
      as (h2 & -> & Hlen2 & Hst2); [apply (WF_length b h); assumption|lia..| |].
    { apply Hrows, elem_of_app. right. left. }
    exists h2. split; [reflexivity|]. split; [congruence|].
    intros x y Hx Hy. rewrite Hst2, Hst by assumption.
    unfold pattern_at. case_decide as E.
    + destruct E as [-> Hy'].
      destruct (Z.leb_spec top (top + Z.of_nat (length pattern))); [|lia].
      destruct (Z.leb_spec left y); [|lia]. simpl.
      replace (Z.to_nat (top + Z.of_nat (length pattern) - top))
        with (length pattern) by lia.
      rewrite lookup_snoc_eq, lookup_ge_None_2 by lia. reflexivity.
    + simpl. destruct (Z.leb_spec top x), (Z.leb_spec left y); simpl;
        try reflexivity.
      rewrite lookup_snoc_ne; [reflexivity|]. intros E'. apply E. lia.
Qed.

Lemma state_fresh (N : Z) (w : bool) (p : Q) (rnd : nat -> Z) (x y : Z) :
  0 <= x < N -> 0 <= y < N ->
  Cell.state (ref (Board.grid (fresh_board N w)) x y)
             (draws p rnd 0 (Z.to_nat N * Z.to_nat N)) =
    draw p (rnd (Z.to_nat x * Z.to_nat N + Z.to_nat y)%nat).
Proof.
  intros Hx Hy. simpl. rewrite ref_fresh_grid by lia.
  unfold Cell.state, draws. change (map ?f ?l) with (f <$> l).
  apply list_lookup_total_correct.
  rewrite list_lookup_fmap, lookup_seq_lt by nia. reflexivity.
Qed.

Lemma draw_sure_eq (p : Q) (raw : Z) : p == 1 -> draw p raw = 1.
Proof.
  intros Hp. unfold draw. rewrite cdf0_sure by exact Hp.
  assert (H : Qle_bool 0 (random_sample raw) = true); [|rewrite H; reflexivity].
  apply Qle_bool_iff.
  unfold random_sample, Qle. simpl.
  pose proof (Z.mod_pos_bound raw (2 ^ 53)). lia.
Qed.

(** C9, as amended.  In pattern-stamp mode, for a rectangular pattern of
    height [h] and width [w] with [N - h >= 1] and [N - w >= 1], the
    constructor succeeds; the origin [(top, left)] it draws has both
    coordinates odd and lets the pattern lie inside the grid; every value of
    the pattern is read back at its place from that origin; and every cell
    outside the stamped region keeps the state that was drawn for it at
    random (for a float [p] in [[0, 1]]: alive exactly when the uniform
    sample of the cell has reached the double [cdf0 p] that numpy computes
    from [1 - p]), which is alive when [p] is 1, the value that the
    simulator passes in this mode. *)
Theorem pattern_stamped_over_drawn_cells (N : Z) (p : Q) (w : bool)
  (row0 : list Z) (rest : list (list Z)) (mode : string) (rnd : nat -> Z) :
  let pattern := row0 :: rest in
  valid_p p = true -> is_float64 p = true ->
  forallb (fun row => Nat.eqb (length row) (length row0)) rest = true ->
  1 <= N - Z.of_nat (length pattern) -> 1 <= N - Z.of_nat (length row0) ->
  exists b h top left,
    Board.__init__ N p w (Some pattern) mode rnd = Ok (b, h) /\
    odd_origin_fits N pattern top left /\
    (forall i j row v, pattern !! i = Some row -> row !! j = Some v ->
       state_at b h (top + Z.of_nat i) (left + Z.of_nat j) = Ok v) /\
    (forall x y, 0 <= x < N -> 0 <= y < N ->
       ~ (top <= x < top + Z.of_nat (length pattern) /\
          left <= y < left + Z.of_nat (length row0)) ->
       state_at b h x y =
         Ok (draw p (rnd (Z.to_nat x * Z.to_nat N + Z.to_nat y)%nat)) /\
       (p == 1 -> state_at b h x y = Ok 1)).
Proof.
  intros pattern Hp _ Hrect Hh Hw. subst pattern.
  assert (Hrows : forall row, row ∈ (row0 :: rest) -> length row = length row0).
  { intros row Hin. apply elem_of_cons in Hin. destruct Hin as [->|Hin]; [reflexivity|].
    rewrite forallb_forall in Hrect.
    apply Nat.eqb_eq, Hrect, list_elem_of_In, Hin. }
  destruct (draw_origin_fits N row0 rest (rnd (Z.to_nat N * Z.to_nat N)%nat)
              (rnd (S (Z.to_nat N * Z.to_nat N))) Hh Hw)
    as (top & left & Hdraw & Hfits & Htop & Hleft).
  set (h0 := draws p rnd 0 (Z.to_nat N * Z.to_nat N)).
  assert (Hwf : WF (fresh_board N w) h0).
  { apply WF_fresh_board. apply length_draws. }
  pose proof Hfits as (_ & _ & _ & _ & Hfh & Hfw). simpl in Hfw.
  destruct (stamp_spec (fresh_board N w) h0 top left (row0 :: rest) Hwf)
    as (h & Hstamp & Hlen & Hst); [simpl Board.N; lia..| |].
  { intros row Hin. rewrite (Hrows row Hin). simpl Board.N. lia. }
  assert (Hwf' : WF (fresh_board N w) h) by (apply (WF_length _ h0); assumption).
  exists (fresh_board N w), h, top, left.
  split.
  { rewrite (init_valid N p w (Some (row0 :: rest)) mode rnd Hp).
    unfold Board._place_pattern. simpl Board.N.
    rewrite Hdraw. simpl. fold h0. rewrite Hstamp. reflexivity. }
  split; [exact Hfits|]. split.
  - intros i j row v Hrow Hv.
    assert (Hi : (i < length (row0 :: rest))%nat) by (eapply lookup_lt_Some; exact Hrow).
    assert (Hj : (j < length row0)%nat).
    { rewrite <- (Hrows row); [eapply lookup_lt_Some; exact Hv|].
      eapply list_elem_of_lookup_2. exact Hrow. }
    destruct (state_at_ref (fresh_board N w) h h (top + Z.of_nat i)
                (left + Z.of_nat j) Hwf') as [_ ->]; [simpl; lia..|].
    rewrite Hst by (simpl; lia). unfold pattern_at.
    destruct (Z.leb_spec top (top + Z.of_nat i)); [|lia].
    destruct (Z.leb_spec left (left + Z.of_nat j)); [|lia]. simpl.
    replace (Z.to_nat (top + Z.of_nat i - top)) with i by lia.
    replace (Z.to_nat (left + Z.of_nat j - left)) with j by lia.
    rewrite Hrow. simpl. rewrite Hv. reflexivity.
  - intros x y Hx Hy Hout.
    destruct (state_at_ref (fresh_board N w) h h x y Hwf') as [_ ->];
      [assumption..|].
    rewrite Hst by assumption.
    assert (Hnone : pattern_at (row0 :: rest) top left x y = None).
    { unfold pattern_at.
      destruct (Z.leb_spec top x), (Z.leb_spec left y); simpl; try reflexivity.
      destruct ((row0 :: rest) !! Z.to_nat (x - top)) as [row|] eqn:Hrow; [|reflexivity].
      simpl. apply lookup_ge_None_2.
      assert ((Z.to_nat (x - top) < length (row0 :: rest))%nat)
        by (eapply lookup_lt_Some; exact Hrow).
      rewrite (Hrows row) by (eapply list_elem_of_lookup_2; exact Hrow).
      lia. }
    rewrite Hnone. subst h0. rewrite state_fresh by assumption. simpl.
    split; [reflexivity|]. intros Hp1. rewrite draw_sure_eq by exact Hp1.
    reflexivity.
Qed.

Lemma pattern_stamped_over_drawn_cells_witness :
  exists b h top left,
    Board.__init__ 6 1 true (Some glider) "Glider" zeros = Ok (b, h) /\
    odd_origin_fits 6 glider top left /\
    (forall i j row v, glider !! i = Some row -> row !! j = Some v ->
       state_at b h (top + Z.of_nat i) (left + Z.of_nat j) = Ok v) /\
    (forall x y, 0 <= x < 6 -> 0 <= y < 6 ->
       ~ (top <= x < top + 4 /\ left <= y < left + 2) ->
       state_at b h x y =
         Ok (draw 1 (zeros (Z.to_nat x * Z.to_nat 6 + Z.to_nat y)%nat)) /\
       (1 == 1 -> state_at b h x y = Ok 1)).
Proof.
  apply (pattern_stamped_over_drawn_cells 6 1 true [0; 1]
           [[1; 0]; [1; 0]; [0; 1]] "Glider" zeros);
    first [reflexivity | simpl; lia].
Defined.

(** C9, as stated, fails: in the glider mode of the simulator, which
    passes [p = 1], the cells outside the stamped region are alive, not
    dead. *)
Lemma glider_background_is_alive :
  (r ← Board.__init__ 6 1 true (Some glider) "Glider" zeros;
   Ok (Board.get_state_array r.1 r.2))
  = Ok [[1; 1; 1; 1; 1; 1]; [1; 0; 1; 1; 1; 1]; [1; 1; 0; 1; 1; 1];
        [1; 1; 0; 1; 1; 1]; [1; 0; 1; 1; 1; 1]; [1; 1; 1; 1; 1; 1]] /\
  (r ← Board.__init__ 6 1 true (Some glider) "Glider" zeros;
   state_at r.1 r.2 0 0) <> Ok 0.
Proof. split; [vm_compute; reflexivity|vm_compute; discriminate]. Qed.

(** ** A generation *)

(** The rule applied to a block keeps the invariant and does not touch
    any position outside the block: the same cell object stays there, in
    the same state. *)
Lemma apply_block_rules_frame (b : Board.t) (h : heap) (i j : Z) :
  WF b h -> is_block b i j = true ->
  exists b' h',
    Board.apply_block_rules b i j h = Ok (b', h') /\ WF b' h' /\
    Board.N b' = Board.N b /\ Board.wraparound b' = Board.wraparound b /\
    forall x y, 0 <= x < Board.N b -> 0 <= y < Board.N b ->
      (x, y) ∉ Board.indices (Board.N b) i j ->
      ref (Board.grid b') x y = ref (Board.grid b) x y /\
      Cell.state (ref (Board.grid b) x y) h' =
        Cell.state (ref (Board.grid b) x y) h.
Proof.
  intros Hwf Hb. rewrite (apply_block_rules_block b h i j Hwf Hb).
  assert (Hflip : forall x y, 0 <= x < Board.N b -> 0 <= y < Board.N b ->
            (x, y) ∉ Board.indices (Board.N b) i j ->
            Cell.state (ref (Board.grid b) x y)
              (Board.flip_all (block_refs (Board.grid b) (Board.N b) i j) h) =
            Cell.state (ref (Board.grid b) x y) h).
  { intros x y Hx Hy Hout.
    rewrite (state_flip_block b h i j Hwf Hb) by assumption.
    rewrite decide_False by exact Hout. reflexivity. }
  destruct (_ =? 2).
  { eexists _, _. split; [reflexivity|]. split; [exact Hwf|]. auto. }
  destruct (_ || _).
  { eexists _, _. split; [reflexivity|].
    split; [apply WF_flip; assumption|]. auto. }
  destruct (_ =? 3).
  - eexists _, _. split; [reflexivity|].
    split; [apply WF_rotate; assumption|].
    split; [reflexivity|]. split; [reflexivity|].
    intros x y Hx Hy Hout. split; [|auto].
    simpl. rewrite ref_rotate by (try lia; try assumption; apply Hwf).
    rewrite rot_outside by assumption. reflexivity.
  - eexists _, _. split; [reflexivity|]. split; [exact Hwf|]. auto.
Qed.

(** C10.  Without wraparound and with [N] even, a step over the list of
    origins built with [start = 1] (the list that [step] takes when [even]
    is true) runs to its end and leaves the border ring as it was: every
    position of row 0, row [N - 1], column 0 and column [N - 1] holds the
    same cell object in the same state. *)
Theorem odd_origins_step_keeps_border (b : Board.t) (h : heap) :
  well_formed b h = true ->
  Board.wraparound b = false -> Z.even (Board.N b) = true ->
  Board.blocks_even b = Board._create_blocks (Board.N b) false 1 ->
  exists b' h',
    Board.step b true h = Ok (b', h') /\
    forall x y, 0 <= x < Board.N b -> 0 <= y < Board.N b ->
      x = 0 \/ x = Board.N b - 1 \/ y = 0 \/ y = Board.N b - 1 ->
      getitem2 (Board.grid b') x y = getitem2 (Board.grid b) x y /\
      state_at b' h' x y = state_at b h x y.
Proof.
  intros Hwf%well_formed_WF Hw Heven Hlist.
  unfold Board.step. rewrite Hlist.
  set (inner := fun ij : Z * Z =>
         1 <= ij.1 /\ ij.1 + 2 <= Board.N b - 1 /\
         1 <= ij.2 /\ ij.2 + 2 <= Board.N b - 1).
  set (keeps := fun s : Board.t * heap =>
         WF s.1 s.2 /\ Board.N s.1 = Board.N b /\
         Board.wraparound s.1 = false /\
         forall x y, 0 <= x < Board.N b -> 0 <= y < Board.N b ->
           x = 0 \/ x = Board.N b - 1 \/ y = 0 \/ y = Board.N b - 1 ->
           ref (Board.grid s.1) x y = ref (Board.grid b) x y /\
           Cell.state (ref (Board.grid b) x y) s.2 =
             Cell.state (ref (Board.grid b) x y) h).
  destruct (for_each_invariant keeps inner
              (Board._create_blocks (Board.N b) false 1)
              (fun ij s => Board.apply_block_rules s.1 ij.1 ij.2 s.2) (b, h))
    as ([b' h'] & Hrun & Hwf' & HN' & _ & Hkeep).
  - intros [i j] [b1 h1] _ (Hi1 & Hi2 & Hj1 & Hj2) (Hwf1 & HN1 & Hw1 & Hk1).
    simpl in *.
    assert (Hb1 : is_block b1 i j = true).
    { apply is_block_spec. rewrite HN1. repeat split; lia. }
    destruct (apply_block_rules_frame b1 h1 i j Hwf1 Hb1)
      as (b2 & h2 & Happ & Hwf2 & HN2 & Hw2 & Hframe).
    exists (b2, h2). split; [exact Happ|]. unfold keeps. simpl.
    split; [exact Hwf2|]. split; [congruence|]. split; [congruence|].
    intros x y Hx Hy Hborder.
    destruct (Hk1 x y Hx Hy Hborder) as [Hr1 Hs1].
    assert (Hout : (x, y) ∉ Board.indices (Board.N b1) i j).
    { rewrite elem_of_indices, HN1, !succ_mod by lia.
      destruct (Z.ltb_spec (i + 1) (Board.N b)), (Z.ltb_spec (j + 1) (Board.N b));
        lia. }
    rewrite HN1 in Hframe.
    destruct (Hframe x y Hx Hy) as [Hr2 Hs2]; [rewrite <- HN1; exact Hout|].
    rewrite Hr1 in Hs2. split; congruence.
  - apply Forall_forall. intros [i j] Hin.
    apply elem_of_create_blocks in Hin.
    destruct Hin as (Hi & Hj & [Hf|[Hi' Hj']]); [discriminate Hf|].
    apply elem_of_py_range in Hi, Hj; try lia.
    apply Z.even_spec in Heven. destruct Heven as [k Hk].
    destruct Hi as [Hi Hmi], Hj as [Hj Hmj].
    apply Z.mod_divide in Hmi, Hmj; try lia.
    destruct Hmi as [qi Hqi], Hmj as [qj Hqj].
    unfold inner. simpl. lia.
  - unfold keeps. simpl. split; [exact Hwf|]. auto.
  - exists b', h'. split; [exact Hrun|].
    intros x y Hx Hy Hborder. simpl in *.
    destruct (Hkeep x y Hx Hy Hborder) as [Hr Hs].
    destruct (state_at_ref b' h' h' x y Hwf') as [-> ->]; try lia.
    destruct (state_at_ref b h h x y Hwf) as [-> ->]; try lia.
    rewrite Hr, Hs. auto.
Qed.

Lemma odd_origins_step_keeps_border_witness :
  exists b' h',
    Board.step (fresh_board 4 false) true states_alive = Ok (b', h') /\
    forall x y, 0 <= x < 4 -> 0 <= y < 4 ->
      x = 0 \/ x = 4 - 1 \/ y = 0 \/ y = 4 - 1 ->
      getitem2 (Board.grid b') x y = getitem2 (fresh_grid 4) x y /\
      state_at b' h' x y = state_at (fresh_board 4 false) states_alive x y.
Proof.
  apply (odd_origins_step_keeps_border (fresh_board 4 false) states_alive);
    vm_compute; reflexivity.
Defined.

Lemma apply_block_rules_fields (b b' : Board.t) (h h' : heap) (i j : Z) :
  Board.apply_block_rules b i j h = Ok (b', h') ->
  Board.N b' = Board.N b /\ Board.wraparound b' = Board.wraparound b /\
  Board.blocks_even b' = Board.blocks_even b /\
  Board.blocks_odd b' = Board.blocks_odd b.
Proof.
  unfold Board.apply_block_rules. intros H.
  destruct (Board.past_edge _ _ _ _); [injection H as <- <-; auto|].
  destruct (Board.N b =? 0); [discriminate H|].
  destruct (mapM _ _) as [cells|]; simpl in H; [|discriminate H].
  destruct (_ =? 2); [injection H as <- <-; auto|].
  destruct (_ || _); [injection H as <- <-; auto|].
  destruct (_ =? 3); [|injection H as <- <-; auto].
  destruct (Board.swap_items (Board.grid b) _ _ _ _) as [g1|]; simpl in H;
    [|discriminate H].
  destruct (Board.swap_items g1 _ _ _ _) as [g2|]; simpl in H;
    [|discriminate H].
  injection H as <- <-. auto.
Qed.

Lemma for_each_rules_fields (blocks : list (Z * Z)) (b b' : Board.t) (h h' : heap) :
  for_each blocks (fun ij s => Board.apply_block_rules s.1 ij.1 ij.2 s.2) (b, h)
    = Ok (b', h') ->
  Board.N b' = Board.N b /\ Board.wraparound b' = Board.wraparound b /\
  Board.blocks_even b' = Board.blocks_even b /\
  Board.blocks_odd b' = Board.blocks_odd b.
Proof.
  revert b h. induction blocks as [|[i j] blocks IH]; intros b h H; simpl in H.
  - injection H as <- <-. auto.
  - destruct (Board.apply_block_rules b i j h) as [[b1 h1]|] eqn:E;
      simpl in H; [|discriminate H].
    apply apply_block_rules_fields in E. apply IH in H.
    destruct E as (E1 & E2 & E3 & E4), H as (H1 & H2 & H3 & H4).
    repeat split; congruence.
Qed.

(** The lists of block origins are computed once, by the constructor, and
    the board of an engine keeps them and the size and wraparound flag of
    the engine. *)
Lemma reachable_lists (g : GameManager.t) (h : heap) :
  reachable g h ->
  lists_as_built (GameManager.board g) /\
  Board.N (GameManager.board g) = GameManager.N g /\
  Board.wraparound (GameManager.board g) = GameManager.wraparound g.
Proof.
  induction 1 as [N p ms w gl mode rnd g h Hinit|g h g' h' _ IH Hstep].
  - unfold GameManager.__init__ in Hinit.
    destruct (Board.__init__ N p w gl mode rnd) as [[b h0]|] eqn:E;
      simpl in Hinit; [|discriminate Hinit].
    injection Hinit as <- <-. simpl.
    apply init_fields in E. destruct E as (EN & Ew & He & Ho).
    unfold lists_as_built. rewrite EN, Ew. auto.
  - unfold GameManager.step in Hstep.
    destruct (Board.step _ _ _) as [[b1 h1]|] eqn:E; simpl in Hstep;
      [|discriminate Hstep].
    injection Hstep as <- <-. simpl.
    assert (Hsame : Board.N b1 = Board.N (GameManager.board g) /\
              Board.wraparound b1 = Board.wraparound (GameManager.board g) /\
              Board.blocks_even b1 = Board.blocks_even (GameManager.board g) /\
              Board.blocks_odd b1 = Board.blocks_odd (GameManager.board g)).
    { unfold Board.step in E. apply for_each_rules_fields in E. exact E. }
    destruct IH as ([He Ho] & HN & Hw), Hsame as (EN & Ew & Ee & Eo).
    unfold lists_as_built. rewrite EN, Ew, Ee, Eo. auto.
Qed.

Lemma origins_from_start (N : Z) (w : bool) (start i j : Z) :
  (i, j) ∈ Board._create_blocks N w start <->
  (exists a b, 0 <= a /\ 0 <= b /\ i = start + 2 * a /\ j = start + 2 * b) /\
  i < N /\ j < N /\ (w = true \/ (i + 1 < N /\ j + 1 < N)).
Proof.
  rewrite elem_of_create_blocks, !elem_of_py_range by lia. split.
  - intros ([Hi Hmi] & [Hj Hmj] & Hw).
    apply Z.mod_divide in Hmi, Hmj; try lia.
    destruct Hmi as [a Ha], Hmj as [b Hb].
    split; [exists a, b; lia|]. split; [lia|]. split; [lia|exact Hw].
  - intros ((a & b & Ha & Hb & -> & ->) & Hi & Hj & Hw).
    replace (start + 2 * a - start) with (a * 2) by lia.
    replace (start + 2 * b - start) with (b * 2) by lia.
    rewrite !Z.mod_mul by lia. repeat split; try lia. exact Hw.
Qed.

(** C1, as amended.  For every engine, a call to [step()] with an even step
    counter applies the block rule to the origins of the list built with
    [start = 1] (kept as [blocks_even]), which are the positions
    [(1 + 2a, 1 + 2b)] of the grid, and a call with an odd step counter
    applies it to the origins of the list built with [start = 0] (kept as
    [blocks_odd]), which are the positions [(2a, 2b)]; the step counter
    then grows by one. *)
Theorem step_takes_list_by_parity (g : GameManager.t) (h : heap) :
  reachable g h ->
  let N := GameManager.N g in
  let w := GameManager.wraparound g in
  (GameManager.current_step g mod 2 = 0 ->
   GameManager.step g h = step_over g (Board._create_blocks N w 1) h) /\
  (GameManager.current_step g mod 2 = 1 ->
   GameManager.step g h = step_over g (Board._create_blocks N w 0) h) /\
  (forall start i j,
     (i, j) ∈ Board._create_blocks N w start <->
     (exists a b, 0 <= a /\ 0 <= b /\ i = start + 2 * a /\ j = start + 2 * b) /\
     i < N /\ j < N /\ (w = true \/ (i + 1 < N /\ j + 1 < N))).
Proof.
  intros Hr N w. destruct (reachable_lists g h Hr) as ([He Ho] & HN & Hw).
  fold N in HN. fold w in Hw. rewrite HN, Hw in He, Ho.
  split; [|split].
  - intros Hpar. unfold GameManager.step, step_over, Board.step.
    rewrite Hpar. simpl. rewrite He. reflexivity.
  - intros Hpar. unfold GameManager.step, step_over, Board.step.
    rewrite Hpar. simpl. rewrite Ho. reflexivity.
  - intros start i j. apply origins_from_start.
Qed.

Lemma step_takes_list_by_parity_witness :
  exists g h,
    GameManager.__init__ 6 1 250 true (Some glider) "Glider" zeros = Ok (g, h) /\
    GameManager.current_step g mod 2 = 0 /\
    GameManager.step g h = step_over g (Board._create_blocks 6 true 1) h.
Proof.
  destruct (GameManager.__init__ 6 1 250 true (Some glider) "Glider" zeros)
    as [[g h]|e] eqn:E; [|vm_compute in E; discriminate E].
  exists g, h. split; [reflexivity|].
  assert (Hg : GameManager.N g = 6 /\ GameManager.wraparound g = true /\
               GameManager.current_step g = 0).
  { vm_compute in E. injection E as <- <-. repeat split. }
  destruct Hg as (HN & Hw & Hc).
  assert (Hpar : GameManager.current_step g mod 2 = 0) by (rewrite Hc; reflexivity).
  split; [exact Hpar|].
  pose proof (step_takes_list_by_parity g h
                (reach_init 6 1 250 true (Some glider) "Glider" zeros g h E))
    as (Heven & _).
  rewrite HN, Hw in Heven. exact (Heven Hpar).
Defined.

(** C1, as stated, fails: the engine that the simulator builds in glider
    mode has step counter 0, and its first [step()] does not apply the rule
    to the tiling whose origins start at [(0, 0)]; the list it takes starts
    at [(1, 1)]. *)
Lemma even_counter_takes_origins_from_1_1 :
  exists g h,
    GameManager.__init__ 6 1 250 true (Some glider) "Glider" zeros = Ok (g, h) /\
    GameManager.current_step g = 0 /\
    shown (GameManager.step g h) <>
      shown (step_over g (Board._create_blocks 6 true 0) h) /\
    shown (GameManager.step g h) =
      shown (step_over g [(1, 1); (1, 3); (1, 5); (3, 1); (3, 3); (3, 5);
                          (5, 1); (5, 3); (5, 5)] h).
Proof.
  eexists _, _. split; [vm_compute; reflexivity|].
  split; [reflexivity|]. split; [vm_compute; discriminate|].
  vm_compute. reflexivity.
Qed.

(** ** The invariant along the life of an engine *)

Lemma NoDup_distinct (l : list loc) : NoDup l -> distinct l = true.
Proof.
  induction 1 as [|x l Hx _ IH]; simpl; [reflexivity|].
  rewrite IH, andb_true_r. apply negb_true_iff.
  destruct (existsb (Nat.eqb x) l) eqn:E; [|reflexivity].
  apply existsb_exists in E. destruct E as (y & Hy & Exy).
  apply Nat.eqb_eq in Exy. subst y. apply list_elem_of_In in Hy. contradiction.
Qed.

Lemma length_concat_grid (n : nat) (g : list (list loc)) :
  (forall row, row ∈ g -> length row = n) ->
  length (concat g) = (length g * n)%nat.
Proof.
  induction g as [|row g IH]; intros Hrows; simpl; [reflexivity|].
  rewrite length_app, IH, (Hrows row) by (try left; intros r Hr; apply Hrows; right; exact Hr).
  reflexivity.
Qed.

(** Every entry of the array, read in row-major order, is the cell of a
    position of the grid. *)
Lemma concat_lookup_ref (b : Board.t) (k : nat) (c : loc) :
  dims (Z.to_nat (Board.N b)) (Board.grid b) ->
  concat (Board.grid b) !! k = Some c ->
  exists x y, 0 <= x < Board.N b /\ 0 <= y < Board.N b /\
    c = ref (Board.grid b) x y /\
    k = (Z.to_nat x * Z.to_nat (Board.N b) + Z.to_nat y)%nat.
Proof.
  intros [Hlen Hrows] Hk. set (n := Z.to_nat (Board.N b)) in *.
  assert (Hlt : (k < n * n)%nat).
  { apply lookup_lt_Some in Hk.
    rewrite (length_concat_grid n) in Hk by exact Hrows. lia. }
  assert (Hn : (0 < n)%nat) by lia.
  assert (HX : (k / n < n)%nat) by (apply Nat.Div0.div_lt_upper_bound; lia).
  assert (HY : (k mod n < n)%nat) by (apply Nat.mod_upper_bound; lia).
  assert (Ek : k = (k / n * n + k mod n)%nat).
  { pose proof (Nat.div_mod_eq k n). lia. }
  exists (Z.of_nat (k / n)), (Z.of_nat (k mod n)).
  split; [lia|]. split; [lia|]. rewrite !Nat2Z.id. split; [|exact Ek].
  pose proof (lookup_concat_grid n (Board.grid b) (k / n) (k mod n) Hrows) as Hl.
  rewrite <- Ek in Hl. rewrite Hl in Hk by lia.
  injection Hk as <-. unfold ref. rewrite !Nat2Z.id. reflexivity.
Qed.

Lemma WF_well_formed (b : Board.t) (h : heap) :
  WF b h -> well_formed b h = true.
Proof.
  intros [Hd Hinj Hal]. pose proof Hd as [Hlen Hrows].
  unfold well_formed. rewrite !andb_true_iff. repeat split.
  - apply Nat.eqb_eq. exact Hlen.
  - apply forallb_forall. intros row Hin. apply Nat.eqb_eq, Hrows, list_elem_of_In, Hin.
  - apply NoDup_distinct, NoDup_alt. intros k k' c Hk Hk'.
    destruct (concat_lookup_ref b k c Hd Hk) as (x & y & Hx & Hy & -> & ->).
    destruct (concat_lookup_ref b k' _ Hd Hk') as (x' & y' & Hx' & Hy' & E & ->).
    apply Hinj in E; try assumption. destruct E as [-> ->]. reflexivity.
  - apply forallb_forall. intros c Hin.
    apply list_elem_of_In, list_elem_of_lookup in Hin. destruct Hin as [k Hk].
    destruct (concat_lookup_ref b k c Hd Hk) as (x & y & Hx & Hy & -> & _).
    apply Nat.ltb_lt, Hal; assumption.
Qed.

Lemma norm_in_range (n : nat) (x x' : Z) :
  norm n x = Some x' -> 0 <= x' < Z.of_nat n.
Proof.
  unfold norm. intros H.
  destruct (Z.leb_spec 0 x), (Z.ltb_spec x (Z.of_nat n)); simpl in H;
    try (injection H as <-; lia);
    destruct (Z.leb_spec (- Z.of_nat n) x), (Z.ltb_spec x 0); simpl in H;
    try discriminate H; injection H as <-; lia.
Qed.

Lemma py_index_norm (n : nat) (x : Z) :
  py_index n x =
    match norm n x with
    | Some x' => Ok (Z.to_nat x')
    | None => Raise IndexError
    end.
Proof.
  unfold py_index, norm.
  destruct (_ && _); [reflexivity|]. destruct (_ && _); reflexivity.
Qed.

Lemma getitem2_norm (n : nat) (g : list (list loc)) (x y : Z) :
  dims n g ->
  getitem2 g x y =
    match norm n x, norm n y with
    | Some x', Some y' => Ok (ref g x' y')
    | _, _ => Raise IndexError
    end.
Proof.
  intros Hd. pose proof Hd as [Hlen _]. unfold getitem2.
  rewrite Hlen, py_index_norm.
  destruct (norm n x) as [x'|] eqn:Ex; [|reflexivity]. simpl.
  apply norm_in_range in Ex.
  destruct (dims_row n g Hd x' Ex) as [-> Hrow]. rewrite Hrow, py_index_norm.
  destruct (norm n y) as [y'|] eqn:Ey; [|reflexivity]. simpl.
  apply norm_in_range in Ey.
  rewrite list_lookup_lookup_total_lt by lia. reflexivity.
Qed.

Lemma setitem2_norm (n : nat) (g : list (list loc)) (x y : Z) (v : loc) :
  dims n g ->
  setitem2 g x y v =
    match norm n x, norm n y with
    | Some x', Some y' => Ok (upd g x' y' v)
    | _, _ => Raise IndexError
    end.
Proof.
  intros Hd. pose proof Hd as [Hlen _]. unfold setitem2.
  rewrite Hlen, py_index_norm.
  destruct (norm n x) as [x'|] eqn:Ex; [|reflexivity]. simpl.
  apply norm_in_range in Ex.
  destruct (dims_row n g Hd x' Ex) as [-> Hrow]. rewrite Hrow, py_index_norm.
  destruct (norm n y) as [y'|] eqn:Ey; reflexivity.
Qed.

(** A swap that succeeds exchanges the entries of two positions of the
    array. *)
Lemma swap_items_Ok (n : nat) (g g' : list (list loc)) (x1 y1 x2 y2 : Z) :
  dims n g -> Board.swap_items g x1 y1 x2 y2 = Ok g' ->
  exists p1 q1 p2 q2,
    0 <= p1 < Z.of_nat n /\ 0 <= q1 < Z.of_nat n /\
    0 <= p2 < Z.of_nat n /\ 0 <= q2 < Z.of_nat n /\
    g' = swap g p1 q1 p2 q2.
Proof.
  intros Hd. unfold Board.swap_items.
  rewrite !(getitem2_norm n g) by exact Hd.
  destruct (norm n x2) as [p2|] eqn:E3; [|discriminate].
  destruct (norm n y2) as [q2|] eqn:E4; [|discriminate].
  destruct (norm n x1) as [p1|] eqn:E1; [|discriminate].
  destruct (norm n y1) as [q1|] eqn:E2; [|discriminate].
  simpl. rewrite (setitem2_norm n g) by exact Hd. rewrite E1, E2. simpl.
  rewrite (setitem2_norm n) by (apply dims_upd; exact Hd). rewrite E3, E4.
  intros [= <-]. apply norm_in_range in E1, E2, E3, E4.
  exists p1, q1, p2, q2. auto.
Qed.

Lemma WF_swap (b : Board.t) (h : heap) (p1 q1 p2 q2 : Z) :
  WF b h ->
  0 <= p1 < Board.N b -> 0 <= q1 < Board.N b ->
  0 <= p2 < Board.N b -> 0 <= q2 < Board.N b ->
  WF (Board.with_grid b (swap (Board.grid b) p1 q1 p2 q2)) h.
Proof.
  intros [Hd Hinj Hal] H1 H2 H3 H4.
  assert (Href : forall x y, 0 <= x < Board.N b -> 0 <= y < Board.N b ->
            exists x' y', 0 <= x' < Board.N b /\ 0 <= y' < Board.N b /\
              ref (swap (Board.grid b) p1 q1 p2 q2) x y = ref (Board.grid b) x' y' /\
              (x, y) = (if decide ((x', y') = (p2, q2)) then (p1, q1)
                        else if decide ((x', y') = (p1, q1)) then (p2, q2)
                        else (x', y'))).
  { intros x y Hx Hy.
    rewrite (ref_swap (Z.to_nat (Board.N b))) by (try lia; exact Hd).
    destruct (decide ((x, y) = (p2, q2))) as [E|E].
    - injection E as -> ->. exists p1, q1. repeat split; try lia.
      repeat case_decide; simplify_eq; reflexivity.
    - destruct (decide ((x, y) = (p1, q1))) as [E'|E'].
      + injection E' as -> ->. exists p2, q2. repeat split; try lia.
        rewrite decide_True by reflexivity. reflexivity.
      + exists x, y. repeat split; try lia.
        rewrite !decide_False by assumption. reflexivity. }
  split; simpl.
  - apply dims_swap. exact Hd.
  - intros x y x' y' Hx Hy Hx' Hy' E.
    destruct (Href x y Hx Hy) as (u & v & Hu & Hv & Er & Ep).
    destruct (Href x' y' Hx' Hy') as (u' & v' & Hu' & Hv' & Er' & Ep').
    rewrite Er, Er' in E. apply Hinj in E; try assumption.
    destruct E as [-> ->]. rewrite <- Ep' in Ep. injection Ep as -> ->. auto.
  - intros x y Hx Hy.
    destruct (Href x y Hx Hy) as (u & v & Hu & Hv & -> & _).
    apply Hal; assumption.
Qed.

(** Whatever the origin it is called on, the rule keeps the invariant. *)
Lemma apply_block_rules_WF (b b' : Board.t) (h h' : heap) (i j : Z) :
  WF b h -> Board.apply_block_rules b i j h = Ok (b', h') -> WF b' h'.
Proof.
  intros Hwf. unfold Board.apply_block_rules. intros H.
  destruct (Board.past_edge _ _ _ _); [injection H as <- <-; exact Hwf|].
  destruct (Board.N b =? 0); [discriminate H|].
  destruct (mapM _ _) as [cells|]; simpl in H; [|discriminate H].
  assert (Hflip : WF b (Board.flip_all cells h)).
  { apply (WF_length b h); [exact Hwf|apply length_flip_all]. }
  destruct (_ =? 2); [injection H as <- <-; exact Hwf|].
  destruct (_ || _); [injection H as <- <-; exact Hflip|].
  destruct (_ =? 3); [|injection H as <- <-; exact Hwf].
  destruct (Board.swap_items (Board.grid b) _ _ _ _) as [g1|] eqn:E1;
    simpl in H; [|discriminate H].
  destruct (Board.swap_items g1 _ _ _ _) as [g2|] eqn:E2; simpl in H;
    [|discriminate H].
  injection H as <- <-.
  apply (swap_items_Ok _ _ _ _ _ _ _ (wf_dims _ _ Hflip)) in E1.
  destruct E1 as (p1 & q1 & p2 & q2 & H1 & H2 & H3 & H4 & ->).
  pose proof (WF_swap b _ p1 q1 p2 q2 Hflip) as Hwf1.
  specialize (Hwf1 ltac:(lia) ltac:(lia) ltac:(lia) ltac:(lia)).
  apply (swap_items_Ok _ _ _ _ _ _ _ (wf_dims _ _ Hwf1)) in E2.
  destruct E2 as (p1' & q1' & p2' & q2' & H1' & H2' & H3' & H4' & ->).
  simpl in H1', H2', H3', H4'.
  apply (WF_swap _ _ p1' q1' p2' q2' Hwf1); simpl; lia.
Qed.

(** A property kept by every run of the body of a loop that returns is
    kept by every run of the loop that returns. *)
Lemma for_each_keeps {A S} (P : S -> Prop) (l : list A)
  (body : A -> S -> result S) (s s' : S) :
  (forall x s s', P s -> body x s = Ok s' -> P s') ->
  P s -> for_each l body s = Ok s' -> P s'.
Proof.
  intros Hbody. revert s. induction l as [|x l IH]; intros s HP H; simpl in H.
  - injection H as <-. exact HP.
  - destruct (body x s) as [s1|] eqn:E; simpl in H; [|discriminate H].
    apply (IH s1); [eapply Hbody; eassumption|exact H].
Qed.

Lemma initialize_with_length (f : Z -> Z -> Z) (b : Board.t) (h h' : heap) :
  Board.initialize_with f b h = Ok h' -> length h' = length h.
Proof.
  unfold Board.initialize_with.
  apply (for_each_keeps (fun h1 => length h1 = length h)); [|reflexivity].
  intros i h1 h2 Hlen.
  apply (for_each_keeps (fun h1 => length h1 = length h)); [|exact Hlen].
  intros j h3 h4 Hlen3 Hset.
  destruct (getitem2 _ _ _) as [c|]; simpl in Hset; [|discriminate Hset].
  injection Hset as <-. unfold Cell.set_state. rewrite length_insert. exact Hlen3.
Qed.

Lemma place_pattern_length (b : Board.t) (pattern : list (list Z))
  (raw1 raw2 : Z) (h h' : heap) :
  Board._place_pattern b pattern raw1 raw2 h = Ok h' -> length h' = length h.
Proof.
  unfold Board._place_pattern.
  destruct (Board.draw_origin _ _ _ _) as [[top left]|]; simpl;
    [|discriminate].
  unfold Board.stamp.
  apply (for_each_keeps (fun h1 => length h1 = length h)); [|reflexivity].
  intros irow h1 h2 Hlen. unfold Board.stamp_row.
  apply (for_each_keeps (fun h1 => length h1 = length h)); [|exact Hlen].
  intros jval h3 h4 Hlen3 Hset. simpl in Hset.
  destruct (_ && _); [|injection Hset as <-; exact Hlen3].
  destruct (getitem2 _ _ _) as [c|]; simpl in Hset; [|discriminate Hset].
  injection Hset as <-. unfold Cell.set_state. rewrite length_insert. exact Hlen3.
Qed.

Lemma new_rows_Ok (p : Q) (rnd : nat -> Z) (n : nat) (g : list (list loc))
  (s : heap * nat) :
  Board.new_rows p rnd n n ([], O) = Ok (g, s) ->
  g = fresh_grid n /\ length s.1 = (n * n)%nat.
Proof.
  destruct (valid_p p) eqn:Hp.
  - rewrite new_rows_valid by exact Hp. intros [= <- <-]. simpl.
    rewrite length_draws. split; reflexivity.
  - destruct n as [|n]; [intros [= <- <-]; split; reflexivity|].
    rewrite new_rows_invalid by (try exact Hp; lia). discriminate.
Qed.

(** The constructor establishes the invariant. *)
Lemma init_WF (N : Z) (p : Q) (w : bool) (gl : option (list (list Z)))
  (mode : string) (rnd : nat -> Z) (b : Board.t) (h : heap) :
  Board.__init__ N p w gl mode rnd = Ok (b, h) -> WF b h.
Proof.
  unfold Board.__init__. intros H.
  destruct (Board.new_rows _ _ _ _ _) as [[g s]|] eqn:E; simpl in H;
    [|discriminate H].
  apply new_rows_Ok in E. destruct E as [-> Hlen].
  fold (fresh_board N w) in H.
  pose proof (WF_fresh_board N w s.1 Hlen) as Hwf.
  destruct gl as [pattern|].
  - destruct (Board._place_pattern _ _ _ _ _) as [h1|] eqn:E; simpl in H;
      [|discriminate H].
    injection H as <- <-. apply place_pattern_length in E.
    apply (WF_length _ s.1); assumption.
  - destruct (String.eqb mode "Odd Columns Alive").
    { destruct (Board._initialize_odd_columns _ _) as [h1|] eqn:E; simpl in H;
        [|discriminate H].
      injection H as <- <-. apply initialize_with_length in E.
      apply (WF_length _ s.1); assumption. }
    destruct (String.eqb mode "Odd Diagonals Alive").
    { destruct (Board._initialize_diagonal_pattern _ _) as [h1|] eqn:E;
        simpl in H; [|discriminate H].
      injection H as <- <-. apply initialize_with_length in E.
      apply (WF_length _ s.1); assumption. }
    injection H as <- <-. exact Hwf.
Qed.

Lemma step_WF (b b' : Board.t) (even : bool) (h h' : heap) :
  WF b h -> Board.step b even h = Ok (b', h') -> WF b' h'.
Proof.
  intros Hwf H. unfold Board.step in H.
  refine (for_each_keeps (fun s : Board.t * heap => WF s.1 s.2) _ _ (b, h)
            (b', h') _ Hwf H).
  intros [i j] [b1 h1] [b2 h2] Hs Happ. simpl in *.
  apply (apply_block_rules_WF b1 b2 h1 h2 i j Hs Happ).
Qed.

Lemma reachable_WF (g : GameManager.t) (h : heap) :
  reachable g h -> WF (GameManager.board g) h.
Proof.
  intros Hr.
  induction Hr as [N p ms w gl mode rnd g h Hinit|g h g' h' _ IH Hstep].
  - unfold GameManager.__init__ in Hinit.
    destruct (Board.__init__ N p w gl mode rnd) as [[b h0]|] eqn:E;
      simpl in Hinit; [|discriminate Hinit].
    injection Hinit as <- <-. simpl. apply init_WF in E. exact E.
  - unfold GameManager.step in Hstep.
    destruct (Board.step _ _ _) as [[b1 h1]|] eqn:E; simpl in Hstep;
      [|discriminate Hstep].
    injection Hstep as <- <-. simpl. apply (step_WF _ _ _ _ _ IH E).
Qed.

(** Flipping keeps the states binary, so a step does. *)
Lemma binary_flip_all (cells : list loc) (h : heap) :
  binary h = true -> binary (Board.flip_all cells h) = true.
Proof.
  revert h. induction cells as [|c cells IH]; intros h Hb; [exact Hb|].
  rewrite flip_all_cons. apply IH. unfold binary in *.
  rewrite forallb_forall in *. intros s Hin.
  apply list_elem_of_In in Hin. unfold Cell.flip in Hin.
  apply list_elem_of_lookup in Hin. destruct Hin as [k Hk].
  rewrite list_lookup_alter in Hk. case_decide as E.
  - destruct (h !! c) as [s0|] eqn:E0; simpl in Hk; [|discriminate Hk].
    injection Hk as <-.
    assert (Hs0 : In s0 h) by (apply list_elem_of_In; eapply list_elem_of_lookup_2; exact E0).
    specialize (Hb _ Hs0). apply orb_true_iff in Hb. rewrite !Z.eqb_eq in Hb.
    destruct Hb as [-> | ->]; reflexivity.
  - apply Hb, list_elem_of_In. eapply list_elem_of_lookup_2. exact Hk.
Qed.

Lemma step_binary (b b' : Board.t) (even : bool) (h h' : heap) :
  binary h = true -> Board.step b even h = Ok (b', h') -> binary h' = true.
Proof.
  intros Hb H. unfold Board.step in H.
  refine (for_each_keeps (fun s : Board.t * heap => binary s.2 = true) _ _
            (b, h) (b', h') _ Hb H).
  intros [i j] [b1 h1] [b2 h2] Hs. simpl in *.
  unfold Board.apply_block_rules. intros Happ.
  destruct (Board.past_edge _ _ _ _); [injection Happ as <- <-; exact Hs|].
  destruct (Board.N b1 =? 0); [discriminate Happ|].
  destruct (mapM _ _) as [cells|]; simpl in Happ; [|discriminate Happ].
  destruct (_ =? 2); [injection Happ as <- <-; exact Hs|].
  destruct (_ || _); [injection Happ as <- <-; apply binary_flip_all, Hs|].
  destruct (_ =? 3); [|injection Happ as <- <-; exact Hs].
  destruct (Board.swap_items (Board.grid b1) _ _ _ _) as [g1|]; simpl in Happ;
    [|discriminate Happ].
  destruct (Board.swap_items g1 _ _ _ _) as [g2|]; simpl in Happ;
    [|discriminate Happ].
  injection Happ as <- <-. apply binary_flip_all, Hs.
Qed.

(** ** Properties beyond the block rule *)

(** *** Stepping never raises *)

(** On an origin inside the grid the rule returns, whatever the size of the
    grid: behind the guard, every index is reduced into the grid. *)
Lemma apply_block_rules_in_grid (b : Board.t) (h : heap) (i j : Z) :
  WF b h -> 0 <= i < Board.N b -> 0 <= j < Board.N b ->
  exists b' h', Board.apply_block_rules b i j h = Ok (b', h').
Proof.
  intros Hwf Hi Hj. pose proof (wf_dims _ _ Hwf) as Hd.
  pose proof (Z.mod_pos_bound (i + 1) (Board.N b)).
  pose proof (Z.mod_pos_bound (j + 1) (Board.N b)).
  unfold Board.apply_block_rules.
  destruct (Board.past_edge _ _ _ _); [eauto|].
  destruct (Z.eqb_spec (Board.N b) 0) as [E|_]; [lia|].
  unfold Board.indices. simpl.
  rewrite !(getitem2_ref _ _ Hd) by lia. simpl.
  destruct (_ =? 2); [eauto|]. destruct (_ || _); [eauto|].
  destruct (_ =? 3); [|eauto].
  rewrite (swap_items_swap _ _ _ _ _ _ Hd) by lia. simpl.
  rewrite (swap_items_swap (Z.to_nat (Board.N b)))
    by (try apply dims_swap; try lia; exact Hd).
  simpl. eauto.
Qed.

Lemma origins_in_grid (N : Z) (w : bool) (start i j : Z) :
  0 <= start -> (i, j) ∈ Board._create_blocks N w start ->
  0 <= i < N /\ 0 <= j < N.
Proof.
  intros Hs Hin. apply elem_of_create_blocks in Hin.
  destruct Hin as (Hi & Hj & _). apply elem_of_py_range in Hi, Hj; lia.
Qed.

Lemma step_in_grid (b : Board.t) (h : heap) (blocks : list (Z * Z)) :
  WF b h ->
  (forall i j, (i, j) ∈ blocks -> 0 <= i < Board.N b /\ 0 <= j < Board.N b) ->
  exists b' h',
    for_each blocks (fun ij s => Board.apply_block_rules s.1 ij.1 ij.2 s.2) (b, h)
    = Ok (b', h').
Proof.
  intros Hwf Hin.
  destruct (for_each_invariant
              (fun s : Board.t * heap => WF s.1 s.2 /\ Board.N s.1 = Board.N b)
              (fun ij : Z * Z => 0 <= ij.1 < Board.N b /\ 0 <= ij.2 < Board.N b)
              blocks
              (fun ij s => Board.apply_block_rules s.1 ij.1 ij.2 s.2) (b, h))
    as ([b' h'] & Hrun & _).
  - intros [i j] [b1 h1] _ [Hi Hj] [Hwf1 HN1]. simpl in *.
    destruct (apply_block_rules_in_grid b1 h1 i j Hwf1) as (b2 & h2 & Happ);
      [lia..|].
    exists (b2, h2). split; [exact Happ|]. simpl. split.
    + eapply apply_block_rules_WF; eassumption.
    + apply apply_block_rules_fields in Happ. destruct Happ as [-> _]. exact HN1.
  - apply Forall_forall. intros [i j] Hij. apply Hin. exact Hij.
  - split; [exact Hwf|reflexivity].
  - eauto.
Qed.

(** X1.  A call to [step()] on an engine of the program whose states are
    zeros and ones, as they are for every engine built without a pattern
    or with a pattern of zeros and ones, never raises: it returns an engine
    whose step counter is one more, with the same size, probability, step
    limit, wraparound flag and lists of block origins. *)
Theorem step_never_raises (g : GameManager.t) (h : heap) :
  reachable g h -> binary h = true ->
  exists g' h',
    GameManager.step g h = Ok (g', h') /\
    GameManager.current_step g' = GameManager.current_step g + 1 /\
    GameManager.N g' = GameManager.N g /\
    GameManager.p g' = GameManager.p g /\
    GameManager.max_steps g' = GameManager.max_steps g /\
    GameManager.wraparound g' = GameManager.wraparound g /\
    Board.blocks_even (GameManager.board g') =
      Board.blocks_even (GameManager.board g) /\
    Board.blocks_odd (GameManager.board g') =
      Board.blocks_odd (GameManager.board g).
Proof.
  intros Hr _. pose proof (reachable_WF g h Hr) as Hwf.
  destruct (reachable_lists g h Hr) as ([He Ho] & _ & _).
  unfold GameManager.step, Board.step.
  set (blocks := if GameManager.current_step g mod 2 =? 0
                 then Board.blocks_even (GameManager.board g)
                 else Board.blocks_odd (GameManager.board g)).
  destruct (step_in_grid (GameManager.board g) h blocks Hwf)
    as (b' & h' & Hrun).
  { intros i j Hin. subst blocks.
    destruct (_ =? 0); [rewrite He in Hin|rewrite Ho in Hin];
      apply origins_in_grid in Hin; (lia || exact Hin). }
  rewrite Hrun. simpl. eexists _, _. split; [reflexivity|]. simpl.
  apply for_each_rules_fields in Hrun. destruct Hrun as (_ & _ & Ee & Eo).
  repeat split; assumption.
Qed.

Lemma step_never_raises_witness :
  exists g h,
    GameManager.__init__ 6 1 250 true (Some glider) "Glider" zeros = Ok (g, h) /\
    exists g' h',
      GameManager.step g h = Ok (g', h') /\
      GameManager.current_step g' = GameManager.current_step g + 1 /\
      GameManager.N g' = GameManager.N g /\
      GameManager.p g' = GameManager.p g /\
      GameManager.max_steps g' = GameManager.max_steps g /\
      GameManager.wraparound g' = GameManager.wraparound g /\
      Board.blocks_even (GameManager.board g') =
        Board.blocks_even (GameManager.board g) /\
      Board.blocks_odd (GameManager.board g') =
        Board.blocks_odd (GameManager.board g).
Proof.
  eexists _, _. split; [vm_compute; reflexivity|].
  apply step_never_raises.
  - apply (reach_init 6 1 250 true (Some glider) "Glider" zeros).
    vm_compute. reflexivity.
  - vm_compute. reflexivity.
Defined.

(** X2.  The board of every engine of the program is an [N] by [N] array
    of pairwise different cell objects of its store: no construction and no
    step loses a cell or puts one cell at two positions. *)
Theorem engine_board_well_formed (g : GameManager.t) (h : heap) :
  reachable g h ->
  well_formed (GameManager.board g) h = true /\
  length (Board.grid (GameManager.board g)) = Z.to_nat (GameManager.N g) /\
  forall x y x' y',
    0 <= x < GameManager.N g -> 0 <= y < GameManager.N g ->
    0 <= x' < GameManager.N g -> 0 <= y' < GameManager.N g ->
    getitem2 (Board.grid (GameManager.board g)) x y =
      getitem2 (Board.grid (GameManager.board g)) x' y' ->
    x = x' /\ y = y'.
Proof.
  intros Hr. pose proof (reachable_WF g h Hr) as Hwf.
  destruct (reachable_lists g h Hr) as (_ & HN & _).
  split; [apply WF_well_formed; exact Hwf|].
  rewrite <- HN. split; [apply Hwf|].
  intros x y x' y' Hx Hy Hx' Hy' E.
  destruct (state_at_ref _ h h x y Hwf Hx Hy) as [E1 _].
  destruct (state_at_ref _ h h x' y' Hwf Hx' Hy') as [E2 _].
  rewrite E1, E2 in E. injection E as E.
  apply (wf_inj _ _ Hwf) in E; assumption.
Qed.

Lemma engine_board_well_formed_witness :
  exists g h,
    GameManager.__init__ 6 1 250 true (Some glider) "Glider" zeros = Ok (g, h) /\
    well_formed (GameManager.board g) h = true.
Proof.
  eexists _, _. split; [vm_compute; reflexivity|].
  apply engine_board_well_formed.
  apply (reach_init 6 1 250 true (Some glider) "Glider" zeros).
  vm_compute. reflexivity.
Defined.

(** *** States stay binary *)

Lemma binary_spec (h : heap) :
  binary h = true <-> forall s, s ∈ h -> s = 0 \/ s = 1.
Proof.
  unfold binary. rewrite forallb_forall. split; intros H s Hs.
  - apply list_elem_of_In, H in Hs. apply orb_true_iff in Hs.
    rewrite !Z.eqb_eq in Hs. exact Hs.
  - apply list_elem_of_In, H in Hs. apply orb_true_iff.
    rewrite !Z.eqb_eq. exact Hs.
Qed.

Lemma binary_set_state (c : loc) (v : Z) (h : heap) :
  v = 0 \/ v = 1 -> binary h = true -> binary (Cell.set_state c v h) = true.
Proof.
  intros Hv Hb. rewrite binary_spec in *. intros s Hs.
  unfold Cell.set_state in Hs. apply list_elem_of_lookup in Hs.
  destruct Hs as [k Hk]. rewrite list_lookup_insert in Hk.
  case_decide; [injection Hk as <-; exact Hv|].
  apply Hb. eapply list_elem_of_lookup_2. exact Hk.
Qed.

Lemma binary_draws (p : Q) (rnd : nat -> Z) (k n : nat) :
  binary (draws p rnd k n) = true.
Proof.
  apply binary_spec. intros s Hs. unfold draws in Hs.
  apply list_elem_of_In, in_map_iff in Hs. destruct Hs as (t & <- & _).
  apply draw_binary.
Qed.

Lemma new_rows_binary (p : Q) (rnd : nat -> Z) (n : nat) (g : list (list loc))
  (s : heap * nat) :
  Board.new_rows p rnd n n ([], O) = Ok (g, s) -> binary s.1 = true.
Proof.
  destruct (valid_p p) eqn:Hp.
  - rewrite new_rows_valid by exact Hp. intros [= <- <-]. simpl.
    apply binary_draws.
  - destruct n as [|n]; [intros [= <- <-]; reflexivity|].
    rewrite new_rows_invalid by (try exact Hp; lia). discriminate.
Qed.

Lemma initialize_with_binary (f : Z -> Z -> Z) (b : Board.t) (h h' : heap) :
  (forall i j, f i j = 0 \/ f i j = 1) -> binary h = true ->
  Board.initialize_with f b h = Ok h' -> binary h' = true.
Proof.
  intros Hf Hb. unfold Board.initialize_with.
  apply (for_each_keeps (fun h1 => binary h1 = true)); [|exact Hb].
  intros i h1 h2 Hb1.
  apply (for_each_keeps (fun h1 => binary h1 = true)); [|exact Hb1].
  intros j h3 h4 Hb3 Hset.
  destruct (getitem2 _ _ _) as [c|]; simpl in Hset; [|discriminate Hset].
  injection Hset as <-. apply binary_set_state; [apply Hf|exact Hb3].
Qed.

Lemma for_each_keeps_in {A S} (P : S -> Prop) (l : list A)
  (body : A -> S -> result S) (s s' : S) :
  (forall x s s', x ∈ l -> P s -> body x s = Ok s' -> P s') ->
  P s -> for_each l body s = Ok s' -> P s'.
Proof.
  revert s. induction l as [|x l IH]; intros s Hbody HP H; simpl in H.
  - injection H as <-. exact HP.
  - destruct (body x s) as [s1|] eqn:E; simpl in H; [|discriminate H].
    apply (IH s1); [|eapply Hbody; [left|eassumption..]|exact H].
    intros y t t' Hy. apply Hbody. right. exact Hy.
Qed.

Lemma elem_of_enumerate {A} (l : list A) (k : Z) (x : A) :
  (k, x) ∈ enumerate l -> x ∈ l.
Proof.
  unfold enumerate. intros Hin. apply list_elem_of_lookup in Hin.
  destruct Hin as [n Hn]. rewrite list_lookup_imap in Hn.
  destruct (l !! n) as [y|] eqn:E; simpl in Hn; [|discriminate Hn].
  injection Hn as _ <-. eapply list_elem_of_lookup_2. exact E.
Qed.

Lemma place_pattern_binary (b : Board.t) (pattern : list (list Z))
  (raw1 raw2 : Z) (h h' : heap) :
  binary_pattern pattern = true -> binary h = true ->
  Board._place_pattern b pattern raw1 raw2 h = Ok h' -> binary h' = true.
Proof.
  intros Hp Hb. unfold Board._place_pattern.
  destruct (Board.draw_origin _ _ _ _) as [[top left]|]; simpl;
    [|discriminate].
  unfold Board.stamp. unfold binary_pattern in Hp. rewrite forallb_forall in Hp.
  apply (for_each_keeps_in (fun h1 => binary h1 = true)); [|exact Hb].
  intros [i row] h1 h2 Hin Hb1. apply elem_of_enumerate in Hin.
  assert (Hrow : binary row = true) by (apply Hp, list_elem_of_In, Hin).
  unfold Board.stamp_row. simpl.
  apply (for_each_keeps_in (fun h1 => binary h1 = true)); [|exact Hb1].
  intros [j v] h3 h4 Hjv Hb3 Hset. apply elem_of_enumerate in Hjv. simpl in Hset.
  destruct (_ && _ && _ && _); [|injection Hset as <-; exact Hb3].
  destruct (getitem2 _ _ _) as [c|]; simpl in Hset; [|discriminate Hset].
  injection Hset as <-. apply binary_set_state; [|exact Hb3].
  apply (proj1 (binary_spec row) Hrow). exact Hjv.
Qed.

Lemma init_binary (N : Z) (p : Q) (w : bool) (gl : option (list (list Z)))
  (mode : string) (rnd : nat -> Z) (b : Board.t) (h : heap) :
  (forall pattern, gl = Some pattern -> binary_pattern pattern = true) ->
  Board.__init__ N p w gl mode rnd = Ok (b, h) -> binary h = true.
Proof.
  intros Hgl. unfold Board.__init__. intros H.
  destruct (Board.new_rows _ _ _ _ _) as [[g s]|] eqn:E; simpl in H;
    [|discriminate H].
  apply new_rows_binary in E.
  destruct gl as [pattern|].
  - destruct (Board._place_pattern _ _ _ _ _) as [h1|] eqn:E1; simpl in H;
      [|discriminate H].
    injection H as <- <-.
    apply (place_pattern_binary _ _ _ _ _ _ (Hgl pattern eq_refl) E E1).
  - destruct (String.eqb mode "Odd Columns Alive").
    { destruct (Board._initialize_odd_columns _ _) as [h1|] eqn:E1; simpl in H;
        [|discriminate H].
      injection H as <- <-. unfold Board._initialize_odd_columns in E1.
      eapply initialize_with_binary; [|exact E|exact E1].
      intros i j. simpl. destruct (_ =? 1); auto. }
    destruct (String.eqb mode "Odd Diagonals Alive").
    { destruct (Board._initialize_diagonal_pattern _ _) as [h1|] eqn:E1;
        simpl in H; [|discriminate H].
      injection H as <- <-. unfold Board._initialize_diagonal_pattern in E1.
      eapply initialize_with_binary; [|exact E|exact E1].
      intros i j. simpl. destruct (_ =? 1); auto. }
    injection H as <- <-. exact E.
Qed.

(** X3.  Cell states stay binary: an engine built without a pattern, or
    with a pattern of zeros and ones, has every state 0 or 1, and a call to
    [step()] on an engine whose states are 0 or 1 returns one whose states
    are 0 or 1. *)
Theorem states_stay_binary :
  (forall N p max_steps w gl mode rnd g h,
     (forall pattern, gl = Some pattern -> binary_pattern pattern = true) ->
     GameManager.__init__ N p max_steps w gl mode rnd = Ok (g, h) ->
     binary h = true) /\
  (forall g h g' h',
     binary h = true -> GameManager.step g h = Ok (g', h') ->
     binary h' = true).
Proof.
  split.
  - intros N p ms w gl mode rnd g h Hgl Hinit.
    unfold GameManager.__init__ in Hinit.
    destruct (Board.__init__ N p w gl mode rnd) as [[b h0]|] eqn:E;
      simpl in Hinit; [|discriminate Hinit].
    injection Hinit as <- <-. apply (init_binary _ _ _ _ _ _ _ _ Hgl E).
  - intros g h g' h' Hb Hstep. unfold GameManager.step in Hstep.
    destruct (Board.step _ _ _) as [[b1 h1]|] eqn:E; simpl in Hstep;
      [|discriminate Hstep].
    injection Hstep as <- <-. apply (step_binary _ _ _ _ _ Hb E).
Qed.

Lemma states_stay_binary_witness :
  exists g h g' h',
    GameManager.__init__ 6 1 250 true (Some glider) "Glider" zeros = Ok (g, h) /\
    GameManager.step g h = Ok (g', h') /\
    binary h = true /\ binary h' = true.
Proof.
  destruct states_stay_binary as [Hinit Hstep].
  assert (E : exists g h g' h',
             GameManager.__init__ 6 1 250 true (Some glider) "Glider" zeros
             = Ok (g, h) /\ GameManager.step g h = Ok (g', h')).
  { eexists _, _, _, _. split; vm_compute; reflexivity. }
  destruct E as (g & h & g' & h' & E & Es).
  assert (Hb : binary h = true).
  { apply (Hinit 6 1%Q 250 true (Some glider) "Glider"%string zeros g h);
      [|exact E].
    intros pattern Hp. injection Hp as <-. reflexivity. }
  exists g, h, g', h'. split; [exact E|]. split; [exact Es|].
  split; [exact Hb|]. apply (Hstep _ _ _ _ Hb Es).
Defined.

(** *** The deterministic initialisations *)

Lemma initialize_row_spec (f : Z -> Z -> Z) (b : Board.t) (X : Z)
  (cols : list Z) (h : heap) :
  WF b h -> 0 <= X < Board.N b ->
  (forall j, j ∈ cols -> 0 <= j < Board.N b) ->
  exists h',
    for_each cols (fun j h => c ← getitem2 (Board.grid b) X j;
                              Ok (Cell.set_state c (f X j) h)) h = Ok h' /\
    length h' = length h /\
    forall x y, 0 <= x < Board.N b -> 0 <= y < Board.N b ->
      Cell.state (ref (Board.grid b) x y) h' =
        if decide (x = X /\ y ∈ cols) then f X y
        else Cell.state (ref (Board.grid b) x y) h.
Proof.
  intros Hwf HX. revert h Hwf.
  induction cols as [|j cols IH]; intros h Hwf Hcols; simpl.
  - exists h. split; [reflexivity|]. split; [reflexivity|].
    intros x y _ _. rewrite decide_False; [reflexivity|].
    intros [_ Hin]. inversion Hin.
  - assert (Hj : 0 <= j < Board.N b) by (apply Hcols; left).
    rewrite (getitem2_ref _ _ (wf_dims _ _ Hwf)) by lia. simpl.
    set (h1 := Cell.set_state (ref (Board.grid b) X j) (f X j) h).
    assert (Hlen1 : length h1 = length h)
      by (unfold h1, Cell.set_state; apply length_insert).
    destruct (IH h1) as (h' & Hrun & Hlen & Hst).
    { apply (WF_length b h); assumption. }
    { intros k Hk. apply Hcols. right. exact Hk. }
    exists h'. split; [exact Hrun|]. split; [congruence|].
    intros x y Hx Hy. rewrite Hst by assumption. unfold h1.
    rewrite (state_set_state b h) by assumption.
    destruct (decide (x = X /\ y ∈ cols)) as [[-> Hin]|Hn].
    { rewrite decide_True by (split; [reflexivity|right; exact Hin]).
      reflexivity. }
    destruct (decide (x = X /\ y = j)) as [[-> ->]|Hn2].
    { rewrite decide_True by (split; [reflexivity|left]). reflexivity. }
    rewrite decide_False; [reflexivity|].
    intros [-> Hin]. apply elem_of_cons in Hin.
    destruct Hin as [->|Hin]; [apply Hn2; auto|apply Hn; auto].
Qed.

Lemma initialize_with_spec (f : Z -> Z -> Z) (b : Board.t) (h : heap) :
  WF b h ->
  exists h',
    Board.initialize_with f b h = Ok h' /\ length h' = length h /\
    forall x y, 0 <= x < Board.N b -> 0 <= y < Board.N b ->
      Cell.state (ref (Board.grid b) x y) h' = f x y.
Proof.
  intros Hwf. unfold Board.initialize_with.
  assert (Hcols : forall j, j ∈ py_range 0 (Board.N b) 1 <-> 0 <= j < Board.N b).
  { intros j. rewrite elem_of_py_range by lia. rewrite Z.mod_1_r. lia. }
  assert (Hgen : forall rows h0, WF b h0 ->
            (forall i, i ∈ rows -> 0 <= i < Board.N b) ->
            exists h',
              for_each rows (fun i h =>
                for_each (py_range 0 (Board.N b) 1) (fun j h =>
                  c ← getitem2 (Board.grid b) i j;
                  Ok (Cell.set_state c (f i j) h)) h) h0 = Ok h' /\
              length h' = length h0 /\
              forall x y, 0 <= x < Board.N b -> 0 <= y < Board.N b ->
                Cell.state (ref (Board.grid b) x y) h' =
                  if decide (x ∈ rows) then f x y
                  else Cell.state (ref (Board.grid b) x y) h0).
  { induction rows as [|i rows IH]; intros h0 Hwf0 Hrows; simpl.
    - exists h0. split; [reflexivity|]. split; [reflexivity|].
      intros x y _ _. reflexivity.
    - destruct (initialize_row_spec f b i (py_range 0 (Board.N b) 1) h0 Hwf0)
        as (h1 & -> & Hlen1 & Hst1).
      { apply Hrows. left. }
      { intros j Hj. apply Hcols. exact Hj. }
      simpl.
      destruct (IH h1) as (h' & Hrun & Hlen & Hst).
      { apply (WF_length b h0); assumption. }
      { intros k Hk. apply Hrows. right. exact Hk. }
      exists h'. split; [exact Hrun|]. split; [congruence|].
      intros x y Hx Hy. rewrite Hst, Hst1 by assumption.
      pose proof (proj2 (Hcols y) Hy) as Hyc.
      destruct (decide (x ∈ rows)) as [Hin|Hn].
      { rewrite decide_True by (right; exact Hin). reflexivity. }
      destruct (decide (x = i /\ y ∈ py_range 0 (Board.N b) 1)) as [[-> _]|Hn2].
      { rewrite decide_True by left. reflexivity. }
      rewrite decide_False; [reflexivity|].
      intros Hin. apply elem_of_cons in Hin.
      destruct Hin as [->|Hin]; [apply Hn2; auto|contradiction]. }
  destruct (Hgen (py_range 0 (Board.N b) 1) h Hwf) as (h' & Hrun & Hlen & Hst).
  { intros i Hi. apply Hcols. exact Hi. }
  exists h'. split; [exact Hrun|]. split; [exact Hlen|].
  intros x y Hx Hy. rewrite Hst by assumption.
  rewrite decide_True by (apply Hcols; exact Hx). reflexivity.
Qed.

(** X4.  With a valid probability, the mode "Odd Columns Alive" builds the
    board in which cell [(x, y)] is alive exactly when [y] is odd, and the
    mode "Odd Diagonals Alive" the board in which it is alive exactly when
    [x + y] is odd, whatever was drawn at random for the cells. *)
Theorem deterministic_modes (N : Z) (p : Q) (w : bool) (rnd : nat -> Z) :
  valid_p p = true ->
  (exists h,
     Board.__init__ N p w None "Odd Columns Alive" rnd = Ok (fresh_board N w, h) /\
     forall x y, 0 <= x < N -> 0 <= y < N ->
       state_at (fresh_board N w) h x y = Ok (if Z.odd y then 1 else 0)) /\
  (exists h,
     Board.__init__ N p w None "Odd Diagonals Alive" rnd = Ok (fresh_board N w, h) /\
     forall x y, 0 <= x < N -> 0 <= y < N ->
       state_at (fresh_board N w) h x y = Ok (if Z.odd (x + y) then 1 else 0)).
Proof.
  intros Hp.
  set (h0 := draws p rnd 0 (Z.to_nat N * Z.to_nat N)).
  assert (Hwf : WF (fresh_board N w) h0)
    by (apply WF_fresh_board, length_draws).
  assert (Hodd : forall z, (if z mod 2 =? 1 then 1 else 0) = if Z.odd z then 1 else 0).
  { intros z. rewrite Zmod_odd. destruct (Z.odd z); reflexivity. }
  split.
  - destruct (initialize_with_spec (fun i j => if j mod 2 =? 1 then 1 else 0)
                (fresh_board N w) h0 Hwf) as (h & Hrun & Hlen & Hst).
    exists h. split.
    + rewrite (init_valid N p w None _ rnd Hp). simpl.
      unfold Board._initialize_odd_columns. fold h0. rewrite Hrun. reflexivity.
    + intros x y Hx Hy.
      destruct (state_at_ref (fresh_board N w) h0 h x y Hwf Hx Hy) as [_ ->].
      rewrite Hst by assumption. rewrite Hodd. reflexivity.
  - destruct (initialize_with_spec (fun i j => if (i + j) mod 2 =? 1 then 1 else 0)
                (fresh_board N w) h0 Hwf) as (h & Hrun & Hlen & Hst).
    exists h. split.
    + rewrite (init_valid N p w None _ rnd Hp). simpl.
      unfold Board._initialize_diagonal_pattern. fold h0. rewrite Hrun.
      reflexivity.
    + intros x y Hx Hy.
      destruct (state_at_ref (fresh_board N w) h0 h x y Hwf Hx Hy) as [_ ->].
      rewrite Hst by assumption. rewrite Hodd. reflexivity.
Qed.

Lemma deterministic_modes_witness :
  exists h,
    Board.__init__ 4 (1 # 2) true None "Odd Columns Alive" zeros
    = Ok (fresh_board 4 true, h) /\
    forall x y, 0 <= x < 4 -> 0 <= y < 4 ->
      state_at (fresh_board 4 true) h x y = Ok (if Z.odd y then 1 else 0).
Proof.
  apply (deterministic_modes 4 (1 # 2) true zeros). reflexivity.
Defined.

Lemma odd_succ_mod (N i : Z) :
  Z.even N = true -> 0 <= i < N -> Z.odd ((i + 1) mod N) = negb (Z.odd i).
Proof.
  intros HN Hi. rewrite succ_mod by lia.
  destruct (Z.ltb_spec (i + 1) N).
  - rewrite Z.add_1_r, Z.odd_succ, <- Z.negb_odd. reflexivity.
  - assert (i = Z.pred N) by lia. subst i.
    rewrite Z.odd_pred, HN. reflexivity.
Qed.

(** A generation over blocks of density 2 returns the board and the store
    as they are. *)
Lemma step_idle (b : Board.t) (h : heap) (blocks : list (Z * Z)) :
  WF b h ->
  (forall i j, (i, j) ∈ blocks ->
     is_block b i j = true /\
     Board.density (block_refs (Board.grid b) (Board.N b) i j) h = 2) ->
  for_each blocks (fun ij s => Board.apply_block_rules s.1 ij.1 ij.2 s.2) (b, h)
  = Ok (b, h).
Proof.
  intros Hwf. induction blocks as [|[i j] blocks IH]; intros Hall; simpl.
  - reflexivity.
  - destruct (Hall i j ltac:(left)) as [Hb Hd].
    rewrite (apply_density_2 b h i j Hwf Hb Hd). simpl.
    apply IH. intros i' j' Hin. apply Hall. right. exact Hin.
Qed.

Lemma origins_are_blocks (N : Z) (w : bool) (start i j : Z) (b : Board.t) :
  Board.N b = N -> Board.wraparound b = w -> Z.even N = true ->
  start = 0 \/ start = 1 ->
  (i, j) ∈ Board._create_blocks N w start -> is_block b i j = true.
Proof.
  intros HN Hw Heven Hs Hin. apply is_block_spec. rewrite HN, Hw.
  pose proof (origins_in_grid N w start i j ltac:(lia) Hin) as [Hi Hj].
  apply elem_of_create_blocks in Hin. destruct Hin as (_ & _ & Hedge).
  apply Z.even_spec in Heven. destruct Heven as [k Hk].
  repeat split; try lia. exact Hedge.
Qed.

(** X5.  On a grid of even size the boards of the modes "Odd Columns
    Alive" and "Odd Diagonals Alive" are fixed points: every block of either
    partition has density 2, so a call to [step()], at any value of the step
    counter, returns the same board and the same states and only adds one to
    the counter. *)
Theorem striped_boards_are_fixed (N : Z) (p : Q) (max_steps : Z) (w : bool)
  (mode : string) (rnd : nat -> Z) :
  valid_p p = true -> Z.even N = true ->
  mode = "Odd Columns Alive"%string \/ mode = "Odd Diagonals Alive"%string ->
  exists b h,
    GameManager.__init__ N p max_steps w None mode rnd
    = Ok (GameManager.mk N p max_steps w b 0, h) /\
    forall k,
      GameManager.step (GameManager.mk N p max_steps w b k) h
      = Ok (GameManager.mk N p max_steps w b (k + 1), h).
Proof.
  intros Hp Heven Hmode.
  set (h0 := draws p rnd 0 (Z.to_nat N * Z.to_nat N)).
  assert (Hwf0 : WF (fresh_board N w) h0)
    by (apply WF_fresh_board, length_draws).
  assert (Hodd : forall z, (if z mod 2 =? 1 then 1 else 0) = if Z.odd z then 1 else 0).
  { intros z. rewrite Zmod_odd. destruct (Z.odd z); reflexivity. }
  assert (Hgen : exists h,
            Board.__init__ N p w None mode rnd = Ok (fresh_board N w, h) /\
            WF (fresh_board N w) h /\
            forall i j, is_block (fresh_board N w) i j = true ->
              Board.density (block_refs (fresh_grid (Z.to_nat N)) N i j) h = 2).
  { destruct Hmode as [-> | ->].
    - destruct (initialize_with_spec (fun i j => if j mod 2 =? 1 then 1 else 0)
                  (fresh_board N w) h0 Hwf0) as (h & Hrun & Hlen & Hst).
      exists h. split.
      { rewrite (init_valid N p w None _ rnd Hp). simpl.
        unfold Board._initialize_odd_columns. fold h0. rewrite Hrun. reflexivity. }
      split; [apply (WF_length _ h0); assumption|].
      intros i j Hb.
      destruct (block_corners _ i j Hb) as (Hi & Hj & Hi1 & Hj1 & _).
      simpl in Hi, Hj, Hi1, Hj1, Hst.
      unfold block_refs. rewrite density_four, !Hst by assumption.
      rewrite !Hodd, (odd_succ_mod N j Heven Hj).
      destruct (Z.odd j); reflexivity.
    - destruct (initialize_with_spec (fun i j => if (i + j) mod 2 =? 1 then 1 else 0)
                  (fresh_board N w) h0 Hwf0) as (h & Hrun & Hlen & Hst).
      exists h. split.
      { rewrite (init_valid N p w None _ rnd Hp). simpl.
        unfold Board._initialize_diagonal_pattern. fold h0. rewrite Hrun.
        reflexivity. }
      split; [apply (WF_length _ h0); assumption|].
      intros i j Hb.
      destruct (block_corners _ i j Hb) as (Hi & Hj & Hi1 & Hj1 & _).
      simpl in Hi, Hj, Hi1, Hj1, Hst.
      unfold block_refs. rewrite density_four, !Hst by assumption.
      rewrite !Hodd, !Z.odd_add, (odd_succ_mod N j Heven Hj),
        (odd_succ_mod N i Heven Hi).
      destruct (Z.odd i), (Z.odd j); reflexivity. }
  destruct Hgen as (h & Hinit & Hwf & Hdens).
  exists (fresh_board N w), h. split.
  - unfold GameManager.__init__. rewrite Hinit. reflexivity.
  - intros k. unfold GameManager.step, Board.step. simpl.
    rewrite (step_idle (fresh_board N w) h); [reflexivity|exact Hwf|].
    intros i j Hin.
    assert (Hb : is_block (fresh_board N w) i j = true).
    { destruct (k mod 2 =? 0).
      - apply (origins_are_blocks N w 1 i j); auto.
      - apply (origins_are_blocks N w 0 i j); auto. }
    split; [exact Hb|]. apply Hdens. exact Hb.
Qed.

Lemma striped_boards_are_fixed_witness :
  exists b h,
    GameManager.__init__ 4 (1 # 2) 250 true None "Odd Diagonals Alive" zeros
    = Ok (GameManager.mk 4 (1 # 2) 250 true b 0, h) /\
    forall k,
      GameManager.step (GameManager.mk 4 (1 # 2) 250 true b k) h
      = Ok (GameManager.mk 4 (1 # 2) 250 true b (k + 1), h).
Proof.
  apply (striped_boards_are_fixed 4 (1 # 2) 250 true "Odd Diagonals Alive" zeros);
    [reflexivity|reflexivity|right; reflexivity].
Defined.

(** *** Random mode *)

Lemma draw_never_eq (p : Q) (raw : Z) : p == 0 -> draw p raw = 0.
Proof.
  intros Hp. unfold draw. rewrite cdf0_never by exact Hp.
  destruct (Qle_bool 1 (random_sample raw)) eqn:E; [|reflexivity].
  apply Qle_bool_iff in E. exfalso.
  assert (Hlt : (random_sample raw < 1)%Q).
  { unfold random_sample, Qlt. simpl.
    pose proof (Z.mod_pos_bound raw (2 ^ 53)). lia. }
  lra.
Qed.

(** The rounding of [1 - p] decides draws: for the float 0.3 the exact
    difference lies above the sample 6305039478318694 / 2^53, the double
    that Python computes for it does not, and the cell is alive. *)
Lemma draw_at_the_rounded_threshold :
  let p := Qmake 5404319552844595 (2 ^ 54) in
  is_float64 p = true /\ float64 (Qmake 3 10) = p /\
  Qle_bool (1 - p) (random_sample 6305039478318694) = false /\
  cdf0 p == random_sample 6305039478318694 /\
  random_choice01 p 6305039478318694 = Ok 1.
Proof. repeat split; vm_compute; reflexivity. Qed.

(** X6.  In random mode (no pattern, none of the two deterministic mode
    names) and with a float [p] in [[0, 1]], the state of cell [(x, y)] of
    the new board is the draw number [x * N + y] of the generator, a 0 or a
    1: it is 1 exactly when the uniform sample [(raw mod 2^53) / 2^53] of
    that draw has reached [cdf0 p], the double that numpy computes from
    [1 - p]; with [p = 0] every cell is dead and with [p = 1] every cell is
    alive. *)
Theorem random_mode_states (N : Z) (p : Q) (w : bool) (mode : string)
  (rnd : nat -> Z) :
  valid_p p = true -> is_float64 p = true ->
  String.eqb mode "Odd Columns Alive" = false ->
  String.eqb mode "Odd Diagonals Alive" = false ->
  exists h,
    Board.__init__ N p w None mode rnd = Ok (fresh_board N w, h) /\
    forall x y, 0 <= x < N -> 0 <= y < N ->
      exists s,
        state_at (fresh_board N w) h x y = Ok s /\
        s = draw p (rnd (Z.to_nat x * Z.to_nat N + Z.to_nat y)%nat) /\
        (s = 1 <->
         (cdf0 p <= random_sample
                      (rnd (Z.to_nat x * Z.to_nat N + Z.to_nat y)%nat))%Q) /\
        (s = 0 \/ s = 1) /\ (p == 0 -> s = 0) /\ (p == 1 -> s = 1).
Proof.
  intros Hp _ Hm1 Hm2.
  exists (draws p rnd 0 (Z.to_nat N * Z.to_nat N)). split.
  - rewrite (init_valid N p w None mode rnd Hp). simpl.
    rewrite Hm1, Hm2. reflexivity.
  - intros x y Hx Hy. eexists. split.
    + destruct (state_at_ref (fresh_board N w)
                  (draws p rnd 0 (Z.to_nat N * Z.to_nat N))
                  (draws p rnd 0 (Z.to_nat N * Z.to_nat N)) x y) as [_ ->];
        [apply WF_fresh_board, length_draws|assumption..|].
      rewrite state_fresh by assumption. reflexivity.
    + split; [reflexivity|]. split.
      { unfold draw. rewrite <- Qle_bool_iff.
        destruct (Qle_bool _ _); split; intros H; congruence. }
      split; [apply draw_binary|].
      split; [apply draw_never_eq|apply draw_sure_eq].
Qed.

Lemma random_mode_states_witness :
  let p := Qmake 5404319552844595 (2 ^ 54) in
  let rnd := fun _ : nat => 6305039478318694 in
  exists h,
    Board.__init__ 4 p true None "Random" rnd = Ok (fresh_board 4 true, h) /\
    forall x y, 0 <= x < 4 -> 0 <= y < 4 ->
      exists s,
        state_at (fresh_board 4 true) h x y = Ok s /\
        s = draw p (rnd (Z.to_nat x * Z.to_nat 4 + Z.to_nat y)%nat) /\
        (s = 1 <->
         (cdf0 p <= random_sample
                      (rnd (Z.to_nat x * Z.to_nat 4 + Z.to_nat y)%nat))%Q) /\
        (s = 0 \/ s = 1) /\ (p == 0 -> s = 0) /\ (p == 1 -> s = 1).
Proof.
  apply (random_mode_states 4 (Qmake 5404319552844595 (2 ^ 54)) true "Random"
           (fun _ : nat => 6305039478318694));
    vm_compute; reflexivity.
Defined.

(** *** The rule on the states of a block *)

Lemma apply_corners (b b' : Board.t) (h h' : heap) (i j : Z) :
  WF b h -> is_block b i j = true ->
  Board.apply_block_rules b i j h = Ok (b', h') ->
  corners b' h' i j = block_rule (corners b h i j).
Proof.
  intros Hwf Hb Happ.
  rewrite (apply_block_rules_block b h i j Hwf Hb) in Happ.
  destruct (block_corners b i j Hb) as (Hi & Hj & Hi1 & Hj1 & _).
  destruct (rotate_block b h i j Hwf Hb) as (_ & Hrefs & Hflip & _).
  unfold block_refs in Hrefs, Hflip, Happ. injection Hrefs as R1 R2 R3 R4.
  unfold block_rule, corners. rewrite density_four in Happ.
  destruct (_ =? 2); [injection Happ as <- <-; reflexivity|].
  destruct (_ || _).
  { injection Happ as <- <-.
    rewrite !Hflip by (rewrite !elem_of_cons; auto). reflexivity. }
  destruct (_ =? 3); [|injection Happ as <- <-; reflexivity].
  injection Happ as <- <-. simpl Board.grid. simpl Board.N.
  rewrite R1, R2, R3, R4.
  rewrite !Hflip by (rewrite !elem_of_cons; auto). reflexivity.
Qed.

Lemma block_rule_period_4 (t : Z * Z * Z * Z) :
  (let '(tl, tr, bl, br) := t in
   (tl = 0 \/ tl = 1) /\ (tr = 0 \/ tr = 1) /\
   (bl = 0 \/ bl = 1) /\ (br = 0 \/ br = 1)) ->
  block_rule (block_rule (block_rule (block_rule t))) = t.
Proof.
  destruct t as [[[tl tr] bl] br].
  intros ([-> | ->] & [-> | ->] & [-> | ->] & [-> | ->]); reflexivity.
Qed.

Lemma apply_times_shown (n : nat) (b : Board.t) (h : heap) (i j : Z) :
  WF b h -> is_block b i j = true ->
  exists b' h',
    apply_times n b i j h = Ok (b', h') /\ WF b' h' /\
    Board.N b' = Board.N b /\
    corners b' h' i j = Nat.iter n block_rule (corners b h i j) /\
    forall x y, 0 <= x < Board.N b -> 0 <= y < Board.N b ->
      (x, y) ∉ Board.indices (Board.N b) i j ->
      Cell.state (ref (Board.grid b') x y) h' =
        Cell.state (ref (Board.grid b) x y) h.
Proof.
  revert b h. induction n as [|n IH]; intros b h Hwf Hb.
  - exists b, h. simpl. auto.
  - destruct (apply_block_rules_frame b h i j Hwf Hb)
      as (b1 & h1 & Happ & Hwf1 & HN1 & Hw1 & Hframe1).
    pose proof (apply_corners b b1 h h1 i j Hwf Hb Happ) as Hc1.
    assert (Hb1 : is_block b1 i j = true).
    { apply is_block_spec. rewrite HN1, Hw1. apply is_block_spec. exact Hb. }
    destruct (IH b1 h1 Hwf1 Hb1) as (b' & h' & Hrun & Hwf' & HN' & Hc' & Hframe').
    exists b', h'. split; [simpl; rewrite Happ; exact Hrun|].
    split; [exact Hwf'|]. split; [congruence|]. split.
    + rewrite Hc', Hc1. symmetry. apply Nat.iter_succ_r.
    + intros x y Hx Hy Hout. rewrite HN1 in Hframe'.
      rewrite Hframe' by assumption.
      destruct (Hframe1 x y Hx Hy Hout) as [-> ->]. reflexivity.
Qed.

(** X7.  The rule is reversible and has period 4 on a block: four calls of
    [apply_block_rules] in a row on the same 2x2 block return, and every
    position of the grid then shows the state it showed before the first
    call. *)
Theorem rule_has_period_4 (b : Board.t) (h : heap) (i j : Z) :
  well_formed b h = true -> binary h = true -> is_block b i j = true ->
  exists b4 h4,
    apply_times 4 b i j h = Ok (b4, h4) /\
    forall x y, 0 <= x < Board.N b -> 0 <= y < Board.N b ->
      state_at b4 h4 x y = state_at b h x y.
Proof.
  intros Hwf%well_formed_WF Hbin Hb.
  destruct (apply_times_shown 4 b h i j Hwf Hb)
    as (b4 & h4 & Hrun & Hwf4 & HN4 & Hc & Hframe).
  destruct (block_corners b i j Hb) as (Hi & Hj & Hi1 & Hj1 & _).
  assert (Hs : forall x y, 0 <= x < Board.N b -> 0 <= y < Board.N b ->
            Cell.state (ref (Board.grid b) x y) h = 0 \/
            Cell.state (ref (Board.grid b) x y) h = 1).
  { intros x y Hx Hy. apply binary_state; [exact Hbin|].
    apply (wf_alloc _ _ Hwf); assumption. }
  change (Nat.iter 4 block_rule (corners b h i j))
    with (block_rule (block_rule (block_rule (block_rule (corners b h i j)))))
    in Hc.
  rewrite block_rule_period_4 in Hc
    by (unfold corners; repeat split; apply Hs; assumption).
  unfold corners in Hc. rewrite HN4 in Hc. injection Hc as C1 C2 C3 C4.
  exists b4, h4. split; [exact Hrun|].
  intros x y Hx Hy.
  destruct (state_at_ref b4 h4 h4 x y Hwf4) as [_ ->]; try lia.
  destruct (state_at_ref b h h x y Hwf Hx Hy) as [_ ->]. f_equal.
  destruct (decide ((x, y) ∈ Board.indices (Board.N b) i j)) as [Hin|Hout].
  - apply elem_of_indices in Hin.
    destruct Hin as [[-> | ->] [-> | ->]]; assumption.
  - apply Hframe; assumption.
Qed.

Lemma rule_has_period_4_witness :
  exists b4 h4,
    apply_times 4 board4 0 0 states_1110 = Ok (b4, h4) /\
    forall x y, 0 <= x < 4 -> 0 <= y < 4 ->
      state_at b4 h4 x y = state_at board4 states_1110 x y.
Proof.
  apply (rule_has_period_4 board4 states_1110 0 0); vm_compute; reflexivity.
Defined.

(** *** The lists of origins on even and on odd grids *)

Lemma bind_ext_in {A B} (f g : A -> list B) (l : list A) :
  (forall x, x ∈ l -> f x = g x) -> l ≫= f = l ≫= g.
Proof.
  induction l as [|x l IH]; intros H; [reflexivity|].
  change ((x :: l) ≫= f) with (f x ++ (l ≫= f)).
  change ((x :: l) ≫= g) with (g x ++ (l ≫= g)).
  rewrite (H x) by left. rewrite IH; [reflexivity|].
  intros y Hy. apply H. right. exact Hy.
Qed.

Lemma length_bind_const {A B} (f : A -> list B) (l : list A) (k : nat) :
  (forall x, x ∈ l -> length (f x) = k) ->
  length (l ≫= f) = (length l * k)%nat.
Proof.
  induction l as [|x l IH]; intros H; [reflexivity|].
  change ((x :: l) ≫= f) with (f x ++ (l ≫= f)).
  rewrite length_app, (H x) by left. rewrite IH; [reflexivity|].
  intros y Hy. apply H. right. exact Hy.
Qed.

Lemma length_py_range (start stop step : Z) :
  length (py_range start stop step)
  = Z.to_nat ((stop - start + step - 1) / step).
Proof. unfold py_range. rewrite length_map, length_seq. reflexivity. Qed.

Lemma length_create_blocks_wrap (N start : Z) :
  length (Board._create_blocks N true start)
  = (length (py_range start N 2) * length (py_range start N 2))%nat.
Proof.
  unfold Board._create_blocks. apply length_bind_const. intros i _.
  rewrite (length_bind_const _ _ 1%nat); [lia|]. intros j _. reflexivity.
Qed.

(** Without wraparound, the odd-origin list of an even grid is the
    odd-origin list of the grid with one row and one column less. *)
Lemma py_range_odd_last (N : Z) :
  Z.even N = true -> 2 <= N ->
  py_range 1 N 2 = py_range 1 (N - 1) 2 ++ [N - 1].
Proof.
  intros Heven HN. apply Z.even_spec in Heven. destruct Heven as [k Hk].
  unfold py_range.
  replace ((N - 1 + 2 - 1) / 2) with k
    by (subst N; replace (2 * k - 1 + 2 - 1) with (k * 2) by lia;
        rewrite Z.div_mul; lia).
  replace ((N - 1 - 1 + 2 - 1) / 2) with (k - 1)
    by (apply (Z.div_unique _ 2 (k - 1) 1); lia).
  replace (Z.to_nat k) with (Z.to_nat (k - 1) + 1)%nat by lia.
  rewrite seq_app, map_app. simpl. f_equal. f_equal. lia.
Qed.

Lemma bind_all_nil {A B} (f : A -> list B) (l : list A) :
  (forall x, x ∈ l -> f x = []) -> l ≫= f = [].
Proof.
  induction l as [|x l IH]; intros H; [reflexivity|].
  change ((x :: l) ≫= f) with (f x ++ (l ≫= f)).
  rewrite (H x) by left. rewrite IH; [reflexivity|].
  intros y Hy. apply H. right. exact Hy.
Qed.

Lemma create_blocks_odd_no_wrap (N : Z) :
  Z.even N = true -> 2 <= N ->
  Board._create_blocks N false 1 = Board._create_blocks (N - 1) true 1.
Proof.
  intros Heven HN. unfold Board._create_blocks.
  rewrite (py_range_odd_last N Heven HN).
  assert (Hin : forall i, i ∈ py_range 1 (N - 1) 2 -> i + 1 < N).
  { intros i Hi. apply elem_of_py_range in Hi; lia. }
  assert (Hlast : (N - 1 + 1 <? N) = false) by (apply Z.ltb_ge; lia).
  rewrite bind_app.
  rewrite (bind_all_nil _ [N - 1]).
  2:{ intros i Hi. apply list_elem_of_singleton in Hi. subst i.
      apply bind_all_nil. intros j _. rewrite Hlast. reflexivity. }
  rewrite app_nil_r. apply bind_ext_in. intros i Hi.
  rewrite bind_app.
  rewrite (bind_all_nil _ [N - 1]).
  2:{ intros j Hj. apply list_elem_of_singleton in Hj. subst j.
      rewrite Hlast, andb_false_r. reflexivity. }
  rewrite app_nil_r. apply bind_ext_in. intros j Hj.
  apply Hin in Hi, Hj.
  destruct (Z.ltb_spec (i + 1) N), (Z.ltb_spec (j + 1) N); try lia.
  reflexivity.
Qed.

(** X8.  On a grid of even size [N >= 0]: the list built with [start = 0]
    is the same with and without wraparound; with wraparound each of the
    two lists holds [(N/2)^2] origins; without wraparound the list built
    with [start = 1] holds [(N/2 - 1)^2] origins, when [N >= 2]. *)
Theorem origin_lists_of_even_grids (N : Z) :
  Z.even N = true -> 0 <= N ->
  Board._create_blocks N false 0 = Board._create_blocks N true 0 /\
  Z.of_nat (length (Board._create_blocks N true 0)) = N / 2 * (N / 2) /\
  Z.of_nat (length (Board._create_blocks N true 1)) = N / 2 * (N / 2) /\
  (2 <= N ->
   Z.of_nat (length (Board._create_blocks N false 1))
   = (N / 2 - 1) * (N / 2 - 1)).
Proof.
  intros Heven HN. pose proof Heven as Heven'.
  apply Z.even_spec in Heven'. destruct Heven' as [k Hk].
  assert (Hhalf : N / 2 = k) by (subst N; rewrite Z.mul_comm, Z.div_mul; lia).
  assert (Hl0 : length (py_range 0 N 2) = Z.to_nat k).
  { rewrite length_py_range. f_equal. subst N.
    replace (2 * k - 0 + 2 - 1) with (1 + k * 2) by lia.
    rewrite Z.div_add by lia. reflexivity. }
  assert (Hl1 : length (py_range 1 N 2) = Z.to_nat k).
  { rewrite length_py_range. f_equal. subst N.
    replace (2 * k - 1 + 2 - 1) with (k * 2) by lia.
    rewrite Z.div_mul by lia. reflexivity. }
  split; [|split; [|split]].
  - unfold Board._create_blocks. apply bind_ext_in. intros i Hi.
    apply bind_ext_in. intros j Hj.
    apply elem_of_py_range in Hi, Hj; try lia.
    destruct Hi as [Hi Hmi], Hj as [Hj Hmj].
    apply Z.mod_divide in Hmi, Hmj; try lia.
    destruct Hmi as [qi Hqi], Hmj as [qj Hqj].
    destruct (Z.ltb_spec (i + 1) N), (Z.ltb_spec (j + 1) N); try lia.
    reflexivity.
  - rewrite length_create_blocks_wrap, Hl0, Hhalf. lia.
  - rewrite length_create_blocks_wrap, Hl1, Hhalf. lia.
  - intros H2. rewrite (create_blocks_odd_no_wrap N Heven H2).
    rewrite length_create_blocks_wrap, length_py_range, Hhalf.
    replace ((N - 1 - 1 + 2 - 1) / 2) with (k - 1)
      by (apply (Z.div_unique _ 2 (k - 1) 1); lia).
    rewrite Nat2Z.inj_mul, !Z2Nat.id by lia. reflexivity.
Qed.

Lemma origin_lists_of_even_grids_witness :
  Board._create_blocks 6 false 0 = Board._create_blocks 6 true 0 /\
  Z.of_nat (length (Board._create_blocks 6 true 0)) = 6 / 2 * (6 / 2) /\
  Z.of_nat (length (Board._create_blocks 6 true 1)) = 6 / 2 * (6 / 2) /\
  (2 <= 6 ->
   Z.of_nat (length (Board._create_blocks 6 false 1))
   = (6 / 2 - 1) * (6 / 2 - 1)).
Proof. apply (origin_lists_of_even_grids 6); [reflexivity|lia]. Defined.

(** X9.  On a grid of odd size [N >= 3] with wraparound neither list is a
    tiling: in the list built with [start = 0] the cell [(0, 0)] lies both
    in the block of origin [(0, 0)] and in the block of origin
    [(N - 1, N - 1)], which wraps around, and no block of the list built
    with [start = 1] contains a cell of row 0. *)
Theorem origin_lists_of_odd_grids (N : Z) :
  Z.odd N = true -> 3 <= N ->
  ((0, 0) ∈ Board._create_blocks N true 0 /\
   (N - 1, N - 1) ∈ Board._create_blocks N true 0 /\
   (0, 0) ∈ Board.indices N 0 0 /\
   (0, 0) ∈ Board.indices N (N - 1) (N - 1)) /\
  (forall i j y, (i, j) ∈ Board._create_blocks N true 1 ->
     (0, y) ∉ Board.indices N i j).
Proof.
  intros Hodd HN.
  rewrite <- Z.negb_even in Hodd. apply negb_true_iff in Hodd.
  assert (Hpar : forall k, N <> 2 * k).
  { intros k Hk. rewrite Hk, Z.even_mul in Hodd. discriminate Hodd. }
  split.
  - repeat split.
    + apply elem_of_create_blocks. rewrite !elem_of_py_range by lia.
      repeat split; try lia; auto.
    + apply elem_of_create_blocks. rewrite !elem_of_py_range by lia.
      assert (Hm : (N - 1 - 0) mod 2 = 0).
      { pose proof (Z.mod_pos_bound (N - 1 - 0) 2 ltac:(lia)).
        pose proof (Z.div_mod (N - 1 - 0) 2 ltac:(lia)) as Hdm.
        destruct (Z.eq_dec ((N - 1 - 0) mod 2) 0) as [|Hne]; [assumption|].
        exfalso. apply (Hpar ((N - 1 - 0) / 2 + 1)). lia. }
      repeat split; try lia; auto.
    + apply elem_of_indices. auto.
    + apply elem_of_indices.
      replace (N - 1 + 1) with N by lia. rewrite Z.mod_same by lia. auto.
  - intros i j y Hin Hc. apply elem_of_create_blocks in Hin.
    destruct Hin as (Hi & _ & _). apply elem_of_py_range in Hi; [|lia].
    destruct Hi as [Hi Hmi]. apply Z.mod_divide in Hmi; [|lia].
    destruct Hmi as [q Hq]. apply elem_of_indices in Hc.
    destruct Hc as [[Hc|Hc] _]; [lia|].
    rewrite succ_mod in Hc by lia.
    destruct (Z.ltb_spec (i + 1) N); [lia|].
    apply (Hpar (q + 1)). lia.
Qed.

Lemma origin_lists_of_odd_grids_witness :
  ((0, 0) ∈ Board._create_blocks 5 true 0 /\
   (5 - 1, 5 - 1) ∈ Board._create_blocks 5 true 0 /\
   (0, 0) ∈ Board.indices 5 0 0 /\
   (0, 0) ∈ Board.indices 5 (5 - 1) (5 - 1)) /\
  (forall i j y, (i, j) ∈ Board._create_blocks 5 true 1 ->
     (0, y) ∉ Board.indices 5 i j).
Proof. apply (origin_lists_of_odd_grids 5); [reflexivity|lia]. Defined.

(** *** What the rule leaves alone, and the snapshot *)

(** X10.  [apply_block_rules] on a 2x2 block never touches a cell outside
    the block: every position of the grid that is not one of the four
    indices holds the same cell object afterwards, in the same state. *)
Theorem rule_touches_only_its_block (b : Board.t) (h : heap) (i j : Z) :
  well_formed b h = true -> is_block b i j = true ->
  exists b' h',
    Board.apply_block_rules b i j h = Ok (b', h') /\
    forall x y, 0 <= x < Board.N b -> 0 <= y < Board.N b ->
      (x, y) ∉ Board.indices (Board.N b) i j ->
      getitem2 (Board.grid b') x y = getitem2 (Board.grid b) x y /\
      state_at b' h' x y = state_at b h x y.
Proof.
  intros Hwf%well_formed_WF Hb.
  destruct (apply_block_rules_frame b h i j Hwf Hb)
    as (b' & h' & Happ & Hwf' & HN & _ & Hframe).
  exists b', h'. split; [exact Happ|].
  intros x y Hx Hy Hout. destruct (Hframe x y Hx Hy Hout) as [Hr Hs].
  destruct (state_at_ref b' h' h' x y Hwf') as [-> ->]; try lia.
  destruct (state_at_ref b h h x y Hwf Hx Hy) as [-> ->].
  rewrite Hr, Hs. auto.
Qed.

Lemma rule_touches_only_its_block_witness :
  exists b' h',
    Board.apply_block_rules board4 0 0 states_1110 = Ok (b', h') /\
    forall x y, 0 <= x < 4 -> 0 <= y < 4 ->
      (x, y) ∉ Board.indices 4 0 0 ->
      getitem2 (Board.grid b') x y = getitem2 (Board.grid board4) x y /\
      state_at b' h' x y = state_at board4 states_1110 x y.
Proof.
  apply (rule_touches_only_its_block board4 states_1110 0 0);
    vm_compute; reflexivity.
Defined.



(** *** Drawing *)

Lemma draw_row (g : GameManager.t) (h : heap) (offset_x i : Z)
  (cols : list Z) (out : list ((Z * Z * Z) * (Z * Z * Z * Z))) :
  dims (Z.to_nat (GameManager.N g)) (Board.grid (GameManager.board g)) ->
  0 <= i < GameManager.N g ->
  (forall j, j ∈ cols -> 0 <= j < GameManager.N g) ->
  for_each cols (fun j out =>
      c ← getitem2 (Board.grid (GameManager.board g)) i j;
      let color :=
        if Cell.state c h =? 1 then (0, 0, 0) else (255, 255, 255) in
      let x := offset_x + j * (560 / GameManager.N g) in
      let y := i * (560 / GameManager.N g) in
      Ok (out ++ [(color, (x, y, 560 / GameManager.N g,
                           560 / GameManager.N g))])) out
  = Ok (out ++ map (fun j => square g h offset_x (i, j)) cols).
Proof.
  intros Hd Hi. revert out.
  induction cols as [|j cols IH]; intros out Hcols; simpl.
  - rewrite app_nil_r. reflexivity.
  - assert (Hj : 0 <= j < GameManager.N g) by (apply Hcols; left).
    rewrite (getitem2_ref _ _ Hd) by lia. simpl.
    rewrite IH by (intros k Hk; apply Hcols; right; exact Hk).
    rewrite <- app_assoc. reflexivity.
Qed.

Lemma map_product {B} (F : Z * Z -> B) (rows cols : list Z) :
  map F (rows ≫= (fun x => cols ≫= (fun y => [(x, y)])))
  = rows ≫= (fun i => map (fun j => F (i, j)) cols).
Proof.
  induction rows as [|i rows IH]; [reflexivity|].
  change ((i :: rows) ≫= ?f) with (f i ++ (rows ≫= f)).
  rewrite map_app, IH. f_equal.
  clear IH. induction cols as [|j cols IHc]; [reflexivity|].
  change ((j :: cols) ≫= ?f) with (f j ++ (cols ≫= f)).
  simpl. f_equal. exact IHc.
Qed.

Lemma map_all_cells {B} (F : Z * Z -> B) (N : Z) :
  map F (all_cells N)
  = py_range 0 N 1 ≫= (fun i => map (fun j => F (i, j)) (py_range 0 N 1)).
Proof. apply map_product. Qed.

Lemma draw_squares (g : GameManager.t) (h : heap) (offset_x : Z) :
  dims (Z.to_nat (GameManager.N g)) (Board.grid (GameManager.board g)) ->
  1 <= GameManager.N g ->
  GameManager.draw g h offset_x
  = Ok (map (square g h offset_x) (all_cells (GameManager.N g))).
Proof.
  intros Hd HN. unfold GameManager.draw.
  destruct (Z.eqb_spec (GameManager.N g) 0) as [E|_]; [lia|].
  rewrite map_all_cells.
  assert (Hcols : forall j, j ∈ py_range 0 (GameManager.N g) 1 ->
                    0 <= j < GameManager.N g).
  { intros j Hj. apply elem_of_py_range in Hj; lia. }
  assert (Hgen : forall rows out,
            (forall i, i ∈ rows -> 0 <= i < GameManager.N g) ->
            for_each rows (fun i out =>
              for_each (py_range 0 (GameManager.N g) 1) (fun j out =>
                c ← getitem2 (Board.grid (GameManager.board g)) i j;
                let color :=
                  if Cell.state c h =? 1 then (0, 0, 0) else (255, 255, 255) in
                let x := offset_x + j * (560 / GameManager.N g) in
                let y := i * (560 / GameManager.N g) in
                Ok (out ++ [(color, (x, y, 560 / GameManager.N g,
                                     560 / GameManager.N g))])) out) out
            = Ok (out ++ (rows ≫= (fun i =>
                    map (fun j => square g h offset_x (i, j))
                        (py_range 0 (GameManager.N g) 1))))).
  { induction rows as [|i rows IH]; intros out Hrows; simpl.
    - rewrite app_nil_r. reflexivity.
    - assert (Hi : 0 <= i < GameManager.N g) by (apply Hrows; left).
      rewrite (draw_row g h offset_x i) by assumption.
      simpl. rewrite IH by (intros k Hk; apply Hrows; right; exact Hk).
      rewrite <- app_assoc. reflexivity. }
  apply (Hgen _ []). exact Hcols.
Qed.

Lemma length_all_cells (N : Z) :
  0 <= N -> Z.of_nat (length (all_cells N)) = N * N.
Proof.
  intros HN. unfold all_cells.
  assert (Hl : length (py_range 0 N 1) = Z.to_nat N).
  { rewrite length_py_range. f_equal.
    replace (N - 0 + 1 - 1) with N by lia. apply Z.div_1_r. }
  rewrite (length_bind_const _ _ (Z.to_nat N)).
  - rewrite Hl, Nat2Z.inj_mul, Z2Nat.id by lia. reflexivity.
  - intros i _. rewrite (length_bind_const _ _ 1%nat); [lia|].
    intros j _. reflexivity.
Qed.

(** X12.  [draw] raises [ZeroDivisionError] on an engine of size 0.  On an
    engine of the program of size [N >= 1] it draws one square per cell, row
    by row, [N * N] in all, of side [560 // N]; the square of cell [(i, j)]
    has its corner at [(offset_x + j * side, i * side)], lies inside the
    board area of 560 by 560 pixels to the right of [offset_x], is black
    exactly when the cell is alive, and the squares of two cells never
    overlap. *)
Theorem draw_fills_board_area (g : GameManager.t) (h : heap) (offset_x : Z) :
  reachable g h ->
  let N := GameManager.N g in
  let side := 560 / N in
  (N = 0 -> GameManager.draw g h offset_x = Raise ZeroDivisionError) /\
  (1 <= N ->
   GameManager.draw g h offset_x
   = Ok (map (square g h offset_x) (all_cells N)) /\
   Z.of_nat (length (map (square g h offset_x) (all_cells N))) = N * N /\
   forall i j, 0 <= i < N -> 0 <= j < N ->
     exists color,
       square g h offset_x (i, j)
       = (color, (offset_x + j * side, i * side, side, side)) /\
       (state_at (GameManager.board g) h i j = Ok 1 /\ color = (0, 0, 0) \/
        state_at (GameManager.board g) h i j <> Ok 1 /\
        color = (255, 255, 255)) /\
       offset_x <= offset_x + j * side /\
       offset_x + j * side + side <= offset_x + 560 /\
       0 <= i * side /\ i * side + side <= 560 /\
       forall i' j', 0 <= i' < N -> 0 <= j' < N -> (i', j') <> (i, j) ->
         j * side + side <= j' * side \/ j' * side + side <= j * side \/
         i * side + side <= i' * side \/ i' * side + side <= i * side).
Proof.
  intros Hr N side. pose proof (reachable_WF g h Hr) as Hwf.
  destruct (reachable_lists g h Hr) as (_ & HN & _).
  split.
  - intros E. unfold GameManager.draw. fold N. rewrite E. reflexivity.
  - intros H1.
    assert (Hd : dims (Z.to_nat N) (Board.grid (GameManager.board g))).
    { unfold N. rewrite <- HN. apply Hwf. }
    split; [apply draw_squares; assumption|].
    split; [rewrite length_map; apply length_all_cells; lia|].
    assert (Hside : 0 <= side /\ N * side <= 560).
    { unfold side. split; [apply Z.div_pos; lia|apply Z.mul_div_le; lia]. }
    intros i j Hi Hj. eexists. split; [reflexivity|].
    split.
    + destruct (state_at_ref (GameManager.board g) h h i j Hwf) as [_ ->];
        [rewrite HN; exact Hi|rewrite HN; exact Hj|].
      simpl.
      destruct (Z.eqb_spec
                  (Cell.state (ref (Board.grid (GameManager.board g)) i j) h) 1)
        as [E|E].
      * left. rewrite E. auto.
      * right. split; [|reflexivity]. intros [= E']. contradiction.
    + repeat split; try nia.
      intros i' j' Hi' Hj' Hne.
      destruct (Z.lt_trichotomy j j') as [Hlt|[Heq|Hgt]];
        [left; nia| |right; left; nia].
      destruct (Z.lt_trichotomy i i') as [Hlt|[Heq'|Hgt]];
        [right; right; left; nia| |right; right; right; nia].
      exfalso. apply Hne. congruence.
Qed.

Lemma draw_fills_board_area_witness :
  exists g h,
    GameManager.__init__ 6 1 250 true (Some glider) "Glider" zeros = Ok (g, h) /\
    GameManager.draw g h 240
    = Ok (map (square g h 240) (all_cells (GameManager.N g))).
Proof.
  eexists _, _. split; [vm_compute; reflexivity|].
  refine (proj1 (proj2 (draw_fills_board_area _ _ 240 _) _)).
  - apply (reach_init 6 1 250 true (Some glider) "Glider" zeros).
    vm_compute. reflexivity.
  - simpl. lia.
Defined.

(** *** Starting a simulation *)

Lemma place_pattern_Ok (N : Z) (w : bool) (row0 : list Z)
  (rest : list (list Z)) (raw1 raw2 : Z) (h : heap) :
  length h = (Z.to_nat N * Z.to_nat N)%nat ->
  forallb (fun row => Nat.eqb (length row) (length row0)) rest = true ->
  1 <= N - Z.of_nat (length (row0 :: rest)) ->
  1 <= N - Z.of_nat (length row0) ->
  exists h',
    Board._place_pattern (fresh_board N w) (row0 :: rest) raw1 raw2 h = Ok h'.
Proof.
  intros Hlen Hrect Hh Hw.
  destruct (draw_origin_fits N row0 rest raw1 raw2 Hh Hw)
    as (top & left & Hdraw & Hfits & Htop & Hleft).
  pose proof Hfits as (_ & _ & _ & _ & Hfh & Hfw). simpl in Hfw.
  destruct (stamp_spec (fresh_board N w) h top left (row0 :: rest))
    as (h' & Hstamp & _); [apply WF_fresh_board; exact Hlen
                          |simpl Board.N; lia..| |].
  { intros row Hin. simpl Board.N.
    apply elem_of_cons in Hin. destruct Hin as [->|Hin]; [lia|].
    rewrite forallb_forall in Hrect.
    apply list_elem_of_In, Hrect, Nat.eqb_eq in Hin. rewrite Hin. lia. }
  exists h'. unfold Board._place_pattern. simpl Board.N.
  rewrite Hdraw. exact Hstamp.
Qed.

(** The probability that the simulator computes from its slider is a
    double in [[0, 1]]. *)
Lemma slider_probability_valid (k : Z) :
  0 <= k <= 100 -> valid_p (float64 (Qmake k 100)) = true.
Proof.
  intros Hk.
  assert (Hall : forallb (fun n => valid_p (float64 (Qmake (Z.of_nat n) 100)))
                   (seq 0 101) = true) by (vm_compute; reflexivity).
  rewrite forallb_forall in Hall. specialize (Hall (Z.to_nat k)).
  rewrite Z2Nat.id in Hall by lia. apply Hall, in_seq. lia.
Qed.

(** X13.  [start_simulation] always builds its engine when the probability
    slider is between 0 and 100 and the size slider at least 5 (the sliders
    of the window range over 0..100 and 10..200), whatever the mode: the
    size of the engine is the slider value rounded up to an even number, its
    step limit the generations slider, its counter 0, and its probability is
    1 in glider mode and otherwise the float that the slider value divided
    by 100 gives. *)
Theorem start_simulation_builds_engine (generations_value probability_value
  size_value : Z) (w : bool) (selected_option : string) (rnd : nat -> Z) :
  0 <= probability_value <= 100 -> 5 <= size_value ->
  exists g h,
    Simulator.start_simulation generations_value probability_value size_value
      w selected_option rnd = Ok (g, h) /\
    Z.even (GameManager.N g) = true /\
    size_value <= GameManager.N g <= size_value + 1 /\
    GameManager.max_steps g = generations_value /\
    GameManager.current_step g = 0 /\
    GameManager.wraparound g = w /\
    (String.eqb selected_option "Glider" = true -> GameManager.p g = 1%Q) /\
    (String.eqb selected_option "Glider" = false ->
     GameManager.p g = float64 (Qmake probability_value 100)).
Proof.
  intros Hprob Hsize. unfold Simulator.start_simulation.
  set (N := if size_value mod 2 =? 0 then size_value else size_value + 1).
  assert (HN : Z.even N = true /\ size_value <= N <= size_value + 1).
  { subst N. rewrite Zmod_even.
    destruct (Z.even size_value) eqn:E; simpl.
    - split; [exact E|lia].
    - split; [|lia]. rewrite Z.add_1_r, Z.even_succ, <- Z.negb_even, E.
      reflexivity. }
  destruct HN as [Heven Hbounds].
  pose proof (slider_probability_valid probability_value Hprob) as Hvalid.
  unfold GameManager.__init__.
  destruct (String.eqb selected_option "Glider") eqn:Hmode.
  - rewrite (init_valid N 1 w (Some glider) selected_option rnd eq_refl).
    destruct (place_pattern_Ok N w [0; 1] [[1; 0]; [1; 0]; [0; 1]]
                (rnd (Z.to_nat N * Z.to_nat N)%nat)
                (rnd (S (Z.to_nat N * Z.to_nat N)))
                (draws 1 rnd 0 (Z.to_nat N * Z.to_nat N)))
      as (h' & Hh'); [apply length_draws|reflexivity|simpl; lia..|].
    unfold glider. rewrite Hh'. simpl.
    eexists _, _. split; [reflexivity|]. simpl.
    repeat split;
      first [assumption | lia | reflexivity | discriminate
            | (intros _; reflexivity)].
  - rewrite (init_valid N _ w None selected_option rnd Hvalid).
    destruct (String.eqb selected_option "Odd Columns Alive");
      [|destruct (String.eqb selected_option "Odd Diagonals Alive")].
    + destruct (initialize_with_Ok (fun i j => if j mod 2 =? 1 then 1 else 0)
                  (fresh_board N w)
                  (draws (float64 (Qmake probability_value 100)) rnd 0
                     (Z.to_nat N * Z.to_nat N)))
        as (h' & Hh'); [apply dims_fresh_grid|].
      unfold Board._initialize_odd_columns. rewrite Hh'. simpl.
      eexists _, _. split; [reflexivity|]. simpl.
      repeat split;
        first [assumption | lia | reflexivity | discriminate
              | (intros _; reflexivity)].
    + destruct (initialize_with_Ok
                  (fun i j => if (i + j) mod 2 =? 1 then 1 else 0)
                  (fresh_board N w)
                  (draws (float64 (Qmake probability_value 100)) rnd 0
                     (Z.to_nat N * Z.to_nat N)))
        as (h' & Hh'); [apply dims_fresh_grid|].
      unfold Board._initialize_diagonal_pattern. rewrite Hh'. simpl.
      eexists _, _. split; [reflexivity|]. simpl.
      repeat split;
        first [assumption | lia | reflexivity | discriminate
              | (intros _; reflexivity)].
    + simpl. eexists _, _. split; [reflexivity|]. simpl.
      repeat split;
        first [assumption | lia | reflexivity | discriminate
              | (intros _; reflexivity)].
Qed.

Lemma start_simulation_builds_engine_witness :
  exists g h,
    Simulator.start_simulation 250 50 11 true "Glider" zeros = Ok (g, h) /\
    Z.even (GameManager.N g) = true /\
    11 <= GameManager.N g <= 11 + 1 /\
    GameManager.max_steps g = 250 /\
    GameManager.current_step g = 0 /\
    GameManager.wraparound g = true /\
    (String.eqb "Glider" "Glider" = true -> GameManager.p g = 1%Q) /\
    (String.eqb "Glider" "Glider" = false ->
     GameManager.p g = float64 (Qmake 50 100)).
Proof.
  apply (start_simulation_builds_engine 250 50 11 true "Glider" zeros); lia.
Defined.

(** *** The order of the blocks within a generation *)

Lemma apply_as_functions (b : Board.t) (h : heap) (i j : Z) :
  WF b h -> is_block b i j = true ->
  Board.apply_block_rules b i j h = Ok (rule_board b i j h, rule_heap b i j h).
Proof.
  intros Hwf Hb. rewrite (apply_block_rules_block b h i j Hwf Hb).
  unfold rule_board, rule_heap.
  set (d := Board.density (block_refs (Board.grid b) (Board.N b) i j) h).
  destruct (Z.eqb_spec d 2) as [->|]; [reflexivity|].
  destruct (Z.eqb_spec d 0) as [->|]; [reflexivity|].
  destruct (Z.eqb_spec d 1) as [->|]; [reflexivity|].
  destruct (Z.eqb_spec d 4) as [->|]; [reflexivity|].
  destruct (Z.eqb_spec d 3) as [->|]; reflexivity.
Qed.

Lemma grid_ext (n : nat) (g g' : list (list loc)) :
  dims n g -> dims n g' ->
  (forall x y, 0 <= x < Z.of_nat n -> 0 <= y < Z.of_nat n ->
     ref g x y = ref g' x y) ->
  g = g'.
Proof.
  intros Hd Hd' Href. pose proof Hd as [Hlen _]. pose proof Hd' as [Hlen' _].
  apply (list_eq_same_length _ _ n); [assumption..|].
  intros r row row' Hr Hrow Hrow'.
  destruct (dims_row n g Hd (Z.of_nat r) ltac:(lia)) as [E1 L1].
  destruct (dims_row n g' Hd' (Z.of_nat r) ltac:(lia)) as [E2 L2].
  rewrite Nat2Z.id in E1, E2, L1, L2.
  rewrite Hrow in E1. rewrite Hrow' in E2.
  injection E1 as E1. injection E2 as E2.
  apply (list_eq_same_length _ _ n); [congruence..|].
  intros c v v' Hc Hv Hv'.
  specialize (Href (Z.of_nat r) (Z.of_nat c) ltac:(lia) ltac:(lia)).
  unfold ref in Href. rewrite !Nat2Z.id in Href.
  rewrite <- E1, <- E2 in Href.
  rewrite (list_lookup_total_correct _ _ _ Hv),
    (list_lookup_total_correct _ _ _ Hv') in Href.
  exact Href.
Qed.

Lemma flip_flip_commute (c1 c2 : loc) (h : heap) :
  Cell.flip c1 (Cell.flip c2 h) = Cell.flip c2 (Cell.flip c1 h).
Proof.
  unfold Cell.flip. destruct (decide (c1 = c2)) as [->|Hne]; [reflexivity|].
  apply list_alter_alter_ne. exact Hne.
Qed.

Lemma flip_all_flip_commute (cells : list loc) (c : loc) (h : heap) :
  Board.flip_all cells (Cell.flip c h) = Cell.flip c (Board.flip_all cells h).
Proof.
  revert h. induction cells as [|c0 cells IH]; intros h; [reflexivity|].
  rewrite !flip_all_cons, flip_flip_commute. apply IH.
Qed.

Lemma flip_all_commute (cells1 cells2 : list loc) (h : heap) :
  Board.flip_all cells1 (Board.flip_all cells2 h)
  = Board.flip_all cells2 (Board.flip_all cells1 h).
Proof.
  revert h. induction cells1 as [|c cells1 IH]; intros h; [reflexivity|].
  rewrite !flip_all_cons, <- flip_all_flip_commute. apply IH.
Qed.

Lemma rot_in_indices (N i j : Z) (z : Z * Z) :
  z ∈ Board.indices N i j -> rot N i j z ∈ Board.indices N i j.
Proof.
  intros Hz. unfold rot.
  repeat case_decide; try exact Hz; apply elem_of_indices; simpl; auto.
Qed.

Lemma rot_commute (N : Z) (o1 o2 : Z * Z) (z : Z * Z) :
  apart N o1 o2 ->
  rot N o1.1 o1.2 (rot N o2.1 o2.2 z) = rot N o2.1 o2.2 (rot N o1.1 o1.2 z).
Proof.
  intros Hap.
  destruct (decide (z ∈ Board.indices N o1.1 o1.2)) as [H1|H1].
  - pose proof (Hap z H1) as H2.
    pose proof (Hap _ (rot_in_indices _ _ _ _ H1)) as H2'.
    destruct z as [x y]. rewrite (rot_outside _ _ _ _ _ H2).
    destruct (rot N o1.1 o1.2 (x, y)) as [x' y'].
    rewrite (rot_outside _ _ _ _ _ H2'). reflexivity.
  - destruct z as [x y]. rewrite (rot_outside _ _ _ _ _ H1).
    destruct (decide ((x, y) ∈ Board.indices N o2.1 o2.2)) as [H2|H2].
    + pose proof (rot_in_indices _ _ _ _ H2) as H2'.
      destruct (rot N o2.1 o2.2 (x, y)) as [x' y'] eqn:E.
      rewrite rot_outside; [reflexivity|].
      intros H1'. exact (Hap _ H1' H2').
    + rewrite (rot_outside _ _ _ _ _ H2), (rot_outside _ _ _ _ _ H1).
      reflexivity.
Qed.

Lemma rule_frame (b : Board.t) (h : heap) (i j : Z) :
  WF b h -> is_block b i j = true ->
  WF (rule_board b i j h) (rule_heap b i j h) /\
  Board.N (rule_board b i j h) = Board.N b /\
  Board.wraparound (rule_board b i j h) = Board.wraparound b /\
  forall x y, 0 <= x < Board.N b -> 0 <= y < Board.N b ->
    (x, y) ∉ Board.indices (Board.N b) i j ->
    ref (Board.grid (rule_board b i j h)) x y = ref (Board.grid b) x y /\
    Cell.state (ref (Board.grid b) x y) (rule_heap b i j h) =
      Cell.state (ref (Board.grid b) x y) h.
Proof.
  intros Hwf Hb.
  destruct (apply_block_rules_frame b h i j Hwf Hb)
    as (b' & h' & Happ & Hwf' & HN & Hw & Hframe).
  rewrite (apply_as_functions b h i j Hwf Hb) in Happ.
  injection Happ as <- <-. auto.
Qed.

Lemma is_block_fields (b b' : Board.t) (i j : Z) :
  Board.N b' = Board.N b -> Board.wraparound b' = Board.wraparound b ->
  is_block b' i j = is_block b i j.
Proof. intros HN Hw. unfold is_block. rewrite HN, Hw. reflexivity. Qed.

(** A block that shares no cell with the block of the rule is seen
    unchanged after the rule: the same four cells, with the same density. *)
Lemma rule_keeps_other_block (b : Board.t) (h : heap) (i1 j1 i2 j2 : Z) :
  WF b h -> is_block b i1 j1 = true -> is_block b i2 j2 = true ->
  (forall z, z ∈ Board.indices (Board.N b) i2 j2 ->
             z ∉ Board.indices (Board.N b) i1 j1) ->
  block_refs (Board.grid (rule_board b i1 j1 h)) (Board.N b) i2 j2
    = block_refs (Board.grid b) (Board.N b) i2 j2 /\
  Board.density (block_refs (Board.grid b) (Board.N b) i2 j2)
                (rule_heap b i1 j1 h)
    = Board.density (block_refs (Board.grid b) (Board.N b) i2 j2) h.
Proof.
  intros Hwf Hb1 Hb2 Hap.
  destruct (rule_frame b h i1 j1 Hwf Hb1) as (_ & _ & _ & Hframe).
  destruct (block_corners b i2 j2 Hb2) as (Hi & Hj & Hi' & Hj' & _).
  assert (Hc : forall x y, (x, y) ∈ Board.indices (Board.N b) i2 j2 ->
            ref (Board.grid (rule_board b i1 j1 h)) x y = ref (Board.grid b) x y /\
            Cell.state (ref (Board.grid b) x y) (rule_heap b i1 j1 h) =
              Cell.state (ref (Board.grid b) x y) h).
  { intros x y Hin.
    destruct (indices_in_grid _ _ _ _ _ Hi Hj Hin) as [Hx Hy].
    apply Hframe; auto. }
  assert (H00 := Hc i2 j2 ltac:(apply elem_of_indices; auto)).
  assert (H01 := Hc i2 ((j2 + 1) mod Board.N b) ltac:(apply elem_of_indices; auto)).
  assert (H10 := Hc ((i2 + 1) mod Board.N b) j2 ltac:(apply elem_of_indices; auto)).
  assert (H11 := Hc ((i2 + 1) mod Board.N b) ((j2 + 1) mod Board.N b)
                   ltac:(apply elem_of_indices; auto)).
  destruct H00 as [R00 S00], H01 as [R01 S01], H10 as [R10 S10],
    H11 as [R11 S11].
  unfold block_refs. rewrite R00, R01, R10, R11, !density_four.
  rewrite S00, S01, S10, S11. auto.
Qed.

Lemma rotate_commute (b : Board.t) (h : heap) (i1 j1 i2 j2 : Z) :
  WF b h -> is_block b i1 j1 = true -> is_block b i2 j2 = true ->
  (forall z, z ∈ Board.indices (Board.N b) i1 j1 ->
             z ∉ Board.indices (Board.N b) i2 j2) ->
  rotate (rotate (Board.grid b) (Board.N b) i1 j1) (Board.N b) i2 j2
  = rotate (rotate (Board.grid b) (Board.N b) i2 j2) (Board.N b) i1 j1.
Proof.
  intros Hwf Hb1 Hb2 Hap.
  assert (Hstep : forall i j i' j', is_block b i j = true ->
    is_block b i' j' = true ->
    dims (Z.to_nat (Board.N b))
      (rotate (rotate (Board.grid b) (Board.N b) i j) (Board.N b) i' j') /\
    forall x y, 0 <= x < Board.N b -> 0 <= y < Board.N b ->
      ref (rotate (rotate (Board.grid b) (Board.N b) i j) (Board.N b) i' j') x y
      = ref (Board.grid b)
          (rot (Board.N b) i j (rot (Board.N b) i' j' (x, y))).1
          (rot (Board.N b) i j (rot (Board.N b) i' j' (x, y))).2).
  { intros i j i' j' Hb Hb'.
    pose proof (WF_rotate b h i j Hwf Hb) as Hwf1.
    set (b1 := Board.with_grid b (rotate (Board.grid b) (Board.N b) i j)) in *.
    assert (Hb1' : is_block b1 i' j' = true).
    { unfold b1. rewrite is_block_with_grid. exact Hb'. }
    pose proof (WF_rotate b1 _ i' j' Hwf1 Hb1') as Hwf2.
    split; [exact (wf_dims _ _ Hwf2)|].
    intros x y Hx Hy.
    pose proof (ref_rotate b1 i' j' x y (wf_dims _ _ Hwf1) Hb1'
                  ltac:(lia) ltac:(lia)) as E1.
    change (Board.grid b1) with (rotate (Board.grid b) (Board.N b) i j) in E1.
    change (Board.N b1) with (Board.N b) in E1.
    rewrite E1.
    destruct (rot_in_grid b i' j' x y Hb' Hx Hy) as [Hx' Hy'].
    destruct (rot (Board.N b) i' j' (x, y)) as [x' y'] eqn:E. simpl in *.
    apply (ref_rotate b i j x' y' (wf_dims _ _ Hwf) Hb); lia. }
  destruct (Hstep i1 j1 i2 j2 Hb1 Hb2) as [Hd12 Hr12].
  destruct (Hstep i2 j2 i1 j1 Hb2 Hb1) as [Hd21 Hr21].
  apply (grid_ext _ _ _ Hd12 Hd21).
  intros x y Hx Hy. rewrite Hr12, Hr21 by lia.
  pose proof (rot_commute (Board.N b) (i1, j1) (i2, j2) (x, y) Hap) as E.
  simpl in E. rewrite E. reflexivity.
Qed.

(** The rule applied to two blocks that share no cell gives the same
    board and the same store in both orders. *)
Lemma rule_commute (b : Board.t) (h : heap) (i1 j1 i2 j2 : Z) :
  WF b h -> is_block b i1 j1 = true -> is_block b i2 j2 = true ->
  (forall z, z ∈ Board.indices (Board.N b) i1 j1 ->
             z ∉ Board.indices (Board.N b) i2 j2) ->
  rule_board (rule_board b i1 j1 h) i2 j2 (rule_heap b i1 j1 h)
    = rule_board (rule_board b i2 j2 h) i1 j1 (rule_heap b i2 j2 h) /\
  rule_heap (rule_board b i1 j1 h) i2 j2 (rule_heap b i1 j1 h)
    = rule_heap (rule_board b i2 j2 h) i1 j1 (rule_heap b i2 j2 h).
Proof.
  intros Hwf Hb1 Hb2 Hap.
  assert (Hap' : forall z, z ∈ Board.indices (Board.N b) i2 j2 ->
                           z ∉ Board.indices (Board.N b) i1 j1).
  { intros z H2 H1. exact (Hap z H1 H2). }
  pose proof (rotate_commute b h i1 j1 i2 j2 Hwf Hb1 Hb2 Hap) as Hrot.
  assert (Hafter : forall i j i' j', is_block b i j = true ->
    is_block b i' j' = true ->
    (forall z, z ∈ Board.indices (Board.N b) i' j' ->
               z ∉ Board.indices (Board.N b) i j) ->
    let d' := Board.density (block_refs (Board.grid b) (Board.N b) i' j') h in
    rule_board (rule_board b i j h) i' j' (rule_heap b i j h)
      = (if d' =? 3
         then Board.with_grid (rule_board b i j h)
                (rotate (Board.grid (rule_board b i j h)) (Board.N b) i' j')
         else rule_board b i j h) /\
    rule_heap (rule_board b i j h) i' j' (rule_heap b i j h)
      = (if (d' =? 0) || (d' =? 1) || (d' =? 3) || (d' =? 4)
         then Board.flip_all (block_refs (Board.grid b) (Board.N b) i' j')
                (rule_heap b i j h)
         else rule_heap b i j h)).
  { intros i j i' j' Hb Hb' Hout d'.
    destruct (rule_frame b h i j Hwf Hb) as (_ & HN & _ & _).
    destruct (rule_keeps_other_block b h i j i' j' Hwf Hb Hb' Hout)
      as [Hr Hd].
    set (B1 := rule_board b i j h) in *. set (H1 := rule_heap b i j h) in *.
    unfold rule_board, rule_heap. rewrite HN, Hr, Hd. auto. }
  destruct (Hafter i1 j1 i2 j2 Hb1 Hb2 Hap') as [Eb12 Eh12].
  destruct (Hafter i2 j2 i1 j1 Hb2 Hb1 Hap) as [Eb21 Eh21].
  rewrite Eb12, Eh12, Eb21, Eh21. clear Eb12 Eh12 Eb21 Eh21 Hafter.
  unfold rule_board, rule_heap.
  set (d1 := Board.density (block_refs (Board.grid b) (Board.N b) i1 j1) h).
  set (d2 := Board.density (block_refs (Board.grid b) (Board.N b) i2 j2) h).
  split.
  - destruct (d1 =? 3), (d2 =? 3); simpl; try reflexivity.
    unfold Board.with_grid. simpl. rewrite Hrot. reflexivity.
  - destruct ((d1 =? 0) || (d1 =? 1) || (d1 =? 3) || (d1 =? 4)),
      ((d2 =? 0) || (d2 =? 1) || (d2 =? 3) || (d2 =? 4)); try reflexivity.
    apply flip_all_commute.
Qed.

(** A loop whose body never raises on the states that it meets, and whose
    iterations for two different items commute, gives the same result for
    every order of a list without repetition. *)
Lemma for_each_Permutation {A S} (P : S -> Prop) (body : A -> S -> result S)
  (l l' : list A) :
  l ≡ₚ l' -> NoDup l ->
  (forall x s, x ∈ l -> P s -> exists s', body x s = Ok s' /\ P s') ->
  (forall x y s, x ∈ l -> y ∈ l -> x <> y -> P s ->
     (s1 ← body x s; body y s1) = (s2 ← body y s; body x s2)) ->
  forall s, P s -> for_each l body s = for_each l' body s.
Proof.
  induction 1 as [|x l l' Hperm IH|x y l|l l' l'' Hp1 IH1 Hp2 IH2];
    intros Hnd Hok Hcomm s Hs.
  - reflexivity.
  - simpl. destruct (Hok x s) as (s' & -> & Hs'); [left|exact Hs|]. simpl.
    apply NoDup_cons in Hnd. destruct Hnd as [_ Hnd].
    apply IH; [exact Hnd| | |exact Hs'].
    + intros x' s0 Hin. apply Hok. right. exact Hin.
    + intros x' y' s0 Hx' Hy'. apply Hcomm; right; assumption.
  - apply NoDup_cons in Hnd. destruct Hnd as [Hxy _].
    assert (Hne : y <> x).
    { intros ->. apply Hxy. left. }
    pose proof (Hcomm y x s ltac:(left) ltac:(right; left) Hne Hs) as E.
    simpl.
    destruct (Hok y s) as (s1 & E1 & Hs1); [left|exact Hs|].
    destruct (Hok x s) as (s2 & E2 & Hs2); [right; left|exact Hs|].
    rewrite E1, E2 in E |- *. simpl in E |- *. rewrite E. reflexivity.
  - rewrite (IH1 Hnd Hok Hcomm s Hs). apply IH2; [| | |exact Hs].
    + rewrite <- Hp1. exact Hnd.
    + intros x s0 Hin. apply Hok. rewrite Hp1. exact Hin.
    + intros x y s0 Hx Hy. apply Hcomm; rewrite Hp1; assumption.
Qed.

(** A generation over blocks that pairwise share no cell does not depend
    on the order of the list. *)
Lemma rules_Permutation (b : Board.t) (h : heap) (l l' : list (Z * Z)) :
  WF b h -> l ≡ₚ l' -> NoDup l ->
  (forall o, o ∈ l -> is_block b o.1 o.2 = true) ->
  (forall o1 o2, o1 ∈ l -> o2 ∈ l -> o1 <> o2 -> apart (Board.N b) o1 o2) ->
  for_each l (fun ij s => Board.apply_block_rules s.1 ij.1 ij.2 s.2) (b, h)
  = for_each l' (fun ij s => Board.apply_block_rules s.1 ij.1 ij.2 s.2) (b, h).
Proof.
  intros Hwf Hperm Hnd Hblocks Hapart.
  apply (for_each_Permutation
           (fun s : Board.t * heap =>
              WF s.1 s.2 /\ Board.N s.1 = Board.N b /\
              Board.wraparound s.1 = Board.wraparound b));
    [exact Hperm|exact Hnd| | |auto].
  - intros o [b1 h1] Ho (Hwf1 & HN1 & Hw1). simpl in *.
    assert (Hb1 : is_block b1 o.1 o.2 = true).
    { rewrite (is_block_fields b b1) by assumption. apply Hblocks, Ho. }
    rewrite (apply_as_functions b1 h1 _ _ Hwf1 Hb1).
    eexists. split; [reflexivity|]. simpl.
    destruct (rule_frame b1 h1 _ _ Hwf1 Hb1) as (Hwf2 & HN2 & Hw2 & _).
    split; [exact Hwf2|]. split; congruence.
  - intros o1 o2 [b1 h1] Ho1 Ho2 Hne (Hwf1 & HN1 & Hw1). simpl in *.
    assert (Hb1 : is_block b1 o1.1 o1.2 = true).
    { rewrite (is_block_fields b b1) by assumption. apply Hblocks, Ho1. }
    assert (Hb2 : is_block b1 o2.1 o2.2 = true).
    { rewrite (is_block_fields b b1) by assumption. apply Hblocks, Ho2. }
    destruct (rule_frame b1 h1 _ _ Hwf1 Hb1) as (Hwf12 & HN12 & Hw12 & _).
    destruct (rule_frame b1 h1 _ _ Hwf1 Hb2) as (Hwf21 & HN21 & Hw21 & _).
    rewrite (apply_as_functions b1 h1 _ _ Hwf1 Hb1),
      (apply_as_functions b1 h1 _ _ Hwf1 Hb2). simpl.
    rewrite (apply_as_functions _ _ o2.1 o2.2 Hwf12),
      (apply_as_functions _ _ o1.1 o1.2 Hwf21);
      try (rewrite (is_block_fields b1) by assumption; assumption).
    assert (Hap : forall z, z ∈ Board.indices (Board.N b1) o1.1 o1.2 ->
                            z ∉ Board.indices (Board.N b1) o2.1 o2.2).
    { rewrite HN1. exact (Hapart o1 o2 Ho1 Ho2 Hne). }
    destruct (rule_commute b1 h1 _ _ _ _ Hwf1 Hb1 Hb2 Hap) as [-> ->].
    reflexivity.
Qed.

(** One dimension of a list of origins: two origins of
    [range(start, N, 2)] whose two-cell strips share a coordinate are
    equal, when [N] is even or neither strip wraps. *)
Lemma strip_apart (N start i i' x : Z) :
  start = 0 \/ start = 1 ->
  i ∈ py_range start N 2 -> i' ∈ py_range start N 2 ->
  Z.even N = true \/ (i + 1 < N /\ i' + 1 < N) ->
  x = i \/ x = (i + 1) mod N -> x = i' \/ x = (i' + 1) mod N -> i = i'.
Proof.
  intros Hs Hi Hi' Hcase Hx Hx'.
  apply elem_of_py_range in Hi, Hi'; try lia.
  destruct Hi as [Hri Hmi], Hi' as [Hri' Hmi'].
  rewrite succ_mod in Hx, Hx' by lia.
  apply Z.mod_divide in Hmi, Hmi'; try lia.
  destruct Hmi as [q Hq], Hmi' as [q' Hq'].
  destruct Hcase as [HN|[H1 H2]].
  - apply Z.even_spec in HN. destruct HN as [k Hk].
    destruct (Z.ltb_spec (i + 1) N), (Z.ltb_spec (i' + 1) N); lia.
  - destruct (Z.ltb_spec (i + 1) N), (Z.ltb_spec (i' + 1) N); lia.
Qed.

(** No origin of a list wraps, unless [N] is even: the list is built
    without wraparound, or it is the one built with [start = 1]. *)
Lemma origins_even_or_inside (N : Z) (w : bool) (start i j : Z) :
  start = 0 \/ start = 1 ->
  Z.even N = true \/ w = false \/ start = 1 ->
  (i, j) ∈ Board._create_blocks N w start ->
  Z.even N = true \/ (i + 1 < N /\ j + 1 < N).
Proof.
  intros Hs Hcase Hin. apply elem_of_create_blocks in Hin.
  destruct Hin as (Hi & Hj & Hw).
  destruct (Z.even N) eqn:HN; [auto|right].
  destruct Hcase as [?|[->| ->]]; [discriminate| |].
  - destruct Hw as [?|?]; [discriminate|assumption].
  - apply elem_of_py_range in Hi, Hj; try lia.
    destruct Hi as [Hri Hmi], Hj as [Hrj Hmj].
    apply Z.mod_divide in Hmi, Hmj; try lia.
    destruct Hmi as [q Hq], Hmj as [q' Hq'].
    rewrite <- Z.negb_odd in HN. apply negb_false_iff, Z.odd_spec in HN.
    destruct HN as [k Hk]. lia.
Qed.

Lemma origins_apart (N : Z) (w : bool) (start : Z) (o1 o2 : Z * Z) :
  start = 0 \/ start = 1 ->
  Z.even N = true \/ w = false \/ start = 1 ->
  o1 ∈ Board._create_blocks N w start ->
  o2 ∈ Board._create_blocks N w start ->
  o1 <> o2 -> apart N o1 o2.
Proof.
  intros Hs Hcase Ho1 Ho2 Hne [x y] H1 H2. apply Hne.
  destruct o1 as [i j], o2 as [i' j']. simpl in *.
  pose proof (origins_even_or_inside N w start i j Hs Hcase Ho1) as C1.
  pose proof (origins_even_or_inside N w start i' j' Hs Hcase Ho2) as C2.
  apply elem_of_create_blocks in Ho1, Ho2.
  destruct Ho1 as (Hi & Hj & _), Ho2 as (Hi' & Hj' & _).
  apply elem_of_indices in H1, H2. destruct H1 as [Hx Hy], H2 as [Hx' Hy'].
  f_equal.
  - apply (strip_apart N start i i' x Hs Hi Hi'); [|assumption..].
    destruct C1 as [?|[? ?]]; [auto|]. destruct C2 as [?|[? ?]]; auto.
  - apply (strip_apart N start j j' y Hs Hj Hj'); [|assumption..].
    destruct C1 as [?|[? ?]]; [auto|]. destruct C2 as [?|[? ?]]; auto.
Qed.

Lemma origins_are_blocks_inside (N : Z) (w : bool) (start i j : Z)
  (b : Board.t) :
  Board.N b = N -> Board.wraparound b = w -> start = 0 \/ start = 1 ->
  Z.even N = true \/ w = false \/ start = 1 ->
  (i, j) ∈ Board._create_blocks N w start -> is_block b i j = true.
Proof.
  intros HN Hw Hs Hcase Hin.
  destruct (origins_even_or_inside N w start i j Hs Hcase Hin) as [He|[Hi Hj]].
  - exact (origins_are_blocks N w start i j b HN Hw He Hs Hin).
  - apply origins_in_grid in Hin; [|lia].
    apply is_block_spec. rewrite HN.
    split; [lia|]. split; [lia|]. split; [lia|]. right. lia.
Qed.

(** X14.  The blocks of a generation can be swept in any order.  On an
    engine of the program whose size is even, or that runs without
    wraparound, or whose step counter is even (the list built with
    [start = 1] is then the active one), a generation over any
    rearrangement of the active list of block origins returns exactly what
    [step()] returns: the same arrangement of the cell objects, the same
    states and the same counter. *)
Theorem block_order_is_irrelevant (g : GameManager.t) (h : heap)
  (blocks : list (Z * Z)) :
  reachable g h ->
  Z.even (GameManager.N g) = true \/ GameManager.wraparound g = false
    \/ GameManager.current_step g mod 2 = 0 ->
  blocks ≡ₚ (if GameManager.current_step g mod 2 =? 0
             then Board.blocks_even (GameManager.board g)
             else Board.blocks_odd (GameManager.board g)) ->
  step_over g blocks h = GameManager.step g h.
Proof.
  intros Hr Hcase Hperm. pose proof (reachable_WF g h Hr) as Hwf.
  destruct (reachable_lists g h Hr) as ([He Ho] & HN & Hw).
  unfold step_over, GameManager.step, Board.step.
  set (b := GameManager.board g) in *.
  set (active := if GameManager.current_step g mod 2 =? 0
                 then Board.blocks_even b else Board.blocks_odd b) in *.
  assert (Hact : exists start, (start = 0 \/ start = 1) /\
            (Z.even (Board.N b) = true \/ Board.wraparound b = false
             \/ start = 1) /\
            active = Board._create_blocks (Board.N b) (Board.wraparound b) start).
  { subst active. rewrite HN, Hw.
    destruct (Z.eqb_spec (GameManager.current_step g mod 2) 0) as [E|E].
    - exists 1. rewrite He, HN, Hw. auto.
    - exists 0. rewrite Ho, HN, Hw. split; [auto|]. split; [|reflexivity].
      destruct Hcase as [?|[?|?]]; [auto|auto|contradiction]. }
  destruct Hact as (start & Hs & Hc & Eact).
  rewrite (rules_Permutation b h active blocks Hwf); [reflexivity| | | |].
  - symmetry. exact Hperm.
  - rewrite Eact. apply NoDup_create_blocks.
  - intros [i j] Hin. rewrite Eact in Hin. simpl.
    exact (origins_are_blocks_inside _ _ start i j b eq_refl eq_refl Hs Hc Hin).
  - intros o1 o2 H1 H2 Hne. rewrite Eact in H1, H2.
    exact (origins_apart _ _ start o1 o2 Hs Hc H1 H2 Hne).
Qed.

Lemma block_order_is_irrelevant_witness :
  exists g h,
    GameManager.__init__ 6 1 250 true (Some glider) "Glider" zeros = Ok (g, h) /\
    step_over g (reverse (Board._create_blocks 6 true 1)) h
    = GameManager.step g h.
Proof.
  eexists _, _. split; [vm_compute; reflexivity|].
  apply block_order_is_irrelevant.
  - apply (reach_init 6 1 250 true (Some glider) "Glider" zeros).
    vm_compute. reflexivity.
  - left. reflexivity.
  - exact (reverse_Permutation (Board._create_blocks 6 true 1)).
Defined.

(** *** The loop of the simulator *)

Lemma board_init_Ok (N : Z) (p : Q) (w : bool) (mode : string)
  (rnd : nat -> Z) :
  valid_p p = true -> 5 <= N ->
  exists b h,
    Board.__init__ N p w
      (if String.eqb mode "Glider" then Some glider else None) mode rnd
    = Ok (b, h).
Proof.
  intros Hvalid HN.
  rewrite (init_valid N p w _ mode rnd Hvalid).
  destruct (String.eqb mode "Glider").
  - destruct (place_pattern_Ok N w [0; 1] [[1; 0]; [1; 0]; [0; 1]]
                (rnd (Z.to_nat N * Z.to_nat N)%nat)
                (rnd (S (Z.to_nat N * Z.to_nat N)))
                (draws p rnd 0 (Z.to_nat N * Z.to_nat N)))
      as (h' & Hh'); [apply length_draws|reflexivity|simpl; lia..|].
    unfold glider. rewrite Hh'. simpl. eauto.
  - destruct (String.eqb mode "Odd Columns Alive");
      [|destruct (String.eqb mode "Odd Diagonals Alive")].
    + destruct (initialize_with_Ok (fun i j => if j mod 2 =? 1 then 1 else 0)
                  (fresh_board N w)
                  (draws p rnd 0 (Z.to_nat N * Z.to_nat N)))
        as (h' & Hh'); [apply dims_fresh_grid|].
      unfold Board._initialize_odd_columns. rewrite Hh'. simpl. eauto.
    + destruct (initialize_with_Ok
                  (fun i j => if (i + j) mod 2 =? 1 then 1 else 0)
                  (fresh_board N w)
                  (draws p rnd 0 (Z.to_nat N * Z.to_nat N)))
        as (h' & Hh'); [apply dims_fresh_grid|].
      unfold Board._initialize_diagonal_pattern. rewrite Hh'. simpl. eauto.
    + eauto.
Qed.

Lemma reachable_step_Ok (g : GameManager.t) (h : heap) :
  reachable g h ->
  exists b' h',
    GameManager.step g h
    = Ok (GameManager.mk (GameManager.N g) (GameManager.p g)
            (GameManager.max_steps g) (GameManager.wraparound g) b'
            (GameManager.current_step g + 1), h').
Proof.
  intros Hr. pose proof (reachable_WF g h Hr) as Hwf.
  destruct (reachable_lists g h Hr) as ([He Ho] & _ & _).
  unfold GameManager.step, Board.step.
  set (blocks := if GameManager.current_step g mod 2 =? 0
                 then Board.blocks_even (GameManager.board g)
                 else Board.blocks_odd (GameManager.board g)).
  destruct (step_in_grid (GameManager.board g) h blocks Hwf)
    as (b' & h' & Hrun).
  { intros i j Hin. subst blocks.
    destruct (_ =? 0); [rewrite He in Hin|rewrite Ho in Hin];
      apply origins_in_grid in Hin; (lia || exact Hin). }
  rewrite Hrun. simpl. eauto.
Qed.

Lemma reachable_draw_Ok (g : GameManager.t) (h : heap) (offset_x : Z) :
  reachable g h -> 1 <= GameManager.N g ->
  GameManager.draw g h offset_x
  = Ok (map (square g h offset_x) (all_cells (GameManager.N g))).
Proof.
  intros Hr HN. apply draw_squares; [|exact HN].
  destruct (reachable_lists g h Hr) as (_ & E & _). rewrite <- E.
  exact (wf_dims _ _ (reachable_WF g h Hr)).
Qed.

Lemma gm_step_binary (g g' : GameManager.t) (h h' : heap) :
  binary h = true -> GameManager.step g h = Ok (g', h') -> binary h' = true.
Proof.
  intros Hb Hstep. unfold GameManager.step in Hstep.
  destruct (Board.step _ _ _) as [[b1 h1]|] eqn:E; simpl in Hstep;
    [|discriminate Hstep].
  injection Hstep as <- <-. apply (step_binary _ _ _ _ _ Hb E).
Qed.

Lemma glider_mode_binary (N : Z) (p : Q) (w : bool) (mode : string)
  (rnd : nat -> Z) (b : Board.t) (h : heap) :
  Board.__init__ N p w
    (if String.eqb mode "Glider" then Some glider else None) mode rnd
  = Ok (b, h) ->
  binary h = true.
Proof.
  apply init_binary. intros pattern Hgl.
  destruct (String.eqb mode "Glider"); [|discriminate Hgl].
  injection Hgl as <-. reflexivity.
Qed.

Section Loop.
Context (N : Z) (p : Q) (limit : Z) (w : bool) (init_mode : string).
Context (Hvalid : valid_p p = true) (HN : 5 <= N) (Hlimit : 0 <= limit).

Lemma on_event_in_limits (ev : Simulator.event) (s : Simulator.loop) :
  in_limits N p limit w s -> Simulator.running s = true ->
  match Simulator.on_event init_mode ev s with
  | Simulator.Go s' => in_limits N p limit w s' /\ Simulator.running s' = true
  | Simulator.Exit => Simulator.type ev = Simulator.QUIT
  | Simulator.Escapes e => e = AttributeError /\ lacks_attribute ev
  end.
Proof.
  intros Hs Hrun.
  pose proof Hs as (Hr & EN & Ep & El & Ew & Hc & Hbin & Hstop).
  unfold Simulator.on_event, lacks_attribute.
  destruct (Simulator.type ev); [reflexivity| |auto].
  destruct (Simulator.user_type ev) as [[|]|]; [|auto|auto].
  destruct (Simulator.ui_element ev) as [[| |]|]; [| |auto|auto].
  - split; [|exact Hrun]. unfold in_limits. simpl.
    do 7 (split; [assumption|]). exact Hstop.
  - rewrite EN, Ep, Ew, El.
    destruct (board_init_Ok N p w init_mode (Simulator.entropy ev) Hvalid HN)
      as (b & h & E).
    rewrite E. split; [|exact Hrun]. unfold in_limits. simpl.
    split.
    { apply (reach_init N p limit w
               (if String.eqb init_mode "Glider" then Some glider else None)
               init_mode (Simulator.entropy ev)).
      unfold GameManager.__init__. rewrite E. reflexivity. }
    do 4 (split; [reflexivity|]). split; [lia|].
    split; [exact (glider_mode_binary _ _ _ _ _ _ _ E)|].
    rewrite Hrun. discriminate.
Qed.

Lemma on_events_in_limits (evs : list Simulator.event) (s : Simulator.loop) :
  in_limits N p limit w s -> Simulator.running s = true ->
  match Simulator.on_events init_mode evs s with
  | Simulator.Go s' => in_limits N p limit w s' /\ Simulator.running s' = true
  | Simulator.Exit =>
      exists ev, ev ∈ evs /\ Simulator.type ev = Simulator.QUIT
  | Simulator.Escapes e =>
      e = AttributeError /\ exists ev, ev ∈ evs /\ lacks_attribute ev
  end.
Proof.
  revert s. induction evs as [|ev evs IH]; intros s Hs Hrun; simpl; [auto|].
  pose proof (on_event_in_limits ev s Hs Hrun) as H.
  destruct (Simulator.on_event init_mode ev s) as [s'| |e].
  - destruct H as [Hs' Hrun']. specialize (IH s' Hs' Hrun').
    destruct (Simulator.on_events init_mode evs s') as [s''| |e];
      [exact IH| |].
    + destruct IH as (ev' & Hin & Hq). exists ev'. split; [right|]; assumption.
    + destruct IH as (He & ev' & Hin & Hq). split; [exact He|].
      exists ev'. split; [right|]; assumption.
  - exists ev. split; [left|exact H].
  - destruct H as [He Hl]. split; [exact He|]. exists ev. split; [left|exact Hl].
Qed.

Lemma advance_in_limits (s : Simulator.loop) :
  in_limits N p limit w s -> Simulator.running s = true ->
  match Simulator.advance s with
  | Simulator.Go s' => in_limits N p limit w s'
  | _ => False
  end.
Proof.
  intros Hs Hrun.
  pose proof Hs as (Hr & EN & Ep & El & Ew & Hc & Hbin & Hstop).
  unfold Simulator.advance. rewrite El.
  destruct (Z.ltb_spec (GameManager.current_step (Simulator.game_manager s))
              limit) as [Hlt|Hge]; simpl.
  - destruct (Simulator.paused s); simpl.
    + rewrite (reachable_draw_Ok _ _ 240 Hr) by lia.
      unfold in_limits. simpl. do 7 (split; [assumption|]). exact Hstop.
    + destruct (reachable_step_Ok _ _ Hr) as (b' & h' & Estep).
      assert (Hr' := reach_step _ _ _ _ Hr Estep).
      assert (Hbin' := gm_step_binary _ _ _ _ Hbin Estep).
      rewrite Estep, (reachable_draw_Ok _ _ 240 Hr') by (simpl; lia).
      unfold in_limits. simpl. split; [exact Hr'|].
      do 4 (split; [assumption|]). split; [lia|]. split; [exact Hbin'|].
      rewrite Hrun. discriminate.
  - unfold in_limits. simpl.
    do 7 (split; [assumption|]). intros _. lia.
Qed.

Lemma rounds_in_limits (frames : list (list Simulator.event))
  (s : Simulator.loop) :
  in_limits N p limit w s ->
  match Simulator.rounds init_mode frames s with
  | Simulator.Go s' => in_limits N p limit w s'
  | Simulator.Exit =>
      exists evs ev, evs ∈ frames /\ ev ∈ evs /\
                     Simulator.type ev = Simulator.QUIT
  | Simulator.Escapes e =>
      e = AttributeError /\
      exists evs ev, evs ∈ frames /\ ev ∈ evs /\ lacks_attribute ev
  end.
Proof.
  revert s. induction frames as [|evs frames IH]; intros s Hs; simpl;
    [exact Hs|].
  destruct (Simulator.running s) eqn:Hrun; [|exact Hs].
  unfold Simulator.round.
  pose proof (on_events_in_limits evs s Hs Hrun) as H.
  destruct (Simulator.on_events init_mode evs s) as [s1| |e].
  - destruct H as [Hs1 Hrun1].
    pose proof (advance_in_limits s1 Hs1 Hrun1) as H2.
    destruct (Simulator.advance s1) as [s2| |e]; try contradiction.
    specialize (IH s2 H2).
    destruct (Simulator.rounds init_mode frames s2) as [s3| |e];
      [exact IH| |].
    + destruct IH as (evs' & ev & Hin & Hev & Hq).
      exists evs', ev. split; [right; exact Hin|]. auto.
    + destruct IH as (He & evs' & ev & Hin & Hev & Hq). split; [exact He|].
      exists evs', ev. split; [right; exact Hin|]. auto.
  - destruct H as (ev & Hev & Hq). exists evs, ev. split; [left|]. auto.
  - destruct H as (He & ev & Hev & Hq). split; [exact He|].
    exists evs, ev. split; [left|]. auto.
Qed.

End Loop.

Lemma first_event_decides (init_mode : string) (s : Simulator.loop)
  (ev : Simulator.event) (evs : list Simulator.event)
  (frames : list (list Simulator.event)) :
  Simulator.running s = true ->
  (lacks_attribute ev ->
   Simulator.rounds init_mode ((ev :: evs) :: frames) s
   = Simulator.Escapes AttributeError) /\
  (Simulator.type ev = Simulator.QUIT ->
   Simulator.rounds init_mode ((ev :: evs) :: frames) s = Simulator.Exit).
Proof.
  intros Hrun. simpl. rewrite Hrun.
  unfold Simulator.round. simpl. unfold Simulator.on_event. split.
  - intros [-> [-> | [-> ->]]]; reflexivity.
  - intros ->. reflexivity.
Qed.

(** X15.  [run_simulation] on the engine that [start_simulation] builds
    (probability slider within 0..100, size slider at least 5, a step limit
    that is not negative), for any events in any rounds.  The only
    exception that can escape is the [AttributeError] of an event of type
    [USEREVENT] without [user_type], or of a button press without
    [ui_element]; the program is left only on a [pygame.QUIT] event.
    Otherwise the engine is, after every round, an engine of the program
    with the same size, probability, step limit and wraparound flag, its
    states are zeros and ones, its counter lies between 0 and the step
    limit, and the loop is left only with the counter at the step limit.
    A first event that lacks an attribute does make the [AttributeError]
    escape, and a first event of type [pygame.QUIT] does end the
    program. *)
Theorem run_simulation_stays_in_limits (generations_value probability_value
  size_value : Z) (w : bool) (selected_option : string) (rnd : nat -> Z)
  (g : GameManager.t) (h : heap) (frames : list (list Simulator.event)) :
  0 <= probability_value <= 100 -> 5 <= size_value ->
  0 <= generations_value ->
  Simulator.start_simulation generations_value probability_value size_value
    w selected_option rnd = Ok (g, h) ->
  match Simulator.run_simulation selected_option g h frames with
  | Simulator.Go s =>
      in_limits (GameManager.N g) (GameManager.p g) generations_value w s
  | Simulator.Exit =>
      exists evs ev, evs ∈ frames /\ ev ∈ evs /\
                     Simulator.type ev = Simulator.QUIT
  | Simulator.Escapes e =>
      e = AttributeError /\
      exists evs ev, evs ∈ frames /\ ev ∈ evs /\ lacks_attribute ev
  end /\
  (forall ev evs, lacks_attribute ev ->
     Simulator.run_simulation selected_option g h ((ev :: evs) :: frames)
     = Simulator.Escapes AttributeError) /\
  (forall ev evs, Simulator.type ev = Simulator.QUIT ->
     Simulator.run_simulation selected_option g h ((ev :: evs) :: frames)
     = Simulator.Exit).
Proof.
  intros Hprob Hsize Hgen Hstart. split.
  2: { split; intros ev evs Hev; unfold Simulator.run_simulation;
       apply first_event_decides; (reflexivity || exact Hev). }
  assert (Hr : reachable g h).
  { exact (reach_init _ _ _ _ _ _ _ g h Hstart). }
  unfold Simulator.start_simulation, GameManager.__init__ in Hstart.
  destruct (Board.__init__ _ _ _ _ _ _) as [[b h0]|] eqn:E;
    simpl in Hstart; [|discriminate Hstart].
  injection Hstart as <- <-. simpl.
  apply rounds_in_limits.
  - destruct (String.eqb selected_option "Glider"); [reflexivity|].
    apply slider_probability_valid, Hprob.
  - destruct (size_value mod 2 =? 0); lia.
  - exact Hgen.
  - unfold in_limits. simpl. split; [exact Hr|].
    do 4 (split; [reflexivity|]). split; [lia|].
    split; [exact (glider_mode_binary _ _ _ _ _ _ _ E)|]. discriminate.
Qed.

Lemma run_simulation_stays_in_limits_witness :
  exists g h,
    Simulator.start_simulation 3 50 5 true "Glider" zeros = Ok (g, h) /\
    (match Simulator.run_simulation "Glider" g h
             [[press_play_pause]; [press_reset zeros; other_event];
              [press_play_pause]; []; []; []; []] with
     | Simulator.Go s => in_limits (GameManager.N g) (GameManager.p g) 3 true s
     | Simulator.Exit =>
         exists evs ev,
           evs ∈ [[press_play_pause]; [press_reset zeros; other_event];
                  [press_play_pause]; []; []; []; []]
           /\ ev ∈ evs /\ Simulator.type ev = Simulator.QUIT
     | Simulator.Escapes e =>
         e = AttributeError /\
         exists evs ev,
           evs ∈ [[press_play_pause]; [press_reset zeros; other_event];
                  [press_play_pause]; []; []; []; []]
           /\ ev ∈ evs /\ lacks_attribute ev
     end /\
     (forall ev evs, lacks_attribute ev ->
        Simulator.run_simulation "Glider" g h
          ((ev :: evs) ::
           [[press_play_pause]; [press_reset zeros; other_event];
            [press_play_pause]; []; []; []; []])
        = Simulator.Escapes AttributeError) /\
     (forall ev evs, Simulator.type ev = Simulator.QUIT ->
        Simulator.run_simulation "Glider" g h
          ((ev :: evs) ::
           [[press_play_pause]; [press_reset zeros; other_event];
            [press_play_pause]; []; []; []; []])
        = Simulator.Exit)).
Proof.
  eexists _, _. split; [vm_compute; reflexivity|].
  apply (run_simulation_stays_in_limits 3 50 5 true "Glider" zeros);
    [lia|lia|lia|vm_compute; reflexivity].
Defined.

Lemma rounds_uneventful (init_mode : string) (m : nat) :
  forall (g : GameManager.t) (h : heap)
         (sc : option (list ((Z * Z * Z) * (Z * Z * Z * Z)))),
  reachable g h -> binary h = true -> 1 <= GameManager.N g ->
  GameManager.max_steps g - GameManager.current_step g = Z.of_nat m ->
  exists g' h',
    generations m g h = Ok (g', h') /\
    GameManager.current_step g' = GameManager.max_steps g /\
    binary h' = true /\
    Simulator.rounds init_mode (repeat [] (S m))
      (Simulator.mk_loop g h false true sc)
    = Simulator.Go (Simulator.mk_loop g' h' false false
        (match m with
         | O => sc
         | S _ => Some (map (square g' h' 240) (all_cells (GameManager.N g')))
         end)).
Proof.
  induction m as [|m IH]; intros g h sc Hr Hbin HN Hm.
  - exists g, h. split; [reflexivity|]. split; [lia|]. split; [exact Hbin|].
    simpl. unfold Simulator.round, Simulator.advance. simpl.
    destruct (Z.ltb_spec (GameManager.current_step g)
                (GameManager.max_steps g)); [lia|reflexivity].
  - destruct (reachable_step_Ok g h Hr) as (b1 & h1 & Estep).
    set (g1 := GameManager.mk (GameManager.N g) (GameManager.p g)
                 (GameManager.max_steps g) (GameManager.wraparound g) b1
                 (GameManager.current_step g + 1)) in *.
    assert (Hr1 := reach_step _ _ _ _ Hr Estep).
    assert (Hbin1 := gm_step_binary _ _ _ _ Hbin Estep).
    destruct (IH g1 h1
                (Some (map (square g1 h1 240) (all_cells (GameManager.N g1))))
                Hr1 Hbin1 HN) as (g' & h' & Hgen & Hcs & Hbin' & Hrounds).
    { simpl. lia. }
    exists g', h'. split; [simpl; rewrite Estep; exact Hgen|].
    split; [exact Hcs|]. split; [exact Hbin'|].
    change (repeat [] (S (S m))) with ([] :: repeat (@nil Simulator.event) (S m)).
    unfold Simulator.rounds at 1. fold Simulator.rounds.
    unfold Simulator.running at 1.
    unfold Simulator.round, Simulator.advance. simpl Simulator.on_events.
    cbv iota. simpl Simulator.game_manager. simpl Simulator.paused.
    simpl Simulator.store. simpl Simulator.running.
    destruct (Z.ltb_spec (GameManager.current_step g)
                (GameManager.max_steps g)) as [_|Hge]; [|lia].
    simpl andb. cbv iota.
    rewrite Estep, (reachable_draw_Ok g1 h1 240 Hr1 HN).
    rewrite Hrounds. f_equal. f_equal.
    destruct m; [|reflexivity].
    simpl in Hgen. injection Hgen as <- <-. reflexivity.
Qed.

(** X16.  When no event arrives, [run_simulation] plays the engine to its
    step limit and stops: on an engine of the program of size at least 1
    whose states are zeros and ones (as they are for the engines that the
    simulator builds) and whose counter has not passed the limit,
    [max_steps - current_step] rounds each make one generation and draw it,
    the next round leaves the loop, and the engine is then the one that as
    many calls of [step()] give, with states that are zeros and ones, its
    counter at the limit and its last generation on the screen. *)
Theorem uneventful_run_plays_to_the_limit (init_mode : string)
  (g : GameManager.t) (h : heap) :
  reachable g h -> binary h = true -> 1 <= GameManager.N g ->
  GameManager.current_step g <= GameManager.max_steps g ->
  let m := Z.to_nat (GameManager.max_steps g - GameManager.current_step g) in
  exists g' h',
    generations m g h = Ok (g', h') /\
    GameManager.current_step g' = GameManager.max_steps g /\
    binary h' = true /\
    Simulator.run_simulation init_mode g h (repeat [] (S m))
    = Simulator.Go (Simulator.mk_loop g' h' false false
        (match m with
         | O => None
         | S _ => Some (map (square g' h' 240) (all_cells (GameManager.N g')))
         end)).
Proof.
  intros Hr Hbin HN Hc m. unfold Simulator.run_simulation.
  apply rounds_uneventful; [exact Hr|exact Hbin|exact HN|]. subst m. lia.
Qed.

Lemma uneventful_run_plays_to_the_limit_witness :
  exists g h,
    GameManager.__init__ 6 1 3 true (Some glider) "Glider" zeros = Ok (g, h) /\
    exists g' h',
      generations 3 g h = Ok (g', h') /\
      GameManager.current_step g' = 3 /\
      binary h' = true /\
      Simulator.run_simulation "Glider" g h [[]; []; []; []]
      = Simulator.Go (Simulator.mk_loop g' h' false false
          (Some (map (square g' h' 240) (all_cells (GameManager.N g'))))).
Proof.
  pose (g := GameManager.mk 6 1 3 true
               (Board.mk 6 true (Board._create_blocks 6 true 1)
                  (Board._create_blocks 6 true 0) (fresh_grid 6)) 0).
  pose (h := ltac:(let x := eval vm_compute in
                      (match GameManager.__init__ 6 1 3 true (Some glider)
                               "Glider" zeros with
                       | Ok (_, h) => h
                       | Raise _ => []
                       end) in exact x) : heap).
  assert (Hinit : GameManager.__init__ 6 1 3 true (Some glider) "Glider" zeros
                  = Ok (g, h)) by (vm_compute; reflexivity).
  exists g, h. split; [exact Hinit|].
  pose proof (uneventful_run_plays_to_the_limit "Glider" g h
                (reach_init 6 1 3 true (Some glider) "Glider" zeros g h Hinit))
    as H.
  specialize (H ltac:(vm_compute; reflexivity) ltac:(simpl; lia)
                ltac:(simpl; lia)).
  cbv zeta in H.
  change (Z.to_nat (GameManager.max_steps g - GameManager.current_step g))
    with 3%nat in H.
  exact H.
Defined.

(** *** The number of alive cells *)

Lemma population_density (b : Board.t) (h : heap) :
  population b h = Board.density (concat (Board.grid b)) h.
Proof.
  unfold population, Board.get_state_array, Board.density.
  rewrite <- concat_map. reflexivity.
Qed.

Lemma density_app (l l' : list loc) (h : heap) :
  Board.density (l ++ l') h = Board.density l h + Board.density l' h.
Proof.
  unfold Board.density. induction l as [|c l IH]; simpl; [reflexivity|].
  rewrite IH. lia.
Qed.

Lemma density_Permutation (l l' : list loc) (h : heap) :
  l ≡ₚ l' -> Board.density l h = Board.density l' h.
Proof.
  unfold Board.density.
  induction 1 as [|c l l' _ IH|c c' l|l l' l'' _ IH1 _ IH2]; simpl; lia.
Qed.

Lemma density_ext (l : list loc) (h h' : heap) :
  (forall c, c ∈ l -> Cell.state c h' = Cell.state c h) ->
  Board.density l h' = Board.density l h.
Proof.
  unfold Board.density. induction l as [|c l IH]; intros Hl; simpl;
    [reflexivity|].
  rewrite Hl by left. rewrite IH; [reflexivity|].
  intros c' Hc'. apply Hl. right. exact Hc'.
Qed.

Lemma density_complemented (l : list loc) (h h' : heap) :
  (forall c, c ∈ l -> Cell.state c h' = 1 - Cell.state c h) ->
  Board.density l h' = Z.of_nat (length l) - Board.density l h.
Proof.
  unfold Board.density. induction l as [|c l IH]; intros Hl;
    [reflexivity|].
  cbn [map foldr length]. rewrite Hl by left. rewrite IH; [lia|].
  intros c' Hc'. apply Hl. right. exact Hc'.
Qed.

Lemma NoDup_split (l k : list loc) :
  NoDup l -> NoDup k -> (forall c, c ∈ k -> c ∈ l) ->
  l ≡ₚ k ++ filter (fun c => c ∉ k) l.
Proof.
  intros Hl Hk Hsub. apply NoDup_Permutation; [exact Hl| |].
  - apply NoDup_app. split; [exact Hk|]. split; [|apply NoDup_filter, Hl].
    intros c Hc Hf. apply list_elem_of_filter in Hf. destruct Hf as [Hn _].
    exact (Hn Hc).
  - intros c. rewrite elem_of_app, list_elem_of_filter. split.
    + intros Hc. destruct (decide (c ∈ k)); auto.
    + intros [Hc|[_ Hc]]; auto.
Qed.

Lemma NoDup_concat_grid (b : Board.t) (h : heap) :
  WF b h -> NoDup (concat (Board.grid b)).
Proof.
  intros Hwf. apply WF_well_formed in Hwf. unfold well_formed in Hwf.
  apply andb_true_iff in Hwf. destruct Hwf as [Hwf _].
  apply andb_true_iff in Hwf. destruct Hwf as [_ Hdis].
  apply distinct_NoDup, Hdis.
Qed.

Lemma elem_of_concat_grid (b : Board.t) (h : heap) (c : loc) :
  WF b h ->
  c ∈ concat (Board.grid b) <->
  exists x y, 0 <= x < Board.N b /\ 0 <= y < Board.N b /\
              c = ref (Board.grid b) x y.
Proof.
  intros Hwf. pose proof (wf_dims _ _ Hwf) as [Hlen Hrows]. split.
  - intros Hc. apply list_elem_of_In, in_concat in Hc.
    destruct Hc as (row & Hrow & Hc).
    apply list_elem_of_In in Hrow, Hc. pose proof (Hrows row Hrow) as Hl.
    apply list_elem_of_lookup in Hrow, Hc.
    destruct Hrow as [X HX], Hc as [Y HY].
    pose proof (lookup_lt_Some _ _ _ HX) as HX'.
    pose proof (lookup_lt_Some _ _ _ HY) as HY'.
    exists (Z.of_nat X), (Z.of_nat Y).
    split; [lia|]. split; [lia|].
    unfold ref. rewrite !Nat2Z.id.
    rewrite (list_lookup_total_correct _ _ _ HX).
    rewrite (list_lookup_total_correct _ _ _ HY). reflexivity.
  - intros (x & y & Hx & Hy & ->).
    apply (list_elem_of_lookup_2 _
             (Z.to_nat x * Z.to_nat (Board.N b) + Z.to_nat y)%nat).
    apply lookup_concat_grid; [exact Hrows|lia..].
Qed.

Lemma concat_rotate (b : Board.t) (h : heap) (i j : Z) :
  WF b h -> is_block b i j = true ->
  concat (rotate (Board.grid b) (Board.N b) i j) ≡ₚ concat (Board.grid b).
Proof.
  intros Hwf Hb. pose proof (WF_rotate b h i j Hwf Hb) as Hwf'.
  destruct (block_corners b i j Hb) as (_ & _ & _ & _ & Hi1 & Hj1).
  apply NoDup_Permutation.
  - exact (NoDup_concat_grid _ _ Hwf').
  - exact (NoDup_concat_grid _ _ Hwf).
  - intros c.
    rewrite (elem_of_concat_grid b h c Hwf).
    pose proof (elem_of_concat_grid _ _ c Hwf') as E. simpl in E. rewrite E.
    clear E. split.
    + intros (x & y & Hx & Hy & ->).
      destruct (rot_in_grid b i j x y Hb Hx Hy) as [Hx' Hy'].
      eexists _, _. split; [exact Hx'|]. split; [exact Hy'|].
      apply (ref_rotate b i j x y (wf_dims _ _ Hwf) Hb); lia.
    + intros (x & y & Hx & Hy & ->).
      destruct (rot_in_grid b i j x y Hb Hx Hy) as [Hx' Hy'].
      eexists _, _. split; [exact Hx'|]. split; [exact Hy'|].
      rewrite (ref_rotate b i j _ _ (wf_dims _ _ Hwf) Hb) by lia.
      rewrite <- surjective_pairing, (rot_involutive _ _ _ _ Hi1 Hj1).
      reflexivity.
Qed.

(** The flips of a block change the number of alive cells of a board of
    zeros and ones from [d] alive cells in the block to [4 - d]. *)
Lemma population_flip (b : Board.t) (h : heap) (i j : Z) :
  WF b h -> is_block b i j = true -> binary h = true ->
  let cells := block_refs (Board.grid b) (Board.N b) i j in
  population b (Board.flip_all cells h)
  = population b h + 4 - 2 * Board.density cells h.
Proof.
  intros Hwf Hb Hbin cells. rewrite !population_density.
  pose proof (NoDup_block_refs b h i j Hwf Hb) as Hnd.
  pose proof (block_refs_alloc b h i j Hwf Hb) as Halloc.
  fold cells in Hnd, Halloc.
  assert (Hsub : forall c, c ∈ cells -> c ∈ concat (Board.grid b)).
  { intros c Hc. apply (elem_of_concat_grid b h c Hwf).
    destruct (block_corners b i j Hb) as (Hi & Hj & Hi1 & Hj1 & _).
    unfold cells, block_refs in Hc.
    repeat (apply elem_of_cons in Hc; destruct Hc as [->|Hc]);
      [eauto 6..|inversion Hc]. }
  pose proof (NoDup_split _ _ (NoDup_concat_grid b h Hwf) Hnd Hsub) as Hperm.
  rewrite !(density_Permutation _ _ _ Hperm), !density_app.
  rewrite (density_complemented cells h).
  - rewrite (density_ext (filter _ _) h).
    + replace (Z.of_nat (length cells)) with 4 by reflexivity. lia.
    + intros c Hc. apply list_elem_of_filter in Hc. destruct Hc as [Hn _].
      rewrite (state_flip_all cells h c Hnd Halloc).
      destruct (decide (c ∈ cells)); [contradiction|reflexivity].
  - intros c Hc. rewrite (state_flip_all cells h c Hnd Halloc).
    destruct (decide (c ∈ cells)); [|contradiction].
    rewrite lxor_complement; [reflexivity|].
    apply binary_state; [exact Hbin|apply Halloc, Hc].
Qed.

(** The rule on a block of a board of zeros and ones keeps the parity of
    the number of alive cells. *)
Lemma rule_population (b : Board.t) (h : heap) (i j : Z) :
  WF b h -> is_block b i j = true -> binary h = true ->
  exists k, population (rule_board b i j h) (rule_heap b i j h)
            = population b h + 2 * k.
Proof.
  intros Hwf Hb Hbin.
  pose proof (population_flip b h i j Hwf Hb Hbin) as Hflip. simpl in Hflip.
  unfold rule_board, rule_heap.
  set (d := Board.density (block_refs (Board.grid b) (Board.N b) i j) h) in *.
  destruct (Z.eqb_spec d 3) as [E3|N3].
  - rewrite !orb_true_r. simpl. exists (2 - d).
    rewrite population_density. simpl.
    rewrite (density_Permutation _ _ _ (concat_rotate b h i j Hwf Hb)).
    rewrite <- population_density, Hflip. lia.
  - rewrite orb_false_r.
    destruct ((d =? 0) || (d =? 1) || (d =? 4)).
    + exists (2 - d). rewrite Hflip. lia.
    + exists 0. lia.
Qed.

Lemma flip_flip (c : loc) (h : heap) : Cell.flip c (Cell.flip c h) = h.
Proof.
  unfold Cell.flip. rewrite list_alter_alter_eq. apply list_alter_id.
  intros x. unfold compose.
  rewrite Z.lxor_assoc, Z.lxor_nilpotent, Z.lxor_0_r. reflexivity.
Qed.

(** On a board of one cell with wraparound the four indices of the block
    are the same cell: it is flipped four times, or not at all. *)
Lemma apply_single_cell (b : Board.t) (h : heap) :
  WF b h -> Board.N b = 1 -> binary h = true ->
  Board.apply_block_rules b 0 0 h = Ok (b, h).
Proof.
  intros Hwf HN Hbin. pose proof (wf_dims _ _ Hwf) as Hd.
  unfold Board.apply_block_rules. rewrite HN.
  destruct (Board.past_edge 1 (Board.wraparound b) 0 0); [reflexivity|].
  simpl (1 =? 0). cbv iota.
  change (Board.indices 1 0 0) with [(0, 0); (0, 0); (0, 0); (0, 0)].
  simpl mapM. rewrite !(getitem2_ref _ _ Hd) by lia. simpl.
  set (c := ref (Board.grid b) 0 0).
  rewrite density_four.
  assert (Hs : Cell.state c h = 0 \/ Cell.state c h = 1).
  { apply binary_state; [exact Hbin|]. apply (wf_alloc _ _ Hwf); lia. }
  assert (Hflips : Board.flip_all [c; c; c; c] h = h).
  { rewrite !flip_all_cons, !flip_flip. reflexivity. }
  rewrite Hflips. destruct Hs as [-> | ->]; reflexivity.
Qed.

Lemma origins_are_blocks_or_single (N : Z) (w : bool) (start i j : Z)
  (b : Board.t) :
  Board.N b = N -> Board.wraparound b = w -> 0 <= start ->
  (i, j) ∈ Board._create_blocks N w start ->
  is_block b i j = true \/ (N = 1 /\ (i, j) = (0, 0)).
Proof.
  intros HN Hw Hs Hin. pose proof (origins_in_grid N w start i j Hs Hin) as Hg.
  apply elem_of_create_blocks in Hin. destruct Hin as (_ & _ & Hcase).
  destruct (Z.eq_dec N 1) as [E|E].
  - right. split; [exact E|]. f_equal; lia.
  - left. apply is_block_spec. rewrite HN, Hw.
    split; [lia|]. split; [lia|]. split; [lia|]. exact Hcase.
Qed.

Lemma sweep_population (b : Board.t) (h : heap) (blocks : list (Z * Z)) :
  WF b h -> binary h = true ->
  (forall o, o ∈ blocks ->
     is_block b o.1 o.2 = true \/ (Board.N b = 1 /\ o = (0, 0))) ->
  exists b' h' k,
    for_each blocks (fun ij s => Board.apply_block_rules s.1 ij.1 ij.2 s.2)
      (b, h) = Ok (b', h') /\
    population b' h' = population b h + 2 * k.
Proof.
  intros Hwf Hbin Hblocks.
  destruct (for_each_invariant
              (fun s : Board.t * heap =>
                 WF s.1 s.2 /\ binary s.2 = true /\
                 Board.N s.1 = Board.N b /\
                 Board.wraparound s.1 = Board.wraparound b /\
                 exists k, population s.1 s.2 = population b h + 2 * k)
              (fun o : Z * Z =>
                 is_block b o.1 o.2 = true \/ (Board.N b = 1 /\ o = (0, 0)))
              blocks
              (fun ij s => Board.apply_block_rules s.1 ij.1 ij.2 s.2) (b, h))
    as ([b' h'] & Hrun & _ & _ & _ & _ & k & Hk).
  - intros o [b1 h1] _ Ho (Hwf1 & Hbin1 & HN1 & Hw1 & k & Hk). simpl in *.
    destruct Ho as [Hb|[E1 ->]].
    + assert (Hb1 : is_block b1 o.1 o.2 = true).
      { rewrite (is_block_fields b b1) by assumption. exact Hb. }
      rewrite (apply_as_functions b1 h1 _ _ Hwf1 Hb1).
      eexists. split; [reflexivity|]. simpl.
      destruct (rule_frame b1 h1 _ _ Hwf1 Hb1) as (Hwf2 & HN2 & Hw2 & _).
      destruct (rule_population b1 h1 _ _ Hwf1 Hb1 Hbin1) as (k' & Hk').
      split; [exact Hwf2|]. split.
      { unfold rule_heap. destruct (_ || _); [|exact Hbin1].
        apply binary_flip_all, Hbin1. }
      split; [congruence|]. split; [congruence|].
      exists (k + k'). lia.
    + simpl. rewrite (apply_single_cell b1 h1 Hwf1) by congruence.
      eexists. split; [reflexivity|]. simpl. eauto 10.
  - apply Forall_forall. exact Hblocks.
  - simpl. split; [exact Hwf|]. split; [exact Hbin|].
    split; [reflexivity|]. split; [reflexivity|]. exists 0. lia.
  - exists b', h', k. split; [exact Hrun|exact Hk].
Qed.

(** X17.  A generation keeps the parity of the number of alive cells.  On
    an engine of the program whose states are zeros and ones, [step()]
    returns an engine whose snapshot holds an even number of alive cells
    exactly when the snapshot before the call does: the rule turns the
    [d] alive cells of a block into [4 - d], or leaves the block alone. *)
Theorem alive_count_keeps_parity (g : GameManager.t) (h : heap) :
  reachable g h -> binary h = true ->
  exists g' h',
    GameManager.step g h = Ok (g', h') /\
    Z.even (population (GameManager.board g') h')
    = Z.even (population (GameManager.board g) h).
Proof.
  intros Hr Hbin. pose proof (reachable_WF g h Hr) as Hwf.
  destruct (reachable_lists g h Hr) as ([He Ho] & _ & _).
  unfold GameManager.step, Board.step.
  set (b := GameManager.board g) in *.
  destruct (sweep_population b h
              (if GameManager.current_step g mod 2 =? 0
               then Board.blocks_even b else Board.blocks_odd b) Hwf Hbin)
    as (b' & h' & k & Hrun & Hk).
  { intros [i j] Hin. simpl.
    destruct (_ =? 0); [rewrite He in Hin|rewrite Ho in Hin].
    - exact (origins_are_blocks_or_single _ _ 1 i j b eq_refl eq_refl
               ltac:(lia) Hin).
    - exact (origins_are_blocks_or_single _ _ 0 i j b eq_refl eq_refl
               ltac:(lia) Hin). }
  rewrite Hrun. simpl. eexists _, _. split; [reflexivity|]. simpl.
  rewrite Hk. apply Z.even_add_mul_2.
Qed.

Lemma alive_count_keeps_parity_witness :
  exists g h,
    GameManager.__init__ 6 1 250 true (Some glider) "Glider" zeros = Ok (g, h) /\
    exists g' h',
      GameManager.step g h = Ok (g', h') /\
      Z.even (population (GameManager.board g') h')
      = Z.even (population (GameManager.board g) h).
Proof.
  eexists _, _. split; [vm_compute; reflexivity|].
  apply alive_count_keeps_parity.
  - apply (reach_init 6 1 250 true (Some glider) "Glider" zeros).
    vm_compute. reflexivity.
  - vm_compute. reflexivity.
Defined.
